(** * wprintJNI: page ranges, page order, scaling and job callbacks

    A shallow embedding of the decision logic of [jni/lib/wprintJNI.c]:
    the page-range parser [_order_pdf_pages], the resolver
    [_get_pdf_page_range], the per-document sender [_print_pdf_pages], the
    job driver [Java_com_android_bips_ipp_Backend_nativeStartJob] and the
    callback [_wprint_callback_fn].

    C [int] values are embedded as [Z]; every integer the modelled code
    computes stays far inside the 32-bit range (page numbers come from
    tokens of at most four characters and array indexes are below
    [MAX_NUM_PAGES]), so no wrap-around occurs.  C strings are lists of
    characters without the terminating NUL; fixed-size [char] arrays are
    lists of exactly their declared length, NUL cells included.  A run of
    the C code that would leave the bounds of an array has no defined
    result and is embedded as [Undefined]. *)

From Stdlib Require Import ZArith List Ascii String Lia Bool Sorted.
From stdpp Require Import base list numbers strings pretty.
From Equations Require Import Equations.

Local Open Scope Z_scope.

(** ** Outcomes of the C code *)

Inductive undefined_behaviour : Type :=
| TokenBufferOverrun      (* write past num_begin_ary[4] / num_end_ary[4] *)
| TokenNotTerminated      (* a token array without NUL is read as a string *)
| PagesArrayOverrun       (* pages_ary[i] with i outside the array *)
| ScalingBufferOverrun    (* strlcpy told a size larger than its target *)
| ShiftOutOfRange         (* 1 << i with i outside 0..30 on a 32-bit int *)
| RangeNotTerminated      (* page_range_str without NUL is read as a string *)
| IntegerOverflow.        (* a sum that leaves the range of a 32-bit int *)

Inductive result (A : Type) : Type :=
| Done (a : A)
| Undefined (u : undefined_behaviour).
Arguments Done {A} a.
Arguments Undefined {A} u.

Definition bind {A B} (r : result A) (k : A -> result B) : result B :=
  match r with
  | Done a => k a
  | Undefined u => Undefined u
  end.

Notation "x <~ r ;; k" := (bind r (fun x => k))
  (at level 100, r at next level, right associativity).

(** ** The C library functions the parser calls *)

Module Libc.

Definition code (c : ascii) : N := N_of_ascii c.

(** [isspace] in the C locale: space, \t, \n, \v, \f, \r. *)
Definition isspace (c : ascii) : bool :=
  (code c =? 32)%N || ((9 <=? code c)%N && (code c <=? 13)%N).

Definition isdigit (c : ascii) : bool :=
  (48 <=? code c)%N && (code c <=? 57)%N.

Definition tolower (c : ascii) : ascii :=
  if (65 <=? code c)%N && (code c <=? 90)%N
  then ascii_of_N (code c + 32) else c.

Definition isxdigit (c : ascii) : bool :=
  isdigit c || ((97 <=? code (tolower c))%N && (code (tolower c) <=? 102)%N).

Definition isalpha (c : ascii) : bool :=
  (97 <=? code (tolower c))%N && (code (tolower c) <=? 122)%N.

Definition is_sign (c : ascii) : bool :=
  (code c =? 43)%N || (code c =? 45)%N.

Definition digit_value (c : ascii) : Z := Z.of_N (code c) - 48.

Fixpoint skip (p : ascii -> bool) (s : list ascii) : list ascii :=
  match s with
  | c :: t => if p c then skip p t else s
  | [] => []
  end.

Fixpoint digits_value (acc : Z) (s : list ascii) : Z :=
  match s with
  | c :: t => if isdigit c then digits_value (acc * 10 + digit_value c) t else acc
  | [] => acc
  end.

(** [atoi]: optional white space, optional sign, decimal digits.  Its
    result is unspecified when the value does not fit an [int]; the
    parser only passes it strings of at most four characters. *)
Definition atoi (nptr : list ascii) : Z :=
  match skip isspace nptr with
  | c :: t =>
      if (code c =? 45)%N then - digits_value 0 t
      else if (code c =? 43)%N then digits_value 0 t
      else digits_value 0 (c :: t)
  | [] => 0
  end.

(** The rest after "digits [. digits]" with at least one digit in all. *)
Definition mantissa_end (isd : ascii -> bool) (s : list ascii)
  : option (list ascii) :=
  let r1 := skip isd s in
  let n1 := (length s - length r1)%nat in
  match r1 with
  | c :: t =>
      if (code c =? 46)%N then
        let r2 := skip isd t in
        let n2 := (length t - length r2)%nat in
        if (n1 + n2 =? 0)%nat then None else Some r2
      else if (n1 =? 0)%nat then None else Some r1
  | [] => if (n1 =? 0)%nat then None else Some r1
  end.

(** The rest after an optional exponent part: marker, optional sign, at
    least one decimal digit.  A marker without digits is not consumed. *)
Definition exponent_end (marker : ascii) (s : list ascii) : list ascii :=
  match s with
  | c :: t =>
      if (code (tolower c) =? code marker)%N then
        let t' := match t with
                  | sg :: u => if is_sign sg then u else t
                  | [] => t
                  end in
        match t' with
        | d :: _ => if isdigit d then skip isdigit t' else s
        | [] => s
        end
      else s
  | [] => s
  end.

(** The rest of [s] after the word [w], matched without regard to case. *)
Fixpoint match_word (w s : list ascii) : option (list ascii) :=
  match w, s with
  | [], _ => Some s
  | a :: w', c :: s' =>
      if (code a =? code (tolower c))%N then match_word w' s' else None
  | _ :: _, [] => None
  end.

(** The rest after an optional "(n-char-sequence)" following NAN. *)
Definition nan_payload_end (s : list ascii) : list ascii :=
  match s with
  | c :: t =>
      if (code c =? 40)%N then
        match skip (fun x => isdigit x || isalpha x || (code x =? 95)%N) t with
        | d :: u => if (code d =? 41)%N then u else s
        | [] => s
        end
      else s
  | [] => s
  end.

(** Where [strtod] leaves its end pointer (ISO C 7.22.1.3): the longest
    prefix that is white space, an optional sign and then a decimal
    number, a hexadecimal number, INF, INFINITY or NAN; the start of the
    string when there is none. *)
Definition strtod_end (nptr : list ascii) : list ascii :=
  let s0 := skip isspace nptr in
  let s := match s0 with
           | c :: t => if is_sign c then t else s0
           | [] => s0
           end in
  let hex := match s with
             | z :: x :: t =>
                 if (code z =? 48)%N && (code (tolower x) =? 120)%N
                 then option_map (exponent_end "p"%char) (mantissa_end isxdigit t)
                 else None
             | _ => None
             end in
  match hex with
  | Some r => r
  | None =>
      match mantissa_end isdigit s with
      | Some r => exponent_end "e"%char r
      | None =>
          match match_word (list_ascii_of_string "infinity") s with
          | Some r => r
          | None =>
              match match_word (list_ascii_of_string "inf") s with
              | Some r => r
              | None =>
                  match match_word (list_ascii_of_string "nan") s with
                  | Some r => nan_payload_end r
                  | None => nptr
                  end
              end
          end
      end
  end.

(** The tokens that [strtok(s, delim)] and the calls [strtok(NULL, delim)]
    after it return, for a one-character delimiter: the maximal runs of
    other characters, in order.  Empty runs are never returned.  [cur] is
    the run being read, last character first. *)
Fixpoint strtok_all (delim : ascii) (cur : list ascii) (s : list ascii)
  : list (list ascii) :=
  match s with
  | [] => match cur with [] => [] | _ => [rev cur] end
  | c :: t =>
      if (code c =? code delim)%N
      then match cur with
           | [] => strtok_all delim [] t
           | _ => rev cur :: strtok_all delim [] t
           end
      else strtok_all delim (c :: cur) t
  end.

(** [strlcpy(dst, src, size)]: the string left in [dst]. *)
Definition strlcpy (dst src : list ascii) (size : nat) : list ascii :=
  match size with
  | O => dst
  | S n => take n src
  end.

(** [strcmp(a, b) == 0] *)
Definition streq (a b : list ascii) : bool := bool_decide (a = b).

(** [strcasecmp(a, b) == 0] *)
Definition strcaseeq (a b : list ascii) : bool :=
  bool_decide (map tolower a = map tolower b).

End Libc.

Definition chars (s : string) : list ascii := list_ascii_of_string s.

(** ** Constants of the file *)

Definition MAX_NUM_PAGES : Z := 2000.

(** ** [_isNumeric] *)

Definition _isNumeric (s : option (list ascii)) : bool :=
  match s with
  | None => false
  | Some [] => false
  | Some (c :: t) =>
      if Libc.isspace c then false
      else match Libc.strtod_end (c :: t) with
           | [] => true
           | _ :: _ => false
           end
  end.

(** ** [_order_pdf_pages] *)

(** The two token arrays [char num_begin_ary[5]], [char num_end_ary[5]] and
    the scanning variables. *)
Record scan_state : Type := mk_scan {
  num_begin_ary : list ascii;
  num_end_ary : list ascii;
  num_counter : nat;
  dash_encountered : bool
}.

Definition NUL : ascii := zero.

(** After the initialisers and the two [memset(.., 0, 5)]. *)
Definition scan_init : scan_state :=
  mk_scan (replicate 5 NUL) (replicate 5 NUL) 0 false.

(** [buf[i] = c] on a [char] array. *)
Definition store_char (buf : list ascii) (i : nat) (c : ascii)
  : result (list ascii) :=
  if decide (i < length buf)%nat then Done (<[i := c]> buf)
  else Undefined TokenBufferOverrun.

(** One iteration of the scanning [for] loop, on the character
    [page_range_split[range_count]]. *)
Definition scan_char (st : scan_state) (c : ascii) : result scan_state :=
  if Libc.isspace c then Done st
  else if (Libc.code c =? 45)%N then
    Done (mk_scan (num_begin_ary st) (num_end_ary st) 0 true)
  else if negb (dash_encountered st) then
    buf <~ store_char (num_begin_ary st) (num_counter st) c ;;
    Done (mk_scan buf (num_end_ary st) (S (num_counter st)) (dash_encountered st))
  else
    buf <~ store_char (num_end_ary st) (num_counter st) c ;;
    Done (mk_scan (num_begin_ary st) buf (S (num_counter st)) (dash_encountered st)).

Fixpoint scan_loop (st : scan_state) (page_range_split : list ascii)
  : result scan_state :=
  match page_range_split with
  | [] => Done st
  | c :: rest => st' <~ scan_char st c ;; scan_loop st' rest
  end.

(** The fix-up after the loop: [if (!dash_encountered) num_end_ary[0] = '0']. *)
Definition fill_end (st : scan_state) : scan_state :=
  if negb (dash_encountered st)
  then mk_scan (num_begin_ary st) (<[0%nat := "0"%char]> (num_end_ary st))
               (num_counter st) (dash_encountered st)
  else st.

(** Reading a [char] array as a C string: the characters before the first
    NUL of the array. *)
Fixpoint c_string (buf : list ascii) : result (list ascii) :=
  match buf with
  | [] => Undefined TokenNotTerminated
  | c :: t =>
      if (Libc.code c =? 0)%N then Done []
      else s <~ c_string t ;; Done (c :: s)
  end.

(** [pages_ary[i] = v] on the [int] array of one document. *)
Definition store_int (pages_ary : list Z) (i : Z) (v : Z) : result (list Z) :=
  if decide (0 <= i < Z.of_nat (length pages_ary))
  then Done (<[Z.to_nat i := v]> pages_ary)
  else Undefined PagesArrayOverrun.

(** The ascending loop.  With [idx] for the cell [num_index] points to:
    [for (count = idx; count <= idx + num_end - num_begin; count++)
       { pages_ary[count] = num_begin++; idx += 1; }] *)
Equations? store_ascending (num_end : Z) (pages_ary : list Z)
    (num_index num_begin count : Z) : result (list Z * Z)
  by wf (Z.to_nat (num_index + num_end - num_begin - count + 1)) lt :=
  store_ascending num_end pages_ary num_index num_begin count with
      decide (count <= num_index + num_end - num_begin) := {
    | left _ with store_int pages_ary count num_begin := {
        | Done pages' :=
            store_ascending num_end pages' (num_index + 1) (num_begin + 1) (count + 1)
        | Undefined u := Undefined u };
    | right _ := Done (pages_ary, num_index) }.
Proof. lia. Qed.

(** The descending loop:
    [for (count = idx; count <= idx + num_begin - num_end; count++)
       { pages_ary[count] = num_begin--; idx += 1; }] *)
Equations? store_descending (num_end : Z) (pages_ary : list Z)
    (num_index num_begin count : Z) : result (list Z * Z)
  by wf (Z.to_nat (num_index + num_begin - num_end - count + 1)) lt :=
  store_descending num_end pages_ary num_index num_begin count with
      decide (count <= num_index + num_begin - num_end) := {
    | left _ with store_int pages_ary count num_begin := {
        | Done pages' :=
            store_descending num_end pages' (num_index + 1) (num_begin - 1) (count + 1)
        | Undefined u := Undefined u };
    | right _ := Done (pages_ary, num_index) }.
Proof. lia. Qed.

(** The [else] branch of the numeric test:
    [LOGE("... first num=%s, second num=%s", num_begin_ary, num_end_ary)]
    reads both token arrays as strings. *)
Definition log_not_numeric (st : scan_state) : result (option (Z * Z)) :=
  sb <~ c_string (num_begin_ary st) ;;
  se <~ c_string (num_end_ary st) ;;
  Done None.

(** After the scan: the numeric test on both tokens and the conversions.
    [None] when a token is not numeric, otherwise [num_begin] and
    [num_end], the latter replaced by [num_begin] when it is 0. *)
Definition token_numbers (st : scan_state) : result (option (Z * Z)) :=
  sb <~ c_string (num_begin_ary st) ;;
  if negb (_isNumeric (Some sb)) then log_not_numeric st
  else
    se <~ c_string (num_end_ary st) ;;
    if negb (_isNumeric (Some se)) then log_not_numeric st
    else
      let num_begin := Libc.atoi sb in
      let num_end := Libc.atoi se in
      let num_end := if num_end =? 0 then num_begin else num_end in
      Done (Some (num_begin, num_end)).

(** The range checks and the two storing loops.  Returns [succeeded], the
    array and the cell [num_index] points to. *)
Definition store_range (num_pages : Z) (pages_ary : list Z) (num_index : Z)
    (num_begin num_end : Z) : result (bool * list Z * Z) :=
  if (0 <? num_begin) && (0 <? num_end) then
    if (num_begin <=? num_pages) && (num_end <=? num_pages) then
      if num_begin <=? num_end then
        let num_end := if num_pages <? num_end then num_pages else num_end in
        r <~ store_ascending num_end pages_ary num_index num_begin num_index ;;
        Done (true, r.1, r.2)
      else
        let num_begin := if num_pages <? num_begin then num_pages else num_begin in
        r <~ store_descending num_end pages_ary num_index num_begin num_index ;;
        Done (true, r.1, r.2)
    else Done (false, pages_ary, num_index)
  else Done (false, pages_ary, num_index).

(** The numbers a segment is read as: the scan, the fix-up of the end
    token and the conversions. *)
Definition parse_segment (page_range_split : list ascii)
  : result (option (Z * Z)) :=
  st <~ scan_loop scan_init page_range_split ;;
  token_numbers (fill_end st).

Definition _order_pdf_pages (num_pages : Z) (pages_ary : list Z)
    (num_index : Z) (page_range_split : list ascii)
  : result (bool * list Z * Z) :=
  numbers <~ parse_segment page_range_split ;;
  match numbers with
  | Some (num_begin, num_end) =>
      store_range num_pages pages_ary num_index num_begin num_end
  | None => Done (false, pages_ary, num_index)
  end.

(** The two tokens as the conversions read them, for a segment. *)
Definition begin_token (page_range_split : list ascii) : result (list ascii) :=
  st <~ scan_loop scan_init page_range_split ;;
  c_string (num_begin_ary (fill_end st)).

Definition end_token (page_range_split : list ascii) : result (list ascii) :=
  st <~ scan_loop scan_init page_range_split ;;
  c_string (num_end_ary (fill_end st)).

(** The pages a document resolves to: the first [num_index] cells. *)
Definition resolved (pages_ary : list Z) (num_index : Z) : list Z :=
  take (Z.to_nat num_index) pages_ary.


(** ** Runs of pages, as the specification words them *)

(** [n] pages counting up from [b], and counting down from [b]. *)
Fixpoint run_up (b : Z) (n : nat) : list Z :=
  match n with
  | O => []
  | S k => b :: run_up (b + 1) k
  end.

Fixpoint run_down (b : Z) (n : nat) : list Z :=
  match n with
  | O => []
  | S k => b :: run_down (b - 1) k
  end.

(** begin, begin+1, ..., end when end >= begin; begin, begin-1, ..., end
    otherwise. *)
Definition page_run (b e : Z) : list Z :=
  if b <=? e then run_up b (Z.to_nat (e - b + 1))
  else run_down b (Z.to_nat (b - e + 1)).

(** The array after [run] was stored from cell [i] on. *)
Definition written {A : Type} (pages : list A) (i : nat) (run : list A) : list A :=
  take i pages ++ run ++ drop (i + length run) pages.

(** A character that the scan stores in a token: not white space, not the
    dash, and not the terminator. *)
Definition token_char (c : ascii) : bool :=
  negb (Libc.isspace c) && negb (Libc.code c =? 45)%N && negb (Libc.code c =? 0)%N.

(** ** [_get_pdf_page_range] *)

(** [snprintf(buf, MAX_NUM_PAGES, "1-%d", num_pages)]: the string left in
    [buf]. *)
Definition full_range (num_pages : Z) : list ascii :=
  take (Z.to_nat (MAX_NUM_PAGES - 1)) (chars "1-" ++ chars (pretty num_pages)).

(** [memset(pages_ary, 0, MAX_NUM_PAGES)] on an array of 4-byte [int]:
    the first [MAX_NUM_PAGES] bytes, that is [MAX_NUM_PAGES / 4] cells,
    whatever the size of the array. *)
Definition memset_pages (pages_ary : list Z) : result (list Z) :=
  let cells := Z.to_nat (MAX_NUM_PAGES / 4) in
  if decide (cells <= length pages_ary)%nat
  then Done (replicate cells 0 ++ drop cells pages_ary)
  else Undefined PagesArrayOverrun.

(** The [while (page_range_split != NULL)] loop over the tokens [strtok]
    returns.  A failing token re-runs the parser on "1-N", at the index
    the earlier tokens left, and ends the loop. *)
Fixpoint range_loop (num_pages : Z) (pages_ary : list Z) (num_index : Z)
    (page_range_str : list ascii) (tokens : list (list ascii))
  : result (list Z * Z * list ascii) :=
  match tokens with
  | [] => Done (pages_ary, num_index, page_range_str)
  | page_range_split :: rest =>
      r <~ _order_pdf_pages num_pages pages_ary num_index page_range_split ;;
      if r.1.1 then range_loop num_pages r.1.2 r.2 page_range_str rest
      else
        let page_range_str := full_range num_pages in
        r' <~ _order_pdf_pages num_pages r.1.2 r.2 page_range_str ;;
        Done (r'.1.2, r'.2, page_range_str)
  end.

(** [pageRangeObject] is the Java field [page_range] ([None] for a null
    reference), with its characters taken to be ASCII so that
    [GetStringLength] and the UTF-8 byte count agree.  The result is the
    array, [*num_index] and the display string [page_range_str]. *)
Definition copied_page_range (pageRangeObject : option (list ascii))
  : option (list ascii) :=
  match pageRangeObject with
  | Some pageRange => if Libc.streq pageRange [] then None else Some pageRange
  | None => None
  end.

(** The local [page_range], the string that is handed to [strtok]: the
    copy of the requested expression, or "1-N" when none was requested.
    It is not the string the resolver reports in [page_range_str], which
    the fallback rewrites. *)
Definition requested_page_range (pageRangeObject : option (list ascii))
    (num_pages : Z) : list ascii :=
  match copied_page_range pageRangeObject with
  | None => full_range num_pages
  | Some r => r
  end.

(** [strncpy(page_range_str, page_range, MAX_NUM_PAGES)] into the
    caller's cleared array of [MAX_NUM_PAGES] characters, and the
    [LOGD("... range: %s ...", page_range_str)] after it: a copy of
    [MAX_NUM_PAGES] characters or more leaves the array without
    terminator. *)
Definition copy_page_range_str (page_range : list ascii) : result (list ascii) :=
  if decide (length page_range < Z.to_nat MAX_NUM_PAGES)%nat
  then Done page_range
  else Undefined RangeNotTerminated.

Definition _get_pdf_page_range (pageRangeObject : option (list ascii))
    (pages_ary : list Z) (num_pages : Z) (num_index : Z)
  : result (list Z * Z * list ascii) :=
  page_range_str <~
    match copied_page_range pageRangeObject with
    | None => Done (full_range num_pages)
    | Some r => copy_page_range_str r
    end ;;
  let page_range := requested_page_range pageRangeObject num_pages in
  pages_ary <~ memset_pages pages_ary ;;
  range_loop num_pages pages_ary num_index page_range_str
             (Libc.strtok_all ","%char [] page_range).

(** ** Checks used to state facts about the resolver *)

(** A character the scan stores in a token array: neither white space
    nor the dash. *)
Definition stored_char (c : ascii) : bool :=
  negb (Libc.isspace c) && negb (Libc.code c =? 45)%N.

(** "1-n" is one [strtok] token and is read back as the numbers 1 and n. *)
Definition full_range_ok (n : nat) : bool :=
  bool_decide (Libc.strtok_all ","%char [] (full_range (Z.of_nat n))
               = [full_range (Z.of_nat n)]) &&
  match parse_segment (full_range (Z.of_nat n)) with
  | Done (Some (b, e)) => (b =? 1) && (e =? Z.of_nat n)
  | _ => false
  end.

(** The segments [tokens] are read as the pairs [bounds], all of them
    inside 1..N. *)
Definition valid_segments (N : Z) (tokens : list (list ascii))
    (bounds : list (Z * Z)) : Prop :=
  Forall2 (fun tok be => parse_segment tok = Done (Some be) /\
                         1 <= be.1 <= N /\ 1 <= be.2 <= N)
          tokens bounds.

(** The runs of the pairs [bounds], one after the other. *)
Definition segment_runs (bounds : list (Z * Z)) : list Z :=
  flat_map (fun be => page_run be.1 be.2) bounds.

(** ** Records of lib_wprint.h, with the fields the modelled code uses *)

Record printer_capabilities_t : Type := mk_caps {
  faceDownTray : bool;
  print_scalings_supported : list (list ascii);
  print_scaling_default : list ascii
}.

Record wprint_job_params_t : Type := mk_params {
  duplex : Z;
  docCategory : list ascii;
  print_scaling : list ascii;
  job_pages_per_set : Z
}.

(** ** The print service seen from this file *)

Inductive wprint_call : Type :=
| wprintStartJob (params : wprint_job_params_t) (caps : printer_capabilities_t)
| wprintPage (job_handle page_num : Z) (filename : option (list ascii))
             (last_page pdf_page : bool)
| wprintCancelJob (job_handle : Z)
| wprintEndJob (job_handle : Z).

Definition trace : Type := list wprint_call.

(** The end-of-job marker: no file name and [last_page] set. *)
Definition is_marker (c : wprint_call) : bool :=
  match c with
  | wprintPage _ _ None true _ => true
  | _ => false
  end.

(** [pages_ary[i]] as an rvalue. *)
Definition read_int (pages_ary : list Z) (i : Z) : result Z :=
  if decide (0 <= i) then
    match pages_ary !! Z.to_nat i with
    | Some v => Done v
    | None => Undefined PagesArrayOverrun
    end
  else Undefined PagesArrayOverrun.

(** The Java [String[]] handed to the job: [None] is an element whose
    [GetStringUTFChars] gives NULL.  The loops only read the indexes
    0 .. len-1. *)
Definition array_get (array : list (option (list ascii))) (index : Z)
  : option (list ascii) :=
  if decide (0 <= index) then mjoin (array !! Z.to_nat index) else None.

Inductive jstring : Type :=
| EMPTY_STRING | JOB_STATE_QUEUED | JOB_STATE_RUNNING | JOB_STATE_BLOCKED
| JOB_STATE_DONE | JOB_STATE_OTHER | JOB_DONE_OK | JOB_DONE_ERROR
| JOB_DONE_CANCELLED | JOB_DONE_CORRUPT | JOB_DONE_BAD_CERTIFICATE
| JOB_DONE_OTHER | BLOCKED_REASON__OFFLINE | BLOCKED_REASON__BUSY
| BLOCKED_REASON__CANCELLED | BLOCKED_REASON__OUT_OF_PAPER
| BLOCKED_REASON__OUT_OF_INK | BLOCKED_REASON__OUT_OF_TONER
| BLOCKED_REASON__JAMMED | BLOCKED_REASON__DOOR_OPEN
| BLOCKED_REASON__SERVICE_REQUEST | BLOCKED_REASON__PAUSED
| BLOCKED_REASON__STOPPED | BLOCKED_REASON__LOW_ON_INK
| BLOCKED_REASON__LOW_ON_TONER
| BLOCKED_REASON__INPUT_CANNOT_FEED_SIZE_SELECTED
| BLOCKED_REASON__INTERLOCK_ERROR | BLOCKED_REASON__OUTPUT_TRAY_MISSING
| BLOCKED_REASON__BANDER_ERROR | BLOCKED_REASON__BINDER_ERROR
| BLOCKED_REASON__POWER_ERROR | BLOCKED_REASON__CLEANER_ERROR
| BLOCKED_REASON__INPUT_TRAY_ERROR | BLOCKED_REASON__INSERTER_ERROR
| BLOCKED_REASON__INTERPRETER_ERROR | BLOCKED_REASON__MAKE_ENVELOPE_ERROR
| BLOCKED_REASON__MARKER_ERROR | BLOCKED_REASON__MEDIA_ERROR
| BLOCKED_REASON__PERFORATER_ERROR | BLOCKED_REASON__PUNCHER_ERROR
| BLOCKED_REASON__SEPARATION_CUTTER_ERROR
| BLOCKED_REASON__SHEET_ROTATOR_ERROR | BLOCKED_REASON__SLITTER_ERROR
| BLOCKED_REASON__STACKER_ERROR | BLOCKED_REASON__STAPLER_ERROR
| BLOCKED_REASON__STITCHER_ERROR | BLOCKED_REASON__SUBUNIT_ERROR
| BLOCKED_REASON__TRIMMER_ERROR | BLOCKED_REASON__WRAPPER_ERROR
| BLOCKED_REASON__CLIENT_ERROR | BLOCKED_REASON__SERVER_ERROR
| BLOCKED_REASON__ALERT_REMOVAL_OF_BINARY_CHANGE_ENTRY
| BLOCKED_REASON__CONFIGURATION_CHANGED
| BLOCKED_REASON__CONNECTING_TO_DEVICE | BLOCKED_REASON__DEVELOPER_ERROR
| BLOCKED_REASON__HOLD_NEW_JOBS | BLOCKED_REASON__OPC_LIFE_OVER
| BLOCKED_REASON__SPOOL_AREA_FULL | BLOCKED_REASON__TIMED_OUT
| BLOCKED_REASON__SHUTDOWN | BLOCKED_REASON__PRINTER_MANUAL_RESET
| BLOCKED_REASON__PRINTER_NMS_RESET | JOB_FAIL_REASON__ABORTED_BY_SYSTEM
| JOB_FAIL_REASON__UNSUPPORTED_COMPRESSION
| JOB_FAIL_REASON__COMPRESSION_ERROR
| JOB_FAIL_REASON__UNSUPPORTED_DOCUMENT_FORMAT
| JOB_FAIL_REASON__DOCUMENT_FORMAT_ERROR | JOB_FAIL_REASON__SERVICE_OFFLINE
| JOB_FAIL_REASON__DOCUMENT_PASSWORD_ERROR
| JOB_FAIL_REASON__DOCUMENT_PERMISSION_ERROR
| JOB_FAIL_REASON__DOCUMENT_SECURITY_ERROR
| JOB_FAIL_REASON__DOCUMENT_UNPRINTABLE_ERROR
| JOB_FAIL_REASON__DOCUMENT_ACCESS_ERROR
| JOB_FAIL_REASON__SUBMISSION_INTERRUPTED | JOB_DONE_AUTHORIZATION_FAILED
| JOB_DONE_ACCOUNT_CLOSED | JOB_DONE_ACCOUNT_INFO_NEEDED
| JOB_DONE_ACCOUNT_LIMIT_REACHED.

Inductive blocked_reason_macro : Type :=
| BLOCKED_REASON_UNABLE_TO_CONNECT | BLOCKED_REASON_BUSY
| BLOCKED_REASONS_CANCELLED | BLOCKED_REASON_OUT_OF_PAPER
| BLOCKED_REASON_OUT_OF_INK | BLOCKED_REASON_OUT_OF_TONER
| BLOCKED_REASON_JAMMED | BLOCKED_REASON_DOOR_OPEN
| BLOCKED_REASON_SVC_REQUEST | BLOCKED_REASON_PAUSED | BLOCKED_REASON_STOPPED
| BLOCKED_REASON_LOW_ON_INK | BLOCKED_REASON_LOW_ON_TONER
| BLOCKED_REASON_INPUT_CANNOT_FEED_SIZE_SELECTED
| BLOCKED_REASON_INTERLOCK_ERROR | BLOCKED_REASON_OUTPUT_TRAY_MISSING
| BLOCKED_REASON_BANDER_ERROR | BLOCKED_REASON_BINDER_ERROR
| BLOCKED_REASON_POWER_ERROR | BLOCKED_REASON_CLEANER_ERROR
| BLOCKED_REASON_INPUT_TRAY_ERROR | BLOCKED_REASON_INSERTER_ERROR
| BLOCKED_REASON_INTERPRETER_ERROR | BLOCKED_REASON_MAKE_ENVELOPE_ERROR
| BLOCKED_REASON_MARKER_ERROR | BLOCKED_REASON_MEDIA_ERROR
| BLOCKED_REASON_PERFORATER_ERROR | BLOCKED_REASON_PUNCHER_ERROR
| BLOCKED_REASON_SEPARATION_CUTTER_ERROR | BLOCKED_REASON_SHEET_ROTATOR_ERROR
| BLOCKED_REASON_SLITTER_ERROR | BLOCKED_REASON_STACKER_ERROR
| BLOCKED_REASON_STAPLER_ERROR | BLOCKED_REASON_STITCHER_ERROR
| BLOCKED_REASON_SUBUNIT_ERROR | BLOCKED_REASON_TRIMMER_ERROR
| BLOCKED_REASON_WRAPPER_ERROR | BLOCKED_REASON_CLIENT_ERROR
| BLOCKED_REASON_SERVER_ERROR
| BLOCKED_REASON_ALERT_REMOVAL_OF_BINARY_CHANGE_ENTRY
| BLOCKED_REASON_CONFIGURATION_CHANGED | BLOCKED_REASON_CONNECTING_TO_DEVICE
| BLOCKED_REASON_DEVELOPER_ERROR | BLOCKED_REASON_HOLD_NEW_JOBS
| BLOCKED_REASON_OPC_LIFE_OVER | BLOCKED_REASON_SPOOL_AREA_FULL
| BLOCKED_REASON_TIMED_OUT | BLOCKED_REASON_SHUTDOWN
| BLOCKED_REASON_PRINTER_MANUAL_RESET | BLOCKED_REASON_PRINTER_NMS_RESET.

Inductive job_fail_reason_macro : Type :=
| JOB_FAIL_REASON_UNABLE_TO_CONNECT | JOB_FAIL_REASON_ABORTED_BY_SYSTEM
| JOB_FAIL_REASON_UNSUPPORTED_COMPRESSION | JOB_FAIL_REASON_COMPRESSION_ERROR
| JOB_FAIL_REASON_UNSUPPORTED_DOCUMENT_FORMAT
| JOB_FAIL_REASON_DOCUMENT_FORMAT_ERROR | JOB_FAIL_REASON_SERVICE_OFFLINE
| JOB_FAIL_REASON_DOCUMENT_PASSWORD_ERROR
| JOB_FAIL_REASON_DOCUMENT_PERMISSION_ERROR
| JOB_FAIL_REASON_DOCUMENT_SECURITY_ERROR
| JOB_FAIL_REASON_DOCUMENT_UNPRINTABLE_ERROR
| JOB_FAIL_REASON_DOCUMENT_ACCESS_ERROR
| JOB_FAIL_REASON_SUBMISSION_INTERRUPTED
| JOB_FAIL_REASON_AUTHORIZATION_FAILED | JOB_FAIL_REASON_ACCOUNT_CLOSED
| JOB_FAIL_REASON_ACCOUNT_INFO_NEEDED | JOB_FAIL_REASON_ACCOUNT_LIMIT_REACHED.

Definition block_status_chain : list (blocked_reason_macro * jstring) :=
  [ (BLOCKED_REASON_UNABLE_TO_CONNECT, BLOCKED_REASON__OFFLINE);
    (BLOCKED_REASON_BUSY, BLOCKED_REASON__BUSY);
    (BLOCKED_REASONS_CANCELLED, BLOCKED_REASON__CANCELLED);
    (BLOCKED_REASON_OUT_OF_PAPER, BLOCKED_REASON__OUT_OF_PAPER);
    (BLOCKED_REASON_OUT_OF_INK, BLOCKED_REASON__OUT_OF_INK);
    (BLOCKED_REASON_OUT_OF_TONER, BLOCKED_REASON__OUT_OF_TONER);
    (BLOCKED_REASON_JAMMED, BLOCKED_REASON__JAMMED);
    (BLOCKED_REASON_DOOR_OPEN, BLOCKED_REASON__DOOR_OPEN);
    (BLOCKED_REASON_SVC_REQUEST, BLOCKED_REASON__SERVICE_REQUEST);
    (BLOCKED_REASON_PAUSED, BLOCKED_REASON__PAUSED);
    (BLOCKED_REASON_STOPPED, BLOCKED_REASON__STOPPED);
    (BLOCKED_REASON_LOW_ON_INK, BLOCKED_REASON__LOW_ON_INK);
    (BLOCKED_REASON_LOW_ON_TONER, BLOCKED_REASON__LOW_ON_TONER);
    (BLOCKED_REASON_INPUT_CANNOT_FEED_SIZE_SELECTED, BLOCKED_REASON__INPUT_CANNOT_FEED_SIZE_SELECTED);
    (BLOCKED_REASON_INTERLOCK_ERROR, BLOCKED_REASON__INTERLOCK_ERROR);
    (BLOCKED_REASON_OUTPUT_TRAY_MISSING, BLOCKED_REASON__OUTPUT_TRAY_MISSING);
    (BLOCKED_REASON_BANDER_ERROR, BLOCKED_REASON__BANDER_ERROR);
    (BLOCKED_REASON_BINDER_ERROR, BLOCKED_REASON__BINDER_ERROR);
    (BLOCKED_REASON_POWER_ERROR, BLOCKED_REASON__POWER_ERROR);
    (BLOCKED_REASON_CLEANER_ERROR, BLOCKED_REASON__CLEANER_ERROR);
    (BLOCKED_REASON_INPUT_TRAY_ERROR, BLOCKED_REASON__INPUT_TRAY_ERROR);
    (BLOCKED_REASON_INSERTER_ERROR, BLOCKED_REASON__INSERTER_ERROR);
    (BLOCKED_REASON_INTERPRETER_ERROR, BLOCKED_REASON__INTERPRETER_ERROR);
    (BLOCKED_REASON_MAKE_ENVELOPE_ERROR, BLOCKED_REASON__MAKE_ENVELOPE_ERROR);
    (BLOCKED_REASON_MARKER_ERROR, BLOCKED_REASON__MARKER_ERROR);
    (BLOCKED_REASON_MEDIA_ERROR, BLOCKED_REASON__MEDIA_ERROR);
    (BLOCKED_REASON_PERFORATER_ERROR, BLOCKED_REASON__PERFORATER_ERROR);
    (BLOCKED_REASON_PUNCHER_ERROR, BLOCKED_REASON__PUNCHER_ERROR);
    (BLOCKED_REASON_SEPARATION_CUTTER_ERROR, BLOCKED_REASON__SEPARATION_CUTTER_ERROR);
    (BLOCKED_REASON_SHEET_ROTATOR_ERROR, BLOCKED_REASON__SHEET_ROTATOR_ERROR);
    (BLOCKED_REASON_SLITTER_ERROR, BLOCKED_REASON__SLITTER_ERROR);
    (BLOCKED_REASON_STACKER_ERROR, BLOCKED_REASON__STACKER_ERROR);
    (BLOCKED_REASON_STAPLER_ERROR, BLOCKED_REASON__STAPLER_ERROR);
    (BLOCKED_REASON_STITCHER_ERROR, BLOCKED_REASON__STITCHER_ERROR);
    (BLOCKED_REASON_SUBUNIT_ERROR, BLOCKED_REASON__SUBUNIT_ERROR);
    (BLOCKED_REASON_TRIMMER_ERROR, BLOCKED_REASON__TRIMMER_ERROR);
    (BLOCKED_REASON_WRAPPER_ERROR, BLOCKED_REASON__WRAPPER_ERROR);
    (BLOCKED_REASON_CLIENT_ERROR, BLOCKED_REASON__CLIENT_ERROR);
    (BLOCKED_REASON_SERVER_ERROR, BLOCKED_REASON__SERVER_ERROR);
    (BLOCKED_REASON_ALERT_REMOVAL_OF_BINARY_CHANGE_ENTRY, BLOCKED_REASON__ALERT_REMOVAL_OF_BINARY_CHANGE_ENTRY);
    (BLOCKED_REASON_CONFIGURATION_CHANGED, BLOCKED_REASON__CONFIGURATION_CHANGED);
    (BLOCKED_REASON_CONNECTING_TO_DEVICE, BLOCKED_REASON__CONNECTING_TO_DEVICE);
    (BLOCKED_REASON_DEVELOPER_ERROR, BLOCKED_REASON__DEVELOPER_ERROR);
    (BLOCKED_REASON_HOLD_NEW_JOBS, BLOCKED_REASON__HOLD_NEW_JOBS);
    (BLOCKED_REASON_OPC_LIFE_OVER, BLOCKED_REASON__OPC_LIFE_OVER);
    (BLOCKED_REASON_SPOOL_AREA_FULL, BLOCKED_REASON__SPOOL_AREA_FULL);
    (BLOCKED_REASON_TIMED_OUT, BLOCKED_REASON__TIMED_OUT);
    (BLOCKED_REASON_SHUTDOWN, BLOCKED_REASON__SHUTDOWN);
    (BLOCKED_REASON_PRINTER_MANUAL_RESET, BLOCKED_REASON__PRINTER_MANUAL_RESET);
    (BLOCKED_REASON_PRINTER_NMS_RESET, BLOCKED_REASON__PRINTER_NMS_RESET) ].

Definition fail_reasons_chain : list (job_fail_reason_macro * jstring) :=
  [ (JOB_FAIL_REASON_UNABLE_TO_CONNECT, BLOCKED_REASON__OFFLINE);
    (JOB_FAIL_REASON_ABORTED_BY_SYSTEM, JOB_FAIL_REASON__ABORTED_BY_SYSTEM);
    (JOB_FAIL_REASON_UNSUPPORTED_COMPRESSION, JOB_FAIL_REASON__UNSUPPORTED_COMPRESSION);
    (JOB_FAIL_REASON_COMPRESSION_ERROR, JOB_FAIL_REASON__COMPRESSION_ERROR);
    (JOB_FAIL_REASON_UNSUPPORTED_DOCUMENT_FORMAT, JOB_FAIL_REASON__UNSUPPORTED_DOCUMENT_FORMAT);
    (JOB_FAIL_REASON_DOCUMENT_FORMAT_ERROR, JOB_FAIL_REASON__DOCUMENT_FORMAT_ERROR);
    (JOB_FAIL_REASON_SERVICE_OFFLINE, JOB_FAIL_REASON__SERVICE_OFFLINE);
    (JOB_FAIL_REASON_DOCUMENT_PASSWORD_ERROR, JOB_FAIL_REASON__DOCUMENT_PASSWORD_ERROR);
    (JOB_FAIL_REASON_DOCUMENT_PERMISSION_ERROR, JOB_FAIL_REASON__DOCUMENT_PERMISSION_ERROR);
    (JOB_FAIL_REASON_DOCUMENT_SECURITY_ERROR, JOB_FAIL_REASON__DOCUMENT_SECURITY_ERROR);
    (JOB_FAIL_REASON_DOCUMENT_UNPRINTABLE_ERROR, JOB_FAIL_REASON__DOCUMENT_UNPRINTABLE_ERROR);
    (JOB_FAIL_REASON_DOCUMENT_ACCESS_ERROR, JOB_FAIL_REASON__DOCUMENT_ACCESS_ERROR);
    (JOB_FAIL_REASON_SUBMISSION_INTERRUPTED, JOB_FAIL_REASON__SUBMISSION_INTERRUPTED);
    (JOB_FAIL_REASON_AUTHORIZATION_FAILED, JOB_DONE_AUTHORIZATION_FAILED);
    (JOB_FAIL_REASON_ACCOUNT_CLOSED, JOB_DONE_ACCOUNT_CLOSED);
    (JOB_FAIL_REASON_ACCOUNT_INFO_NEEDED, JOB_DONE_ACCOUNT_INFO_NEEDED);
    (JOB_FAIL_REASON_ACCOUNT_LIMIT_REACHED, JOB_DONE_ACCOUNT_LIMIT_REACHED) ].

(** ** The functions that depend on lib_wprint.h *)

Section Wprint.

Set Default Proof Using "Type".

(** Macros and enumerators of lib_wprint.h and wprint_status_types.h,
    which this file includes; their values are not fixed here. *)
Variables OK ERROR CANCELLED CORRUPT BAD_CERTIFICATE : Z.
Variables JOB_QUEUED JOB_RUNNING JOB_BLOCKED JOB_DONE : Z.
Variable DUPLEX_MODE_NONE : Z.
Variables MIME_TYPE_PDF PRINT_FORMAT_PDF : list ascii.
Variable MAX_PRINT_SCALING_LENGTH : nat.
Variable sizeof_print_scaling_default : nat.  (* sizeof(caps.print_scaling_default) *)
Variable sizeof_print_scaling : nat.          (* sizeof(params.print_scaling) *)
Variables IPP_JOB_STATE_REASON_MAX_VALUE PRINT_STATUS_MAX_STATE : Z.
Variable blocked_mask : blocked_reason_macro -> Z.
Variable fail_mask : job_fail_reason_macro -> Z.

(** Collaborators: the print service answers a call given the calls made
    before it; the PDF renderer gives a page count for a path; [stack]
    is what the uninitialised local arrays of [nativeStartJob] hold. *)
Variable service : trace -> wprint_call -> Z.
Variable openDocument : list ascii -> Z.
Variable stack : nat -> Z.

Definition call (c : wprint_call) (w : trace) : Z * trace :=
  (service w c, w ++ [c]).

Definition _is_pdf_doc (mime_type pathname : option (list ascii)) : bool :=
  match mime_type, pathname with
  | Some m, Some _ => Libc.streq m MIME_TYPE_PDF
  | _, _ => false
  end.

(** Returns the flag and [*page_count]. *)
Definition _get_pdf_page_count (mime_type : option (list ascii))
    (pathname : list ascii) : bool * Z :=
  if negb (_is_pdf_doc mime_type (Some pathname)) then (false, 0)
  else
    let page_count := openDocument pathname in
    (true, if page_count <? 0 then 0 else page_count).

(** *** [_print_pdf_pages] *)

(** [while (page_index < num_pages)], pages face down. *)
Equations? print_forward (job_handle : Z) (pathname : list ascii)
    (num_pages : Z) (pages_ary : list Z) (page_index : Z) (res : Z)
    (w : trace) : result (Z * trace)
  by wf (Z.to_nat (num_pages - page_index)) lt :=
  print_forward job_handle pathname num_pages pages_ary page_index res w with
      decide (page_index < num_pages) := {
    | left _ with read_int pages_ary page_index := {
        | Done page with call (wprintPage job_handle page (Some pathname)
                                          false true) w := {
            | (res', w') with decide (res' = OK) := {
                | left _ := print_forward job_handle pathname num_pages
                                          pages_ary (page_index + 1) res' w'
                | right _ := Done (res', w') } }
        | Undefined u := Undefined u };
    | right _ := Done (res, w) }.
Proof. lia. Qed.

(** [while (page_index >= 0)], pages face up. *)
Equations? print_backward (job_handle : Z) (pathname : list ascii)
    (pages_ary : list Z) (page_index : Z) (res : Z)
    (w : trace) : result (Z * trace)
  by wf (Z.to_nat (page_index + 1)) lt :=
  print_backward job_handle pathname pages_ary page_index res w with
      decide (0 <= page_index) := {
    | left _ with read_int pages_ary page_index := {
        | Done page with call (wprintPage job_handle page (Some pathname)
                                          false true) w := {
            | (res', w') with decide (res' = OK) := {
                | left _ := print_backward job_handle pathname
                                           pages_ary (page_index - 1) res' w'
                | right _ := Done (res', w') } }
        | Undefined u := Undefined u };
    | right _ := Done (res, w) }.
Proof. lia. Qed.

Definition _print_pdf_pages (job_handle : Z) (printer_cap : printer_capabilities_t)
    (duplex : Z) (pathname : list ascii) (num_index : Z) (pages_ary : list Z)
    (w : trace) : result (Z * trace) :=
  let num_pages := num_index in
  let res := ERROR in
  if faceDownTray printer_cap
  then print_forward job_handle pathname num_pages pages_ary 0 res w
  else print_backward job_handle pathname pages_ary (num_pages - 1) res w.

(** *** [nativeStartJob]: preparing the job parameters *)

(** The local arrays [page_range_arr], [pdf_pages_ary], [pages_ary] and
    [result] while the first loop runs. *)
Record range_state : Type := mk_ranges {
  rs_result : Z;
  page_range_arr : list Z;
  pdf_pages_ary : list Z;
  pages_ary_rows : list (list Z)
}.

(** Fresh locals: [page_range_arr] is cleared by [memset]; the two other
    arrays hold whatever the stack held. *)
Definition fresh_locals (len : nat) : range_state :=
  mk_ranges OK
    (replicate len 0)
    (map stack (seq 0 len))
    (map (fun row => map (fun i => stack (len + row * Z.to_nat MAX_NUM_PAGES + i)%nat)
                         (seq 0 (Z.to_nat MAX_NUM_PAGES)))
         (seq 0 len)).

(** One iteration of the first loop, on element [pageIndex]. *)
Definition range_step (mimeTypeStr page_range : option (list ascii))
    (array : list (option (list ascii))) (pageIndex : nat) (st : range_state)
  : result range_state :=
  match array_get array (Z.of_nat pageIndex) with
  | None => Done (mk_ranges ERROR (page_range_arr st) (pdf_pages_ary st)
                            (pages_ary_rows st))
  | Some pageStr =>
      let pc := _get_pdf_page_count mimeTypeStr pageStr in
      if pc.1 then
        let pdf_pages := <[pageIndex := pc.2]> (pdf_pages_ary st) in
        r <~ _get_pdf_page_range page_range
               (default [] (pages_ary_rows st !! pageIndex)) pc.2 0 ;;
        Done (mk_ranges (rs_result st)
                        (<[pageIndex := r.1.2]> (page_range_arr st))
                        pdf_pages
                        (<[pageIndex := r.1.1]> (pages_ary_rows st)))
      else Done st
  end.

(** [for (pageIndex = 0; (result == OK) && (pageIndex < len); pageIndex++)],
    with [todo] the indexes still to visit. *)
Fixpoint range_pass (mimeTypeStr page_range : option (list ascii))
    (array : list (option (list ascii))) (todo : list nat) (st : range_state)
  : result range_state :=
  match todo with
  | [] => Done st
  | pageIndex :: rest =>
      if decide (rs_result st = OK) then
        st' <~ range_step mimeTypeStr page_range array pageIndex st ;;
        range_pass mimeTypeStr page_range array rest st'
      else Done st
  end.

(** The "smart duplex" block. *)
Definition smart_duplex (len : nat) (mimeTypeStr pageStr : option (list ascii))
    (page_range_arr : list Z) (params : wprint_job_params_t)
  : wprint_job_params_t :=
  if decide (len = 1%nat) then
    if _is_pdf_doc mimeTypeStr pageStr then
      if decide (default 0 (page_range_arr !! 0%nat) = 1)
      then mk_params DUPLEX_MODE_NONE (docCategory params)
                     (print_scaling params) (job_pages_per_set params)
      else params
    else mk_params DUPLEX_MODE_NONE (docCategory params)
                   (print_scaling params) (job_pages_per_set params)
  else params.

(** [strlcpy(dst, src, size)] into an array of [capacity] bytes. *)
Definition strlcpy_into (capacity : nat) (dst src : list ascii) (size : nat)
  : result (list ascii) :=
  let copied := Libc.strlcpy dst src size in
  if decide (length copied < capacity)%nat then Done copied
  else Undefined ScalingBufferOverrun.

(** [for (i = 0; i < count; i++) if (strcmp(supported[i], name) == 0)
       { strlcpy(print_scaling, name, sizeof(print_scaling)); break; }]
    Returns the buffer and whether the [break] was taken. *)
Fixpoint copy_if_supported (name : list ascii) (supported : list (list ascii))
    (print_scaling : list ascii) : result (list ascii * bool) :=
  match supported with
  | [] => Done (print_scaling, false)
  | s :: rest =>
      if Libc.streq s name then
        b <~ strlcpy_into MAX_PRINT_SCALING_LENGTH print_scaling name
                          MAX_PRINT_SCALING_LENGTH ;;
        Done (b, true)
      else copy_if_supported name rest print_scaling
  end.

(** The block that fills the local [print_scaling]. *)
Definition select_print_scaling (print_format : list ascii)
    (params : wprint_job_params_t) (caps : printer_capabilities_t)
    (shared_photo preserve_scaling : bool) : result (list ascii) :=
  let print_scaling : list ascii := [] in
  if Libc.streq print_format PRINT_FORMAT_PDF then
    let is_photo := Libc.strcaseeq (docCategory params) (chars "Photo") in
    if (is_photo && shared_photo) || preserve_scaling then
      r <~ copy_if_supported (chars "none") (print_scalings_supported caps)
                             print_scaling ;;
      Done r.1
    else
      r <~ copy_if_supported (chars "auto") (print_scalings_supported caps)
                             print_scaling ;;
      let auto_supported := r.2 in
      if negb auto_supported then
        if negb (Libc.streq (print_scaling_default caps) []) then
          strlcpy_into MAX_PRINT_SCALING_LENGTH r.1 (print_scaling_default caps)
                       sizeof_print_scaling_default
        else
          strlcpy_into MAX_PRINT_SCALING_LENGTH r.1 (chars "fit")
                       MAX_PRINT_SCALING_LENGTH
      else Done r.1
  else
    r <~ copy_if_supported (chars "none") (print_scalings_supported caps)
                           print_scaling ;;
    Done r.1.

(** The scaling block as a whole: the selection and the copy into
    [params.print_scaling]. *)
Definition set_print_scaling (print_format : list ascii)
    (params : wprint_job_params_t) (caps : printer_capabilities_t)
    (shared_photo preserve_scaling : bool) : result wprint_job_params_t :=
  chosen <~ select_print_scaling print_format params caps
                                 shared_photo preserve_scaling ;;
  s <~ strlcpy_into sizeof_print_scaling (print_scaling params)
                    chosen sizeof_print_scaling ;;
  Done (mk_params (duplex params) (docCategory params) s
                  (job_pages_per_set params)).

(** What the caller of [nativeStartJob] passes in. *)
Record job_request : Type := mk_request {
  mimeTypeStr : option (list ascii);
  page_range : option (list ascii);        (* jobParams.page_range *)
  shared_photo : bool;                      (* jobParams.shared_photo *)
  preserve_scaling : bool;                  (* jobParams.preserve_scaling *)
  fileArray : option (list (option (list ascii)));
  print_format : list ascii                 (* _get_print_format(...) *)
}.

(** The [if (hasFiles)] block up to the call of [wprintStartJob]: the
    final parameters and the resolved ranges. *)
(** [a + b] on a 32-bit [int]. *)
Definition int_add (a b : Z) : result Z :=
  if decide (- 2 ^ 31 <= a + b < 2 ^ 31) then Done (a + b)
  else Undefined IntegerOverflow.

(** [for (i = 0; i < len; i++) params.job_pages_per_set += pdf_pages_ary[i];]
    with [acc] the value of the field so far. *)
Fixpoint sum_pages (acc : Z) (pdf_pages_ary : list Z) : result Z :=
  match pdf_pages_ary with
  | [] => Done acc
  | page_count :: rest => acc' <~ int_add acc page_count ;; sum_pages acc' rest
  end.

Definition prepare_job (rq : job_request) (params : wprint_job_params_t)
    (caps : printer_capabilities_t) (array : list (option (list ascii)))
  : result (wprint_job_params_t * range_state) :=
  let len := length array in
  st <~ range_pass (mimeTypeStr rq) (page_range rq) array (seq 0 len)
                   (fresh_locals len) ;;
  let pageStr := array_get array 0 in
  let params := smart_duplex len (mimeTypeStr rq) pageStr (page_range_arr st) params in
  params <~ set_print_scaling (print_format rq) params caps
                              (shared_photo rq) (preserve_scaling rq) ;;
  job_pages_per_set <~ sum_pages 0 (pdf_pages_ary st) ;;
  let params := mk_params (duplex params) (docCategory params)
                          (print_scaling params) job_pages_per_set in
  Done (params, st).

(** *** [nativeStartJob]: sending the documents *)

(** [for (pageIndex = 1; (result == OK) && (pageIndex <= len); pageIndex++)].
    Returns [result], [pageIndex] and the trace. *)
Equations? send_documents (rq : job_request) (params : wprint_job_params_t)
    (caps : printer_capabilities_t) (array : list (option (list ascii)))
    (st : range_state) (job_handle : Z) (incrementor : Z)
    (pageIndex index : Z) (res : Z) (w : trace) : result (Z * Z * trace)
  by wf (Z.to_nat (Z.of_nat (length array) + 1 - pageIndex)) lt :=
  send_documents rq params caps array st job_handle incrementor pageIndex index res w with
      decide (res = OK /\ pageIndex <= Z.of_nat (length array)) := {
    | left _ with array_get array index := {
        | None :=
            send_documents rq params caps array st job_handle incrementor
                           (pageIndex + 1) (index + incrementor) ERROR w
        | Some pageStr with
            (if _is_pdf_doc (mimeTypeStr rq) (Some pageStr) then
               _print_pdf_pages job_handle caps (duplex params) pageStr
                 (default 0 (page_range_arr st !! Z.to_nat index))
                 (default [] (pages_ary_rows st !! Z.to_nat index)) w
             else Done (call (wprintPage job_handle pageIndex (Some pageStr)
                                         false false) w)) := {
            | Done rw :=
                send_documents rq params caps array st job_handle incrementor
                               (pageIndex + 1) (index + incrementor) rw.1 rw.2
            | Undefined u := Undefined u } };
    | right _ := Done (res, pageIndex, w) }.
Proof. all: lia. Qed.

(** The [if (result != ERROR)] block after [wprintStartJob]: returns
    [job_handle] and the trace. *)
Definition submit_job (rq : job_request) (params : wprint_job_params_t)
    (caps : printer_capabilities_t) (array : list (option (list ascii)))
    (st : range_state) (res : Z) (w : trace) : result (Z * trace) :=
  let job_handle := res in
  let len := Z.of_nat (length array) in
  let index := if faceDownTray caps then 0 else len - 1 in
  let incrementor := if faceDownTray caps then 1 else -1 in
  r <~ send_documents rq params caps array st job_handle incrementor
                      1 index OK w ;;
  let res := r.1.1 in
  let pageIndex := r.1.2 in
  let w := (call (wprintPage job_handle pageIndex None true false) r.2).2 in
  if decide (res = OK) then Done (job_handle, w)
  else
    let w := (call (wprintCancelJob job_handle) w).2 in
    let w := (call (wprintEndJob job_handle) w).2 in
    Done (ERROR, w).

(** Returns [job_handle] and the calls made to the service. *)
Definition Java_com_android_bips_ipp_Backend_nativeStartJob
    (rq : job_request) (params : wprint_job_params_t)
    (caps : printer_capabilities_t) (w : trace) : result (Z * trace) :=
  let array := default [] (fileArray rq) in
  let hasFiles := bool_decide (0 < length array)%nat in
  if hasFiles then
    p <~ prepare_job rq params caps array ;;
    let rw := call (wprintStartJob p.1 caps) w in
    if decide (rw.1 = ERROR) then Done (ERROR, rw.2)
    else submit_job rq p.1 caps array p.2 rw.1 rw.2
  else Done (ERROR, w).

(** *** [processFailReasons] and [processBlockStatus] *)

(** The [else if (reasons & MACRO)] chain: the string of the first macro
    that shares a bit with [reasons]. *)
Fixpoint else_if_chain {M : Type} (mask : M -> Z) (chain : list (M * jstring))
    (reasons : Z) : option jstring :=
  match chain with
  | [] => None
  | (m, str) :: rest =>
      if Z.land reasons (mask m) =? 0 then else_if_chain mask rest reasons
      else Some str
  end.

(** One iteration of the decoding [for] loop, for bit [i]: the reasons
    left and the strings stored so far. *)
Definition decode_step {M : Type} (mask : M -> Z) (chain : list (M * jstring))
    (st : Z * list jstring) (i : nat) : Z * list jstring :=
  let reasons := st.1 in
  let LONG_ONE_shl_i := Z.shiftl 1 (Z.of_nat i) in
  let jStr := if Z.land reasons LONG_ONE_shl_i =? 0 then None
              else else_if_chain mask chain reasons in
  let reasons := Z.land reasons (Z.lnot LONG_ONE_shl_i) in
  (reasons, match jStr with Some str => st.2 ++ [str] | None => st.2 end).

(** The [String[count]] array, created full of empty strings; a store
    beyond [count] raises in Java and leaves the array as it is. *)
Definition string_array (count : nat) (stored : list jstring) : list jstring :=
  take count (stored ++ replicate count EMPTY_STRING).

Definition processFailReasons (fail_reasons : Z) (count : nat) : list jstring :=
  string_array count
    (fold_left (decode_step fail_mask fail_reasons_chain)
               (seq 0 (Z.to_nat IPP_JOB_STATE_REASON_MAX_VALUE))
               (fail_reasons, [])).2.

Definition processBlockStatus (blocked_reasons : Z) (count : nat) : list jstring :=
  string_array count
    (fold_left (decode_step blocked_mask block_status_chain)
               (seq 0 (Z.to_nat PRINT_STATUS_MAX_STATE))
               (blocked_reasons, [])).2.

(** *** [_wprint_callback_fn] *)

Record wprint_job_callback_params_t : Type := mk_cb {
  state : Z;                       (* param.state *)
  job_done_result : Z;
  blocked_reasons : Z;             (* unsigned long long *)
  certificate : option (list ascii)
}.

(** The Java object handed to the listener. *)
Record JobCallbackParams : Type := mk_event {
  jobState : jstring;
  jobDoneResult : option jstring;
  blockedReasons : option (list jstring);
  jobId : Z;
  event_certificate : option (list ascii)
}.

(** The first [switch]. *)
Definition job_state_string (st : Z) : jstring :=
  if decide (st = JOB_QUEUED) then JOB_STATE_QUEUED
  else if decide (st = JOB_RUNNING) then JOB_STATE_RUNNING
  else if decide (st = JOB_BLOCKED) then JOB_STATE_BLOCKED
  else if decide (st = JOB_DONE) then JOB_STATE_DONE
  else JOB_STATE_OTHER.

(** The second [switch], entered when the state is [JOB_DONE]: the flag
    [print_job_failed] and the outcome string. *)
Definition job_done_switch (r : Z) : bool * jstring :=
  if decide (r = OK) then (false, JOB_DONE_OK)
  else if decide (r = ERROR) then (true, JOB_DONE_ERROR)
  else if decide (r = CANCELLED) then (false, JOB_DONE_CANCELLED)
  else if decide (r = CORRUPT) then (true, JOB_DONE_CORRUPT)
  else if decide (r = BAD_CERTIFICATE) then (false, JOB_DONE_BAD_CERTIFICATE)
  else (false, JOB_DONE_OTHER).

Definition print_job_failed (cb_param : wprint_job_callback_params_t) : bool :=
  if decide (state cb_param = JOB_DONE)
  then (job_done_switch (job_done_result cb_param)).1
  else false.

Definition max_value_reasons (cb_param : wprint_job_callback_params_t) : Z :=
  if print_job_failed cb_param then IPP_JOB_STATE_REASON_MAX_VALUE
  else PRINT_STATUS_MAX_STATE.

(** [1 << i] on a 32-bit [int]. *)
Definition int_one_shl (i : Z) : result Z :=
  if decide (0 <= i < 31) then Done (Z.shiftl 1 i)
  else Undefined ShiftOutOfRange.

(** [for (count = i = 0; i < max_value_reasons; i++)
       if (blocked_reasons & (1 << i)) count++;] *)
Fixpoint count_reasons (blocked_reasons : Z) (todo : list nat) (count : nat)
  : result nat :=
  match todo with
  | [] => Done count
  | i :: rest =>
      bit <~ int_one_shl (Z.of_nat i) ;;
      count_reasons blocked_reasons rest
        (if Z.land blocked_reasons bit =? 0 then count else S count)
  end.

(** [cb_param] is [None] for a null pointer; [attached] tells whether a
    JNI environment could be obtained and [allocated] whether [NewObject]
    gave an object.  The result is the object passed to the listener,
    if any. *)
Definition _wprint_callback_fn (job_handle : Z)
    (cb_param : option wprint_job_callback_params_t)
    (attached allocated : bool) : result (option JobCallbackParams) :=
  match cb_param with
  | None => Done None
  | Some cb_param =>
      if negb attached then Done None
      else if negb allocated then Done None
      else
        let done_result :=
          if decide (state cb_param = JOB_DONE)
          then Some (job_done_switch (job_done_result cb_param)).2
          else None in
        count <~ count_reasons (blocked_reasons cb_param)
                   (seq 0 (Z.to_nat (max_value_reasons cb_param))) 0 ;;
        let reasons :=
          if decide (0 < count)%nat then
            Some (if print_job_failed cb_param
                  then processFailReasons (blocked_reasons cb_param) count
                  else processBlockStatus (blocked_reasons cb_param) count)
          else None in
        Done (Some (mk_event (job_state_string (state cb_param)) done_result
                             reasons job_handle (certificate cb_param)))
  end.

(** *** Orders of transmission, as the specification words them *)

(** Hand the pages of a list to the service one by one, in the order of
    the list, and stop after the first call that does not return [OK]. *)
Fixpoint transmit (job_handle : Z) (pathname : list ascii) (pages : list Z)
    (res : Z) (w : trace) : Z * trace :=
  match pages with
  | [] => (res, w)
  | page :: rest =>
      let rw := call (wprintPage job_handle page (Some pathname) false true) w in
      if decide (rw.1 = OK) then transmit job_handle pathname rest rw.1 rw.2
      else rw
  end.

(** Index 0 stepping +1 when face down, index len-1 stepping -1 when
    face up. *)
Definition document_order (face_down : bool) (len : nat) : list Z :=
  if face_down then map Z.of_nat (seq 0 len)
  else rev (map Z.of_nat (seq 0 len)).

(** Sending the document at [index] as the [pageIndex]-th of the job. *)
Definition send_document (rq : job_request) (params : wprint_job_params_t)
    (caps : printer_capabilities_t) (array : list (option (list ascii)))
    (st : range_state) (job_handle : Z) (pageIndex index : Z) (w : trace)
  : result (Z * trace) :=
  match array_get array index with
  | None => Done (ERROR, w)
  | Some pageStr =>
      if _is_pdf_doc (mimeTypeStr rq) (Some pageStr) then
        _print_pdf_pages job_handle caps (duplex params) pageStr
          (default 0 (page_range_arr st !! Z.to_nat index))
          (default [] (pages_ary_rows st !! Z.to_nat index)) w
      else Done (call (wprintPage job_handle pageIndex (Some pageStr)
                                  false false) w)
  end.

(** Send the documents of [order] one after the other while the result
    is [OK]. *)
Fixpoint send_in_order (rq : job_request) (params : wprint_job_params_t)
    (caps : printer_capabilities_t) (array : list (option (list ascii)))
    (st : range_state) (job_handle : Z) (order : list Z)
    (pageIndex : Z) (res : Z) (w : trace) : result (Z * Z * trace) :=
  match order with
  | [] => Done (res, pageIndex, w)
  | index :: rest =>
      if decide (res = OK) then
        rw <~ send_document rq params caps array st job_handle pageIndex index w ;;
        send_in_order rq params caps array st job_handle rest
                      (pageIndex + 1) rw.1 rw.2
      else Done (res, pageIndex, w)
  end.

(** The number of end markers in a trace. *)
Fixpoint markers (w : trace) : nat :=
  match w with
  | [] => 0
  | c :: rest => ((if is_marker c then 1 else 0) + markers rest)%nat
  end.

(** A call that hands over a page of a file: a file name is given and
    the last-page flag is off. *)
Definition is_page_send (c : wprint_call) : bool :=
  match c with
  | wprintPage _ _ (Some _) false _ => true
  | _ => false
  end.

(** The calls that send the files [docs] as pages [k], [k+1], ... of a
    job, none of them a PDF page. *)
Fixpoint numbered_pages (job_handle k : Z) (docs : list (list ascii)) : trace :=
  match docs with
  | [] => []
  | d :: rest =>
      wprintPage job_handle k (Some d) false false
      :: numbered_pages job_handle (k + 1) rest
  end.

(** The calls that send the pages [pages] of the PDF file [pathname]. *)
Definition pdf_pages (job_handle : Z) (pathname : list ascii) (pages : list Z)
  : trace :=
  map (fun page => wprintPage job_handle page (Some pathname) false true) pages.

(** *** [_convertJobParams_to_C]: the render flags *)

(** Macros of lib_wprint.h for the render flags, and the alignment
    constants read from the Java class of strings. *)
Variables RENDER_FLAG_PORTRAIT_MODE RENDER_FLAG_LANDSCAPE_MODE : Z.
Variables RENDER_FLAG_AUTO_ROTATE RENDER_FLAG_DOCUMENT_SCALING : Z.
Variables AUTO_SCALE_RENDER_FLAGS AUTO_FIT_RENDER_FLAGS : Z.
Variables RENDER_FLAG_CENTER_VERTICAL RENDER_FLAG_CENTER_HORIZONTAL : Z.
Variable RENDER_FLAG_CENTER_ON_ORIENTATION : Z.
Variables ALIGNMENT__CENTER_HORIZONTAL ALIGNMENT__CENTER_VERTICAL : Z.
Variables ALIGNMENT__CENTER_HORIZONTAL_ON_ORIENTATION ALIGNMENT__CENTER : Z.

(** The fields of the Java job parameters that the block reads. *)
Record LocalJobParams : Type := mk_java_params {
  java_render_flags : Z;
  portrait_mode : bool;
  landscape_mode : bool;
  auto_rotate : bool;
  fill_page : bool;
  fit_to_page : bool;
  document_scaling : bool;
  alignment : Z
}.

(** The [if / else if / else if] on the orientation. *)
Definition orientation_flags (j : LocalJobParams) (render_flags : Z) : Z :=
  if portrait_mode j then Z.lor render_flags RENDER_FLAG_PORTRAIT_MODE
  else if landscape_mode j then Z.lor render_flags RENDER_FLAG_LANDSCAPE_MODE
  else if auto_rotate j then Z.lor render_flags RENDER_FLAG_AUTO_ROTATE
  else render_flags.

(** The [if / else if] on fill and fit. *)
Definition scale_flags (j : LocalJobParams) (render_flags : Z) : Z :=
  if fill_page j then Z.lor render_flags AUTO_SCALE_RENDER_FLAGS
  else if fit_to_page j then
    let render_flags := Z.lor render_flags AUTO_FIT_RENDER_FLAGS in
    if document_scaling j
    then Z.lor render_flags RENDER_FLAG_DOCUMENT_SCALING
    else render_flags
  else render_flags.

(** The [if (alignment != 0)] block. *)
Definition alignment_flags (j : LocalJobParams) (render_flags : Z) : Z :=
  if decide (alignment j <> 0) then
    let render_flags :=
      Z.land render_flags
        (Z.lnot (Z.lor (Z.lor RENDER_FLAG_CENTER_VERTICAL
                              RENDER_FLAG_CENTER_HORIZONTAL)
                       RENDER_FLAG_CENTER_ON_ORIENTATION)) in
    let render_flags :=
      if Z.land (alignment j) ALIGNMENT__CENTER_HORIZONTAL =? 0 then render_flags
      else Z.lor render_flags RENDER_FLAG_CENTER_HORIZONTAL in
    let render_flags :=
      if Z.land (alignment j) ALIGNMENT__CENTER_VERTICAL =? 0 then render_flags
      else Z.lor render_flags RENDER_FLAG_CENTER_VERTICAL in
    let render_flags :=
      if Z.land (alignment j) ALIGNMENT__CENTER_HORIZONTAL_ON_ORIENTATION =? 0
      then render_flags
      else Z.lor render_flags RENDER_FLAG_CENTER_ON_ORIENTATION in
    if decide (Z.land (alignment j) ALIGNMENT__CENTER = ALIGNMENT__CENTER) then
      Z.lor (Z.land render_flags (Z.lnot RENDER_FLAG_CENTER_ON_ORIENTATION))
            (Z.lor RENDER_FLAG_CENTER_VERTICAL RENDER_FLAG_CENTER_HORIZONTAL)
    else render_flags
  else render_flags.

(** [wprintJobParams->render_flags] when [_convertJobParams_to_C]
    returns OK. *)
Definition _convertJobParams_to_C_render_flags (j : LocalJobParams) : Z :=
  alignment_flags j (scale_flags j (orientation_flags j (java_render_flags j))).

(** *** [nativeGetCapabilities] *)

(** The fields of [printer_capabilities_t] that the checks after the
    query read and write. *)
Record ipp_support : Type := mk_support {
  isSupported : Z;
  ippVersionMajor : Z
}.

(** [reply] is what [wprintGetCapabilities] returned and stored in
    [caps]; the result is the value returned and the capabilities handed
    to [_convertPrinterCaps_to_Java], if it is called. *)
Definition Java_com_android_bips_ipp_Backend_nativeGetCapabilities
    (reply : Z * ipp_support) (wprintIsRunning : bool)
  : Z * option ipp_support :=
  let result := reply.1 in
  let caps := reply.2 in
  let result := if negb wprintIsRunning && (result =? 0) then ERROR else result in
  if result =? 0 then
    let caps :=
      if negb (isSupported caps =? 0) && (ippVersionMajor caps <? 1)
      then mk_support 0 (ippVersionMajor caps)
      else caps in
    (result, Some caps)
  else (result, None).

(** *** Reasons by bit position *)

(** The note in both decoders asks for the branches to appear in the
    order of the enumeration the macros are derived from: macro [m] is
    the single bit [position m], and positions grow along the chain. *)
Definition follows_enum {M : Type} (mask : M -> Z) (position : M -> nat)
    (chain : list (M * jstring)) : Prop :=
  Forall (fun e => mask e.1 = Z.shiftl 1 (Z.of_nat (position e.1))) chain /\
  StronglySorted (fun e1 e2 => (position e1.1 < position e2.1)%nat) chain.

(** The string of the branch whose macro is bit [i]. *)
Definition branch_of_bit {M : Type} (position : M -> nat)
    (chain : list (M * jstring)) (i : nat) : option jstring :=
  match List.find (fun e => Nat.eqb (position e.1) i) chain with
  | Some e => Some e.2
  | None => None
  end.

(** The bits set below [bound], lowest first. *)
Definition set_bits (reasons : Z) (bound : nat) : list nat :=
  List.filter (fun i => Z.testbit reasons (Z.of_nat i)) (seq 0 bound).

(** One string for each set bit that has a branch, lowest bit first. *)
Definition strings_of_set_bits {M : Type} (position : M -> nat)
    (chain : list (M * jstring)) (reasons : Z) (bound : nat) : list jstring :=
  omap (branch_of_bit position chain) (set_bits reasons bound).

(** Every bit set below [bound] has a branch. *)
Definition bits_have_branches {M : Type} (position : M -> nat)
    (chain : list (M * jstring)) (reasons : Z) (bound : nat) : Prop :=
  Forall (fun i => is_Some (branch_of_bit position chain i))
         (set_bits reasons bound).

(** *** Inputs used in the examples *)

Definition always (v : Z) : trace -> wprint_call -> Z := fun _ _ => v.

Definition sample_params : wprint_job_params_t :=
  mk_params 1 (chars "Document") [] 0.

Definition sample_caps (face_down : bool) : printer_capabilities_t :=
  mk_caps face_down [chars "auto"; chars "fit"] (chars "fit").

(** Two PDF files, no page range. *)
Definition two_pdfs : job_request :=
  mk_request (Some (chars "application/pdf")) None false false
             (Some [Some (chars "a.pdf"); Some (chars "b.pdf")])
             (chars "application/pdf").

(** One PDF file with the page range [range]. *)
Definition one_pdf (range : string) : job_request :=
  mk_request (Some (chars "application/pdf")) (Some (chars range)) false false
             (Some [Some (chars "a.pdf")])
             (chars "application/pdf").

(** The failed reasons numbered in the order of their branches. *)
Definition fail_reason_bit (m : job_fail_reason_macro) : nat :=
  match m with
  | JOB_FAIL_REASON_UNABLE_TO_CONNECT => 0
  | JOB_FAIL_REASON_ABORTED_BY_SYSTEM => 1
  | JOB_FAIL_REASON_UNSUPPORTED_COMPRESSION => 2
  | JOB_FAIL_REASON_COMPRESSION_ERROR => 3
  | JOB_FAIL_REASON_UNSUPPORTED_DOCUMENT_FORMAT => 4
  | JOB_FAIL_REASON_DOCUMENT_FORMAT_ERROR => 5
  | JOB_FAIL_REASON_SERVICE_OFFLINE => 6
  | JOB_FAIL_REASON_DOCUMENT_PASSWORD_ERROR => 7
  | JOB_FAIL_REASON_DOCUMENT_PERMISSION_ERROR => 8
  | JOB_FAIL_REASON_DOCUMENT_SECURITY_ERROR => 9
  | JOB_FAIL_REASON_DOCUMENT_UNPRINTABLE_ERROR => 10
  | JOB_FAIL_REASON_DOCUMENT_ACCESS_ERROR => 11
  | JOB_FAIL_REASON_SUBMISSION_INTERRUPTED => 12
  | JOB_FAIL_REASON_AUTHORIZATION_FAILED => 13
  | JOB_FAIL_REASON_ACCOUNT_CLOSED => 14
  | JOB_FAIL_REASON_ACCOUNT_INFO_NEEDED => 15
  | JOB_FAIL_REASON_ACCOUNT_LIMIT_REACHED => 16
  end%nat.

Definition fail_reason_mask (m : job_fail_reason_macro) : Z :=
  Z.shiftl 1 (Z.of_nat (fail_reason_bit m)).

(** ** Facts about the parser *)

Lemma bind_done {A B} (r : result A) (k : A -> result B) (b : B) :
  bind r k = Done b -> exists a, r = Done a /\ k a = Done b.
Proof. destruct r as [a|u]; simpl; [eauto | discriminate]. Qed.

Lemma store_int_done (pages : list Z) (i : nat) (v : Z) :
  (i < length pages)%nat ->
  store_int pages (Z.of_nat i) v = Done (<[i := v]> pages).
Proof.
  intros Hi. unfold store_int.
  destruct (decide _) as [_|Hn]; [| lia].
  by rewrite Nat2Z.id.
Qed.

Lemma store_int_overrun (pages : list Z) (i : nat) (v : Z) :
  (length pages <= i)%nat ->
  store_int pages (Z.of_nat i) v = Undefined PagesArrayOverrun.
Proof.
  intros Hi. unfold store_int.
  destruct (decide _) as [Hn|_]; [lia | done].
Qed.

Lemma take_S_insert (pages : list Z) (i : nat) (v : Z) :
  (i < length pages)%nat ->
  take (S i) (<[i := v]> pages) = take i pages ++ [v].
Proof.
  intros Hi.
  rewrite (take_S_r _ _ v); [| by apply list_lookup_insert_eq].
  by rewrite take_insert_ge.
Qed.

(** The loops, unfolded once. *)
Lemma store_ascending_once (num_end : Z) (pages : list Z) (idx b count : Z) :
  store_ascending num_end pages idx b count
  = if decide (count <= idx + num_end - b)
    then p <~ store_int pages count b ;;
         store_ascending num_end p (idx + 1) (b + 1) (count + 1)
    else Done (pages, idx).
Proof.
  rewrite store_ascending_equation_1.
  destruct (decide (count <= _)); simpl; [| done].
  by destruct (store_int pages count b).
Qed.

Lemma store_descending_once (num_end : Z) (pages : list Z) (idx b count : Z) :
  store_descending num_end pages idx b count
  = if decide (count <= idx + b - num_end)
    then p <~ store_int pages count b ;;
         store_descending num_end p (idx + 1) (b - 1) (count + 1)
    else Done (pages, idx).
Proof.
  rewrite store_descending_equation_1.
  destruct (decide (count <= _)); simpl; [| done].
  by destruct (store_int pages count b).
Qed.

(** The ascending loop writes [n] cells when there is room for them. *)
Lemma store_ascending_run (n : nat) : forall (num_end : Z) (pages : list Z)
    (i : nat) (b : Z),
  num_end - b + 1 = Z.of_nat n ->
  (i + n <= length pages)%nat ->
  store_ascending num_end pages (Z.of_nat i) b (Z.of_nat i)
  = Done (take i pages ++ run_up b n ++ drop (i + n) pages, Z.of_nat (i + n)).
Proof.
  induction n as [|n IH]; intros num_end pages i b Hn Hroom;
    rewrite store_ascending_once;
    destruct (decide (Z.of_nat i <= _)) as [Hle|Hgt]; try lia.
  - simpl. by rewrite Nat.add_0_r, take_drop.
  - rewrite store_int_done by lia.
    replace (i + S n)%nat with (S i + n)%nat by lia.
    cbn [bind run_up run_down].
    replace (Z.of_nat i + 1) with (Z.of_nat (S i)) by lia.
    rewrite IH by (rewrite ?length_insert; lia).
    rewrite take_S_insert by lia.
    rewrite drop_insert_lt by lia.
    by rewrite <- app_assoc.
Qed.

Lemma store_descending_run (n : nat) : forall (num_end : Z) (pages : list Z)
    (i : nat) (b : Z),
  b - num_end + 1 = Z.of_nat n ->
  (i + n <= length pages)%nat ->
  store_descending num_end pages (Z.of_nat i) b (Z.of_nat i)
  = Done (take i pages ++ run_down b n ++ drop (i + n) pages, Z.of_nat (i + n)).
Proof.
  induction n as [|n IH]; intros num_end pages i b Hn Hroom;
    rewrite store_descending_once;
    destruct (decide (Z.of_nat i <= _)) as [Hle|Hgt]; try lia.
  - simpl. by rewrite Nat.add_0_r, take_drop.
  - rewrite store_int_done by lia.
    replace (i + S n)%nat with (S i + n)%nat by lia.
    cbn [bind run_up run_down].
    replace (Z.of_nat i + 1) with (Z.of_nat (S i)) by lia.
    rewrite IH by (rewrite ?length_insert; lia).
    rewrite take_S_insert by lia.
    rewrite drop_insert_lt by lia.
    by rewrite <- app_assoc.
Qed.

(** Without room for all [n] cells the loops run off the array. *)
Lemma store_ascending_overrun (n : nat) : forall (num_end : Z) (pages : list Z)
    (i : nat) (b : Z),
  num_end - b + 1 = Z.of_nat n ->
  (i <= length pages < i + n)%nat ->
  store_ascending num_end pages (Z.of_nat i) b (Z.of_nat i)
  = Undefined PagesArrayOverrun.
Proof.
  induction n as [|n IH]; intros num_end pages i b Hn Hroom; [lia |].
  rewrite store_ascending_once.
  destruct (decide (Z.of_nat i <= _)) as [Hle|Hgt]; [| lia].
  destruct (decide (i < length pages)%nat) as [Hi|Hi].
  - rewrite store_int_done by lia. simpl.
    replace (Z.of_nat i + 1) with (Z.of_nat (S i)) by lia.
    apply IH; rewrite ?length_insert; lia.
  - by rewrite store_int_overrun by lia.
Qed.

Lemma store_descending_overrun (n : nat) : forall (num_end : Z) (pages : list Z)
    (i : nat) (b : Z),
  b - num_end + 1 = Z.of_nat n ->
  (i <= length pages < i + n)%nat ->
  store_descending num_end pages (Z.of_nat i) b (Z.of_nat i)
  = Undefined PagesArrayOverrun.
Proof.
  induction n as [|n IH]; intros num_end pages i b Hn Hroom; [lia |].
  rewrite store_descending_once.
  destruct (decide (Z.of_nat i <= _)) as [Hle|Hgt]; [| lia].
  destruct (decide (i < length pages)%nat) as [Hi|Hi].
  - rewrite store_int_done by lia. simpl.
    replace (Z.of_nat i + 1) with (Z.of_nat (S i)) by lia.
    apply IH; rewrite ?length_insert; lia.
  - by rewrite store_int_overrun by lia.
Qed.

Lemma length_run_up (n : nat) : forall b, length (run_up b n) = n.
Proof. induction n; intros; simpl; auto. Qed.

Lemma length_run_down (n : nat) : forall b, length (run_down b n) = n.
Proof. induction n; intros; simpl; auto. Qed.

Lemma length_page_run (b e : Z) :
  Z.of_nat (length (page_run b e)) = Z.abs (e - b) + 1.
Proof.
  unfold page_run. destruct (Z.leb_spec b e);
    rewrite ?length_run_up, ?length_run_down; lia.
Qed.

(** The first [i + n] cells after [n] cells were written at cell [i]. *)
Lemma resolved_written (pages run : list Z) (i : nat) :
  (i + length run <= length pages)%nat ->
  resolved (written pages i run) (Z.of_nat (i + length run))
  = resolved pages (Z.of_nat i) ++ run.
Proof.
  intros Hroom. unfold resolved, written. rewrite !Nat2Z.id.
  rewrite app_assoc. apply take_app_length'.
  rewrite length_app, length_take. lia.
Qed.

(** A segment with both numbers inside 1..N and room in the array: the
    run is stored after the pages already there. *)
Lemma store_range_valid (N : Z) (pages : list Z) (i : nat) (b e : Z) :
  1 <= b <= N -> 1 <= e <= N ->
  (i + length (page_run b e) <= length pages)%nat ->
  store_range N pages (Z.of_nat i) b e
  = Done (true, written pages i (page_run b e),
          Z.of_nat (i + length (page_run b e))).
Proof.
  intros Hb He Hroom. unfold store_range, written.
  replace (0 <? b) with true by lia. replace (0 <? e) with true by lia.
  replace (b <=? N) with true by lia. replace (e <=? N) with true by lia.
  simpl. pose proof (length_page_run b e) as Hlen.
  unfold page_run in *. destruct (Z.leb_spec b e).
  - replace (N <? e) with false by lia.
    rewrite length_run_up in *.
    by rewrite (store_ascending_run (Z.to_nat (e - b + 1))) by lia.
  - replace (N <? b) with false by lia.
    rewrite length_run_down in *.
    by rewrite (store_descending_run (Z.to_nat (b - e + 1))) by lia.
Qed.

(** Whatever the numbers: a defined run of the range checks and loops
    keeps the length of the array, moves the index forward by at most
    [N], and keeps it inside the array. *)
Lemma store_range_done (N : Z) (pages pages' : list Z) (i : nat) (b e idx' : Z)
    (ok : bool) :
  0 <= N ->
  (i <= length pages)%nat ->
  store_range N pages (Z.of_nat i) b e = Done (ok, pages', idx') ->
  length pages' = length pages /\
  Z.of_nat i <= idx' <= Z.of_nat i + N /\
  idx' <= Z.of_nat (length pages') /\
  (ok = false -> pages' = pages /\ idx' = Z.of_nat i).
Proof.
  intros HN Hi. unfold store_range.
  destruct (Z.ltb_spec 0 b); destruct (Z.ltb_spec 0 e); simpl;
    try (intros [= <- <- <-]; repeat split; lia).
  destruct (Z.leb_spec b N); destruct (Z.leb_spec e N); simpl;
    try (intros [= <- <- <-]; repeat split; lia).
  destruct (Z.leb_spec b e).
  - replace (N <? e) with false by lia.
    destruct (decide (i + Z.to_nat (e - b + 1) <= length pages)%nat).
    + rewrite (store_ascending_run (Z.to_nat (e - b + 1))) by lia.
      simpl. intros [= <- <- <-].
      rewrite !length_app, length_take, length_drop, length_run_up.
      repeat split; (lia || discriminate).
    + by rewrite (store_ascending_overrun (Z.to_nat (e - b + 1))) by lia.
  - replace (N <? b) with false by lia.
    destruct (decide (i + Z.to_nat (b - e + 1) <= length pages)%nat).
    + rewrite (store_descending_run (Z.to_nat (b - e + 1))) by lia.
      simpl. intros [= <- <- <-].
      rewrite !length_app, length_take, length_drop, length_run_down.
      repeat split; (lia || discriminate).
    + by rewrite (store_descending_overrun (Z.to_nat (b - e + 1))) by lia.
Qed.

Lemma length_written (pages run : list Z) (i : nat) :
  (i + length run <= length pages)%nat ->
  length (written pages i run) = length pages.
Proof.
  intros Hroom. unfold written.
  rewrite !length_app, length_take, length_drop. lia.
Qed.

Lemma order_pdf_pages_valid (N : Z) (pages : list Z) (i : nat)
    (seg : list ascii) (b e : Z) :
  parse_segment seg = Done (Some (b, e)) ->
  1 <= b <= N -> 1 <= e <= N ->
  (i + length (page_run b e) <= length pages)%nat ->
  _order_pdf_pages N pages (Z.of_nat i) seg
  = Done (true, written pages i (page_run b e),
          Z.of_nat (i + length (page_run b e))).
Proof.
  intros Hparse Hb He Hroom. unfold _order_pdf_pages.
  rewrite Hparse. simpl. by apply store_range_valid.
Qed.

Lemma order_pdf_pages_done (N : Z) (pages pages' : list Z) (i : nat)
    (seg : list ascii) (idx' : Z) (ok : bool) :
  0 <= N ->
  (i <= length pages)%nat ->
  _order_pdf_pages N pages (Z.of_nat i) seg = Done (ok, pages', idx') ->
  length pages' = length pages /\
  Z.of_nat i <= idx' <= Z.of_nat i + N /\
  idx' <= Z.of_nat (length pages') /\
  (ok = false -> pages' = pages /\ idx' = Z.of_nat i).
Proof.
  intros HN Hi. unfold _order_pdf_pages.
  destruct (parse_segment seg) as [[[b e]|]|u]; simpl.
  - by apply store_range_done.
  - intros [= <- <- <-]. repeat split; lia.
  - discriminate.
Qed.

Lemma order_pdf_pages_out_of_range (N : Z) (pages : list Z) (idx : Z)
    (seg : list ascii) (b e : Z) :
  parse_segment seg = Done (Some (b, e)) ->
  ~ (1 <= b <= N /\ 1 <= e <= N) ->
  _order_pdf_pages N pages idx seg = Done (false, pages, idx).
Proof.
  intros Hparse Hout. unfold _order_pdf_pages. rewrite Hparse. simpl.
  unfold store_range.
  destruct (Z.ltb_spec 0 b); destruct (Z.ltb_spec 0 e); simpl; try done.
  destruct (Z.leb_spec b N); destruct (Z.leb_spec e N); simpl; try done.
  lia.
Qed.

Lemma store_range_overrun (N : Z) (pages : list Z) (i : nat) (b e : Z) :
  1 <= b <= N -> 1 <= e <= N ->
  (i <= length pages < i + length (page_run b e))%nat ->
  store_range N pages (Z.of_nat i) b e = Undefined PagesArrayOverrun.
Proof.
  intros Hb He Hroom. unfold store_range.
  replace (0 <? b) with true by lia. replace (0 <? e) with true by lia.
  replace (b <=? N) with true by lia. replace (e <=? N) with true by lia.
  simpl. unfold page_run in Hroom. destruct (Z.leb_spec b e).
  - replace (N <? e) with false by lia. rewrite length_run_up in Hroom.
    by rewrite (store_ascending_overrun (Z.to_nat (e - b + 1))) by lia.
  - replace (N <? b) with false by lia. rewrite length_run_down in Hroom.
    by rewrite (store_descending_overrun (Z.to_nat (b - e + 1))) by lia.
Qed.

Lemma order_pdf_pages_overrun (N : Z) (pages : list Z) (i : nat)
    (seg : list ascii) (b e : Z) :
  parse_segment seg = Done (Some (b, e)) ->
  1 <= b <= N -> 1 <= e <= N ->
  (i <= length pages < i + length (page_run b e))%nat ->
  _order_pdf_pages N pages (Z.of_nat i) seg = Undefined PagesArrayOverrun.
Proof.
  intros Hparse Hb He Hroom. unfold _order_pdf_pages.
  rewrite Hparse. simpl. by apply store_range_overrun.
Qed.

Lemma memset_pages_length (pages cleared : list Z) :
  memset_pages pages = Done cleared -> length cleared = length pages.
Proof.
  unfold memset_pages. cbv zeta.
  generalize (Z.to_nat (MAX_NUM_PAGES / 4)). intros cells.
  destruct (decide _) as [Hroom|_]; [| done].
  intros Hdone. injection Hdone as <-.
  rewrite length_app, length_replicate, length_drop. lia.
Qed.

(** The row of one document has room for the [memset]. *)
Lemma memset_pages_done (pages : list Z) :
  Z.of_nat (length pages) = MAX_NUM_PAGES ->
  exists cleared,
    memset_pages pages = Done cleared /\ length cleared = length pages.
Proof.
  intros Hlen. unfold MAX_NUM_PAGES in Hlen.
  destruct (memset_pages pages) as [cleared|u] eqn:Hm.
  - exists cleared. split; [done |]. by apply memset_pages_length.
  - unfold memset_pages in Hm. destruct (decide _) as [|Hno]; [done |].
    exfalso. apply Hno. change (Z.to_nat (MAX_NUM_PAGES / 4)) with 500%nat. lia.
Qed.

Lemma copy_page_range_str_done (range : list ascii) :
  (length range < Z.to_nat MAX_NUM_PAGES)%nat ->
  copy_page_range_str range = Done range.
Proof. intros Hlen. unfold copy_page_range_str. by destruct (decide _). Qed.

(** The resolver on a requested expression that fits its display array,
    with a row of [MAX_NUM_PAGES] cells: the loop over the tokens on the
    cleared row. *)
Lemma get_pdf_page_range_requested (range : list ascii) (pages : list Z) (N : Z) :
  range <> [] ->
  (length range < Z.to_nat MAX_NUM_PAGES)%nat ->
  Z.of_nat (length pages) = MAX_NUM_PAGES ->
  exists cleared,
    length cleared = length pages /\
    _get_pdf_page_range (Some range) pages N 0
    = range_loop N cleared 0 range (Libc.strtok_all ","%char [] range).
Proof.
  intros Hne Hfit Hlen.
  destruct (memset_pages_done pages Hlen) as (cleared & Hm & Hcl).
  exists cleared. split; [done |].
  assert (Hcopy : copied_page_range (Some range) = Some range).
  { unfold copied_page_range, Libc.streq.
    by rewrite bool_decide_eq_false_2. }
  unfold _get_pdf_page_range, requested_page_range. rewrite Hcopy.
  rewrite copy_page_range_str_done by done. cbn [bind]. by rewrite Hm.
Qed.

(** Segments that are all valid and fit the row: each run is stored
    after the runs before it. *)
Lemma range_loop_valid (N : Z) (str : list ascii) (tokens : list (list ascii))
    (bounds : list (Z * Z)) :
  valid_segments N tokens bounds ->
  forall (pages : list Z) (i : nat),
    (i + length (segment_runs bounds) <= length pages)%nat ->
    exists pages',
      range_loop N pages (Z.of_nat i) str tokens
      = Done (pages', Z.of_nat (i + length (segment_runs bounds)), str) /\
      length pages' = length pages /\
      resolved pages' (Z.of_nat (i + length (segment_runs bounds)))
      = resolved pages (Z.of_nat i) ++ segment_runs bounds.
Proof.
  induction 1 as [|tok [b e] tokens bounds (Hparse & Hb & He) _ IH];
    intros pages i Hroom.
  - exists pages. cbn [range_loop segment_runs flat_map length].
    rewrite Nat.add_0_r, app_nil_r. done.
  - cbn [segment_runs flat_map fst snd] in *.
    fold (segment_runs bounds) in *. rewrite length_app in Hroom.
    cbn [range_loop].
    rewrite (order_pdf_pages_valid N pages i tok b e Hparse Hb He) by lia.
    cbn [bind fst snd].
    destruct (IH (written pages i (page_run b e)) (i + length (page_run b e))%nat)
      as (pages' & Hrun & Hlen & Hres);
      [rewrite length_written by lia; lia |].
    exists pages'. rewrite length_app, Nat.add_assoc.
    split; [done |]. split; [by rewrite Hlen, length_written by lia |].
    by rewrite Hres, resolved_written, app_assoc by lia.
Qed.

(** Segments that are all valid and do not fit the row: a store goes
    past the row. *)
Lemma range_loop_overrun (N : Z) (str : list ascii) (tokens : list (list ascii))
    (bounds : list (Z * Z)) :
  valid_segments N tokens bounds ->
  forall (pages : list Z) (i : nat),
    (i <= length pages < i + length (segment_runs bounds))%nat ->
    range_loop N pages (Z.of_nat i) str tokens = Undefined PagesArrayOverrun.
Proof.
  induction 1 as [|tok [b e] tokens bounds (Hparse & Hb & He) _ IH];
    intros pages i Hroom.
  - cbn [segment_runs flat_map length] in Hroom. lia.
  - cbn [segment_runs flat_map fst snd] in *.
    fold (segment_runs bounds) in *. rewrite length_app in Hroom.
    cbn [range_loop].
    destruct (decide (i + length (page_run b e) <= length pages)%nat) as [Hfit|Hno].
    + rewrite (order_pdf_pages_valid N pages i tok b e Hparse Hb He) by done.
      cbn [bind fst snd]. apply IH. rewrite length_written by done. lia.
    + by rewrite (order_pdf_pages_overrun N pages i tok b e Hparse Hb He) by lia.
Qed.

(** C2.  A segment whose two numbers lie in 1..N is stored as the run
    from begin to end, ascending when end >= begin and descending
    otherwise, after the pages already resolved, and the segments of one
    expression follow one another in order: so "2-5,1" resolves to
    2,3,4,5,1 for a 5-page document and "3-1" to 3,2,1 for a document of
    3 pages or more.  This holds as long as the runs fit the row of
    [MAX_NUM_PAGES] cells of the document; the storing loops test no
    bound, and a run that does not fit is stored past the end of the
    row. *)
Theorem C2_valid_segment_appends_run :
  (forall (N : Z) (pages : list Z) (i : nat) (seg : list ascii) (b e : Z),
      parse_segment seg = Done (Some (b, e)) ->
      1 <= b <= N -> 1 <= e <= N ->
      ((i + length (page_run b e) <= length pages)%nat ->
       exists pages',
         _order_pdf_pages N pages (Z.of_nat i) seg
         = Done (true, pages', Z.of_nat (i + length (page_run b e))) /\
         resolved pages' (Z.of_nat (i + length (page_run b e)))
         = resolved pages (Z.of_nat i) ++ page_run b e) /\
      ((i <= length pages < i + length (page_run b e))%nat ->
       _order_pdf_pages N pages (Z.of_nat i) seg
       = Undefined PagesArrayOverrun)) /\
  (forall b e : Z, b <= e -> page_run b e = run_up b (Z.to_nat (e - b + 1))) /\
  (forall b e : Z, e < b -> page_run b e = run_down b (Z.to_nat (b - e + 1))) /\
  (forall (N : Z) (range : list ascii) (pages : list Z) (bounds : list (Z * Z)),
      range <> [] ->
      (length range < Z.to_nat MAX_NUM_PAGES)%nat ->
      Z.of_nat (length pages) = MAX_NUM_PAGES ->
      valid_segments N (Libc.strtok_all ","%char [] range) bounds ->
      (Z.of_nat (length (segment_runs bounds)) <= MAX_NUM_PAGES ->
       exists pages',
         _get_pdf_page_range (Some range) pages N 0
         = Done (pages', Z.of_nat (length (segment_runs bounds)), range) /\
         resolved pages' (Z.of_nat (length (segment_runs bounds)))
         = segment_runs bounds) /\
      (MAX_NUM_PAGES < Z.of_nat (length (segment_runs bounds)) ->
       _get_pdf_page_range (Some range) pages N 0
       = Undefined PagesArrayOverrun)) /\
  (forall pages : list Z,
      Z.of_nat (length pages) = MAX_NUM_PAGES ->
      exists pages',
        _get_pdf_page_range (Some (chars "2-5,1")) pages 5 0
        = Done (pages', 5, chars "2-5,1") /\
        resolved pages' 5 = [2; 3; 4; 5; 1]) /\
  (forall (N : Z) (pages : list Z),
      3 <= N ->
      Z.of_nat (length pages) = MAX_NUM_PAGES ->
      exists pages',
        _get_pdf_page_range (Some (chars "3-1")) pages N 0
        = Done (pages', 3, chars "3-1") /\
        resolved pages' 3 = [3; 2; 1]).
Proof.
  assert (Hresolver :
            forall (N : Z) (range : list ascii) (pages : list Z)
                   (bounds : list (Z * Z)),
              range <> [] ->
              (length range < Z.to_nat MAX_NUM_PAGES)%nat ->
              Z.of_nat (length pages) = MAX_NUM_PAGES ->
              valid_segments N (Libc.strtok_all ","%char [] range) bounds ->
              (Z.of_nat (length (segment_runs bounds)) <= MAX_NUM_PAGES ->
               exists pages',
                 _get_pdf_page_range (Some range) pages N 0
                 = Done (pages', Z.of_nat (length (segment_runs bounds)), range) /\
                 resolved pages' (Z.of_nat (length (segment_runs bounds)))
                 = segment_runs bounds) /\
              (MAX_NUM_PAGES < Z.of_nat (length (segment_runs bounds)) ->
               _get_pdf_page_range (Some range) pages N 0
               = Undefined PagesArrayOverrun)).
  { intros N range pages bounds Hne Hfit Hlen Hvalid.
    destruct (get_pdf_page_range_requested range pages N Hne Hfit Hlen)
      as (cleared & Hcl & ->).
    split.
    - intros Hroom.
      destruct (range_loop_valid N range _ _ Hvalid cleared 0) as (pages' & Hrun & _ & Hres);
        [lia |].
      exists pages'. split; [exact Hrun | exact Hres].
    - intros Hover. apply (range_loop_overrun N range _ _ Hvalid cleared 0). lia. }
  split; [| split; [| split; [| split; [exact Hresolver | split]]]].
  - intros N pages i seg b e Hparse Hb He. split.
    + intros Hroom. eexists. split; [by apply order_pdf_pages_valid |].
      by apply resolved_written.
    + intros Hroom. by apply (order_pdf_pages_overrun N pages i seg b e).
  - intros b e Hbe. unfold page_run. by replace (b <=? e) with true by lia.
  - intros b e Hbe. unfold page_run. by replace (b <=? e) with false by lia.
  - intros pages Hlen.
    destruct (Hresolver 5 (chars "2-5,1") pages [(2, 5); (1, 1)]) as [Hfits _];
      [done | by apply Nat.ltb_lt | done | | by apply Hfits].
    unfold valid_segments.
    change (Libc.strtok_all _ _ _) with [chars "2-5"; chars "1"].
    repeat (constructor; [split; [done | simpl; lia] |]). constructor.
  - intros N pages HN Hlen.
    destruct (Hresolver N (chars "3-1") pages [(3, 1)]) as [Hfits _];
      [done | by apply Nat.ltb_lt | done | | by apply Hfits].
    unfold valid_segments.
    change (Libc.strtok_all _ _ _) with [chars "3-1"].
    repeat (constructor; [split; [done | simpl; lia] |]). constructor.
Qed.

(** C1.  When a later segment fails, the pages of the earlier segments
    stay in the list: the parser is re-run on "1-N" at the index they
    left.  For the range "2,99" and a 5-page document the resolved list
    is 2,1,2,3,4,5 and not 1,2,3,4,5, while the display string is set to
    "1-5". *)
Theorem C1_fallback_keeps_earlier_pages (pages : list Z) :
  Z.of_nat (length pages) = MAX_NUM_PAGES ->
  exists pages',
    _get_pdf_page_range (Some (chars "2,99")) pages 5 0
    = Done (pages', 6, chars "1-5") /\
    resolved pages' 6 = [2; 1; 2; 3; 4; 5] /\
    resolved pages' 6 <> [1; 2; 3; 4; 5].
Proof.
  intros Hlen.
  destruct (get_pdf_page_range_requested (chars "2,99") pages 5)
    as (cleared & Hm & ->); [done | by apply Nat.ltb_lt | done |].
  unfold MAX_NUM_PAGES in Hlen.
  change (Libc.strtok_all _ _ _) with [chars "2"; chars "99"].
  cbn [range_loop].
  rewrite (order_pdf_pages_valid 5 _ 0 (chars "2") 2 2);
    [| done | lia | lia | simpl; lia].
  cbn [bind fst snd].
  rewrite (order_pdf_pages_out_of_range 5 _ _ (chars "99") 99 99);
    [| done | lia].
  cbn [bind fst snd].
  change (full_range 5) with (chars "1-5").
  rewrite (order_pdf_pages_valid 5 _ 1 (chars "1-5") 1 5);
    [| done | lia | lia | rewrite length_written; simpl; lia].
  cbn [bind fst snd].
  eexists. split; [done |].
  rewrite (resolved_written _ [1; 2; 3; 4; 5] 1)
    by (rewrite length_written; simpl; lia).
  rewrite (resolved_written _ [2] 0) by (simpl; lia).
  by split.
Qed.

(** The resolving loop, when it is defined, keeps the array length and
    moves the index forward by at most [N] per token. *)
Lemma range_loop_done (N : Z) (tokens : list (list ascii)) :
  forall (pages pages' : list Z) (i : nat) (str str' : list ascii) (idx' : Z),
    0 <= N ->
    (i <= length pages)%nat ->
    range_loop N pages (Z.of_nat i) str tokens = Done (pages', idx', str') ->
    length pages' = length pages /\
    Z.of_nat i <= idx' <= Z.of_nat i + Z.of_nat (length tokens) * N /\
    idx' <= Z.of_nat (length pages').
Proof.
  induction tokens as [|tok rest IH];
    intros pages pages' i str str' idx' HN Hi Hrun.
  - simpl in Hrun. injection Hrun as <- <- <-. simpl. lia.
  - cbn [range_loop] in Hrun.
    apply bind_done in Hrun as ([[ok p1] i1] & Hfirst & Hrest).
    apply order_pdf_pages_done in Hfirst as (Hl1 & Hi1 & Hb1 & Hfail);
      [| done | done].
    cbn [fst snd] in Hrest. destruct ok.
    + replace i1 with (Z.of_nat (Z.to_nat i1)) in Hrest by lia.
      apply IH in Hrest as (Hl & Hi' & Hb); [| done | lia].
      rewrite length_cons. split; [congruence |]. split; [nia | done].
    + destruct Hfail as [-> ->]; [done |].
      apply bind_done in Hrest as ([[ok2 p2] i2] & Hsecond & Hret).
      apply order_pdf_pages_done in Hsecond as (Hl2 & Hi2 & Hb2 & _);
        [| done | done].
      cbn [fst snd] in Hret. injection Hret as <- <- <-.
      rewrite length_cons. split; [done |]. split; [nia | done].
Qed.

(** A defined run of the resolver is the loop over the tokens of the
    requested expression, on the cleared row. *)
Lemma get_pdf_page_range_loop (pageRangeObject : option (list ascii))
    (pages pages' : list Z) (N idx' : Z) (str : list ascii) :
  _get_pdf_page_range pageRangeObject pages N 0 = Done (pages', idx', str) ->
  exists cleared str0,
    length cleared = length pages /\
    range_loop N cleared 0 str0
      (Libc.strtok_all ","%char [] (requested_page_range pageRangeObject N))
    = Done (pages', idx', str).
Proof.
  unfold _get_pdf_page_range. intros Hrun.
  apply bind_done in Hrun as (str0 & _ & Hrun).
  apply bind_done in Hrun as (cleared & Hm & Hrun).
  exists cleared, str0. split; [by apply memset_pages_length | done].
Qed.

Lemma get_pdf_page_range_done (pageRangeObject : option (list ascii))
    (pages pages' : list Z) (N idx' : Z) (str : list ascii) :
  0 <= N ->
  _get_pdf_page_range pageRangeObject pages N 0 = Done (pages', idx', str) ->
  Z.of_nat (length (resolved pages' idx')) = idx' /\
  0 <= idx' <= Z.of_nat (length (Libc.strtok_all ","%char []
                                   (requested_page_range pageRangeObject N))) * N.
Proof.
  intros HN Hrun.
  apply get_pdf_page_range_loop in Hrun as (cleared & str0 & _ & Hrun).
  apply (range_loop_done N _ _ _ 0%nat) in Hrun as (Hl & Hi & Hb);
    [| done | lia].
  unfold resolved. rewrite length_take. lia.
Qed.

(** C10 (amended).  For a page count N >= 0, a defined run of the
    resolver leaves a list of at most k * N pages, where k is the number
    of comma-separated segments of the requested expression, the string
    the caller asked for and that is cut into segments ("1-N" when the
    caller asked for none), not the string that the resolver reports
    back; the list has exactly the length the index reports.  One
    requested segment gives at most N pages; several segments may repeat
    pages and give more than N. *)
Theorem C10_resolved_at_most_N_per_segment
    (pageRangeObject : option (list ascii)) (pages pages' : list Z)
    (N idx' : Z) (str : list ascii) :
  0 <= N ->
  _get_pdf_page_range pageRangeObject pages N 0 = Done (pages', idx', str) ->
  let requested :=
    match pageRangeObject with
    | Some (c :: range) => c :: range
    | _ => full_range N
    end in
  let k := length (Libc.strtok_all ","%char [] requested) in
  Z.of_nat (length (resolved pages' idx')) = idx' /\
  0 <= idx' <= Z.of_nat k * N.
Proof.
  intros HN Hrun requested k.
  assert (Hreq : requested = requested_page_range pageRangeObject N).
  { subst requested. unfold requested_page_range, copied_page_range, Libc.streq.
    destruct pageRangeObject as [[|c range]|]; [done | | done].
    by rewrite bool_decide_eq_false_2. }
  subst k. rewrite Hreq.
  by apply (get_pdf_page_range_done _ pages pages' _ _ str).
Qed.

(** ** Facts about the scan *)

Lemma token_char_stored (c : ascii) :
  token_char c = true ->
  Libc.isspace c = false /\ (Libc.code c =? 45)%N = false /\
  (Libc.code c =? 0)%N = false.
Proof.
  unfold token_char. intros H.
  apply andb_true_iff in H as [H H0]. apply andb_true_iff in H as [H1 H2].
  by rewrite !negb_true_iff in *.
Qed.

Lemma written_step {A : Type} (buf : list A) (k : nat) (c : A) (t : list A) :
  (k < length buf)%nat ->
  written (<[k := c]> buf) (S k) t = written buf k (c :: t).
Proof.
  intros Hk. unfold written.
  rewrite (take_S_r _ _ c) by (by apply list_lookup_insert_eq).
  rewrite take_insert_ge by lia.
  rewrite drop_insert_lt by lia.
  rewrite <- app_assoc. simpl. repeat f_equal. lia.
Qed.

Lemma written_nil {A : Type} (buf : list A) (k : nat) : written buf k [] = buf.
Proof. unfold written. simpl. by rewrite Nat.add_0_r, take_drop. Qed.

(** Token characters before the first dash go to [num_begin_ary]. *)
Lemma scan_loop_begin (t : list ascii) : forall (st : scan_state),
  forallb token_char t = true ->
  dash_encountered st = false ->
  (num_counter st + length t <= length (num_begin_ary st))%nat ->
  scan_loop st t
  = Done (mk_scan (written (num_begin_ary st) (num_counter st) t)
                  (num_end_ary st) (num_counter st + length t) false).
Proof.
  induction t as [|c t IH]; intros [bb eb k d] Ht Hd Hroom; simpl in *.
  - subst d. by rewrite written_nil, Nat.add_0_r.
  - subst d. apply andb_true_iff in Ht as [Hc Ht].
    apply token_char_stored in Hc as (Hs & Hdash & _).
    unfold scan_char. rewrite Hs, Hdash. simpl.
    unfold store_char. destruct (decide (k < length bb)%nat); [| lia].
    simpl. rewrite IH; simpl; rewrite ?length_insert; [| done | done | lia].
    rewrite written_step by done. do 2 f_equal. lia.
Qed.

(** Token characters after a dash go to [num_end_ary]. *)
Lemma scan_loop_end (t : list ascii) : forall (st : scan_state),
  forallb token_char t = true ->
  dash_encountered st = true ->
  (num_counter st + length t <= length (num_end_ary st))%nat ->
  scan_loop st t
  = Done (mk_scan (num_begin_ary st)
                  (written (num_end_ary st) (num_counter st) t)
                  (num_counter st + length t) true).
Proof.
  induction t as [|c t IH]; intros [bb eb k d] Ht Hd Hroom; simpl in *.
  - subst d. by rewrite written_nil, Nat.add_0_r.
  - subst d. apply andb_true_iff in Ht as [Hc Ht].
    apply token_char_stored in Hc as (Hs & Hdash & _).
    unfold scan_char. rewrite Hs, Hdash. simpl.
    unfold store_char. destruct (decide (k < length eb)%nat); [| lia].
    simpl. rewrite IH; simpl; rewrite ?length_insert; [| done | done | lia].
    rewrite written_step by done. do 2 f_equal. lia.
Qed.

(** A dash, the first or a later one: the index goes back to 0. *)
Lemma scan_char_dash (st : scan_state) :
  scan_char st "-"%char
  = Done (mk_scan (num_begin_ary st) (num_end_ary st) 0 true).
Proof. done. Qed.

Lemma scan_loop_app (s1 s2 : list ascii) : forall st,
  scan_loop st (s1 ++ s2) = (st' <~ scan_loop st s1 ;; scan_loop st' s2).
Proof.
  induction s1 as [|c s1 IH]; intros st; simpl; [done |].
  destruct (scan_char st c); simpl; [apply IH | done].
Qed.

(** More token characters than the begin array has cells left: the
    store runs past its end. *)
Lemma scan_loop_overrun (t : list ascii) : forall (st : scan_state),
  forallb token_char t = true ->
  dash_encountered st = false ->
  (num_counter st <= length (num_begin_ary st) < num_counter st + length t)%nat ->
  scan_loop st t = Undefined TokenBufferOverrun.
Proof.
  induction t as [|c t IH]; intros [bb eb k d] Ht Hd Hroom; simpl in *; [lia |].
  subst d. apply andb_true_iff in Ht as [Hc Ht].
  apply token_char_stored in Hc as (Hs & Hdash & _).
  unfold scan_char. rewrite Hs, Hdash. simpl.
  unfold store_char. destruct (decide (k < length bb)%nat); [| done].
  simpl. apply IH; simpl; rewrite ?length_insert; [done | done | lia].
Qed.

(** C9.  The scan stores every token character at the next index with no
    test against the array size: a segment that starts with six or more
    token characters makes [_order_pdf_pages] write past the fifth cell
    of [num_begin_ary].  Nothing is truncated. *)
Theorem C9_token_buffer_overrun (N : Z) (pages : list Z) (idx : Z)
    (token rest : list ascii) :
  forallb token_char token = true ->
  (5 < length token)%nat ->
  _order_pdf_pages N pages idx (token ++ rest) = Undefined TokenBufferOverrun.
Proof.
  intros Ht Hlen. unfold _order_pdf_pages, parse_segment.
  rewrite scan_loop_app.
  rewrite (scan_loop_overrun token scan_init); [done | done | done |].
  simpl. lia.
Qed.

Lemma c_string_token (t rest : list ascii) :
  forallb token_char t = true ->
  c_string (t ++ NUL :: rest) = Done t.
Proof.
  induction t as [|c t IH]; intros Ht; simpl in *; [done |].
  apply andb_true_iff in Ht as [Hc Ht].
  apply token_char_stored in Hc as (_ & _ & Hnul).
  rewrite Hnul. by rewrite IH.
Qed.

Lemma written_0_blank (t : list ascii) :
  (length t <= 4)%nat ->
  written (replicate 5 NUL) 0 t = t ++ NUL :: replicate (4 - length t) NUL.
Proof.
  intros Hlen. unfold written. rewrite take_0, drop_replicate.
  cbn [app Nat.add].
  by replace (5 - length t)%nat with (S (4 - length t)) by lia.
Qed.

Lemma forallb_drop (n : nat) (t : list ascii) :
  forallb token_char t = true -> forallb token_char (drop n t) = true.
Proof.
  rewrite !forallb_forall. intros H c Hc. apply H.
  apply list_elem_of_In. apply list_elem_of_In in Hc.
  by apply (subseteq_drop n t).
Qed.

(** C8 (amended).  Every dash of a segment, not only the first, sets the
    store index back to 0: the characters after a second dash are stored
    over the end token from its first cell.  For a segment a-b-c of
    token characters, each part at most four long, the begin token is a
    and the end token is c followed by what b has beyond the length of
    c: "1-2-3" gives the end token "3", "1-23-4" gives "43". *)
Theorem C8_later_dash_restarts_end_token (a b c : list ascii) :
  forallb token_char a = true ->
  forallb token_char b = true ->
  forallb token_char c = true ->
  (length a <= 4)%nat -> (length b <= 4)%nat -> (length c <= 4)%nat ->
  let segment := a ++ "-"%char :: b ++ "-"%char :: c in
  begin_token segment = Done a /\
  end_token segment = Done (c ++ drop (length c) b).
Proof.
  intros Ha Hb Hc La Lb Lc segment.
  assert (Hscan : scan_loop scan_init segment
            = Done (mk_scan (written (replicate 5 NUL) 0 a)
                            (written (written (replicate 5 NUL) 0 b) 0 c)
                            (length c) true)).
  { unfold segment. rewrite scan_loop_app.
    rewrite (scan_loop_begin a scan_init) by (simpl; done || lia).
    cbn [bind scan_loop]. rewrite scan_char_dash. cbn [bind].
    rewrite scan_loop_app.
    rewrite scan_loop_end by (simpl; done || lia).
    cbn [bind scan_loop]. rewrite scan_char_dash. cbn [bind].
    rewrite scan_loop_end; simpl; [done | done | done |].
    rewrite written_0_blank by done.
    rewrite length_app, length_cons, length_replicate. lia. }
  unfold begin_token, end_token. rewrite Hscan. unfold bind, fill_end.
  cbn [dash_encountered negb num_begin_ary num_end_ary].
  split.
  - rewrite written_0_blank by done. by apply c_string_token.
  - rewrite (written_0_blank b) by done.
    unfold written. rewrite take_0. cbn [app Nat.add].
    rewrite drop_app.
    replace (drop (length c - length b) (NUL :: replicate (4 - length b) NUL))
      with (NUL :: replicate (4 - Nat.max (length b) (length c)) NUL).
    + rewrite app_assoc. apply c_string_token.
      rewrite forallb_app, Hc. simpl. by apply forallb_drop.
    + change (NUL :: replicate ?n NUL) with (replicate (S n) NUL).
      rewrite drop_replicate. f_equal. lia.
Qed.

(** ** Facts about the order of transmission *)

Lemma read_int_done (pages : list Z) (i : nat) (v : Z) :
  pages !! i = Some v -> read_int pages (Z.of_nat i) = Done v.
Proof.
  intros Hv. unfold read_int. destruct (decide _) as [_|Hn]; [| lia].
  by rewrite Nat2Z.id, Hv.
Qed.

Lemma print_forward_once (job_handle : Z) (pathname : list ascii)
    (num_pages : Z) (pages : list Z) (page_index res : Z) (w : trace) :
  print_forward job_handle pathname num_pages pages page_index res w
  = if decide (page_index < num_pages) then
      page <~ read_int pages page_index ;;
      let rw := call (wprintPage job_handle page (Some pathname) false true) w in
      if decide (rw.1 = OK)
      then print_forward job_handle pathname num_pages pages
                         (page_index + 1) rw.1 rw.2
      else Done rw
    else Done (res, w).
Proof.
  rewrite print_forward_equation_1.
  destruct (decide (page_index < _)); simpl; [| done].
  destruct (read_int pages page_index); simpl; [| done].
  by destruct (decide (service w _ = OK)).
Qed.

Lemma print_backward_once (job_handle : Z) (pathname : list ascii)
    (pages : list Z) (page_index res : Z) (w : trace) :
  print_backward job_handle pathname pages page_index res w
  = if decide (0 <= page_index) then
      page <~ read_int pages page_index ;;
      let rw := call (wprintPage job_handle page (Some pathname) false true) w in
      if decide (rw.1 = OK)
      then print_backward job_handle pathname pages (page_index - 1) rw.1 rw.2
      else Done rw
    else Done (res, w).
Proof.
  rewrite print_backward_equation_1.
  destruct (decide (0 <= _)); simpl; [| done].
  destruct (read_int pages page_index); simpl; [| done].
  by destruct (decide (service w _ = OK)).
Qed.

(** Face down: cells [i], [i+1], ... up to [num_pages - 1]. *)
Lemma print_forward_transmit (job_handle : Z) (pathname : list ascii)
    (pages : list Z) (n : nat) : forall (i : nat) (res : Z) (w : trace),
  (i + n <= length pages)%nat ->
  print_forward job_handle pathname (Z.of_nat (i + n)) pages (Z.of_nat i) res w
  = Done (transmit job_handle pathname (take n (drop i pages)) res w).
Proof.
  induction n as [|n IH]; intros i res w Hroom; rewrite print_forward_once.
  - destruct (decide _); [lia | done].
  - destruct (decide _) as [_|Hn]; [| lia].
    destruct (lookup_lt_is_Some_2 pages i) as [v Hv]; [lia |].
    rewrite (read_int_done _ _ v Hv). cbn [bind].
    rewrite (drop_S _ v _ Hv). cbn [take transmit].
    destruct (decide _); [| done].
    replace (Z.of_nat i + 1) with (Z.of_nat (S i)) by lia.
    replace (i + S n)%nat with (S i + n)%nat by lia.
    apply IH. lia.
Qed.

(** Face up: cells [n-1], [n-2], ... down to 0. *)
Lemma print_backward_transmit (job_handle : Z) (pathname : list ascii)
    (pages : list Z) (n : nat) : forall (res : Z) (w : trace),
  (n <= length pages)%nat ->
  print_backward job_handle pathname pages (Z.of_nat n - 1) res w
  = Done (transmit job_handle pathname (rev (take n pages)) res w).
Proof.
  induction n as [|n IH]; intros res w Hroom; rewrite print_backward_once.
  - destruct (decide _); [lia | done].
  - destruct (decide _) as [_|Hn]; [| lia].
    destruct (lookup_lt_is_Some_2 pages n) as [v Hv]; [lia |].
    replace (Z.of_nat (S n) - 1) with (Z.of_nat n) by lia.
    rewrite (read_int_done _ _ v Hv). cbn [bind].
    rewrite (take_S_r _ _ v Hv), rev_app_distr. cbn [rev app transmit].
    destruct (decide _); [| done].
    apply IH. lia.
Qed.

Lemma send_documents_once (rq : job_request) (params : wprint_job_params_t)
    (caps : printer_capabilities_t) (array : list (option (list ascii)))
    (st : range_state) (job_handle incrementor pageIndex index res : Z)
    (w : trace) :
  send_documents rq params caps array st job_handle incrementor
                 pageIndex index res w
  = if decide (res = OK /\ pageIndex <= Z.of_nat (length array)) then
      rw <~ send_document rq params caps array st job_handle pageIndex index w ;;
      send_documents rq params caps array st job_handle incrementor
                     (pageIndex + 1) (index + incrementor) rw.1 rw.2
    else Done (res, pageIndex, w).
Proof.
  rewrite send_documents_equation_1. unfold send_document.
  destruct (decide (res = OK /\ _)); simpl; [| done].
  destruct (array_get array index) as [pageStr|]; simpl; [| done].
  destruct (_is_pdf_doc _ _); simpl; [| done].
  by destruct (_print_pdf_pages _ _ _ _ _ _ _).
Qed.

Lemma send_documents_up (rq : job_request) (params : wprint_job_params_t)
    (caps : printer_capabilities_t) (array : list (option (list ascii)))
    (st : range_state) (job_handle : Z) (n : nat) :
  forall (i : nat) (pageIndex res : Z) (w : trace),
    Z.of_nat n = Z.of_nat (length array) + 1 - pageIndex ->
    send_documents rq params caps array st job_handle 1
                   pageIndex (Z.of_nat i) res w
    = send_in_order rq params caps array st job_handle
                    (map Z.of_nat (seq i n)) pageIndex res w.
Proof.
  induction n as [|n IH]; intros i pageIndex res w Hn;
    rewrite send_documents_once; cbn [seq map send_in_order].
  - destruct (decide _); [lia | done].
  - destruct (decide (res = OK)) as [Hres|Hres].
    + destruct (decide _) as [_|Hno]; [| lia].
      destruct (send_document _ _ _ _ _ _ _ _ _); cbn [bind]; [| done].
      replace (Z.of_nat i + 1) with (Z.of_nat (S i)) by lia.
      apply IH. lia.
    + destruct (decide _) as [[Hyes _]|_]; done.
Qed.

Lemma send_documents_down (rq : job_request) (params : wprint_job_params_t)
    (caps : printer_capabilities_t) (array : list (option (list ascii)))
    (st : range_state) (job_handle : Z) (n : nat) :
  forall (pageIndex res : Z) (w : trace),
    Z.of_nat n = Z.of_nat (length array) + 1 - pageIndex ->
    send_documents rq params caps array st job_handle (-1)
                   pageIndex (Z.of_nat n - 1) res w
    = send_in_order rq params caps array st job_handle
                    (rev (map Z.of_nat (seq 0 n))) pageIndex res w.
Proof.
  induction n as [|n IH]; intros pageIndex res w Hn;
    rewrite send_documents_once.
  - destruct (decide _); [lia | done].
  - rewrite seq_S, map_app, rev_app_distr. cbn [map rev app send_in_order Nat.add].
    replace (Z.of_nat (S n) - 1) with (Z.of_nat n) by lia.
    destruct (decide (res = OK)) as [Hres|Hres].
    + destruct (decide _) as [_|Hno]; [| lia].
      destruct (send_document _ _ _ _ _ _ _ _ _); cbn [bind]; [| done].
      replace (Z.of_nat n + -1) with (Z.of_nat n - 1) by lia.
      apply IH. lia.
    + destruct (decide _) as [[Hyes _]|_]; done.
Qed.

(** C3.  Within one document, the resolved pages are handed to the
    service in their order when the tray is face down and in reverse
    order when it is face up, and no page follows a call that did not
    return OK.  Across documents the loop visits index 0, 1, ... when
    face down and len-1, len-2, ... when face up, as long as the result
    is OK; three documents on a face-up printer whose calls all succeed
    are sent as documents 2, 1, 0. *)
Theorem C3_transmission_order :
  (forall (job_handle : Z) (caps : printer_capabilities_t) (dup : Z)
          (pathname : list ascii) (num_index : Z) (pages : list Z) (w : trace),
      0 <= num_index <= Z.of_nat (length pages) ->
      _print_pdf_pages job_handle caps dup pathname num_index pages w
      = Done (transmit job_handle pathname
                (if faceDownTray caps then resolved pages num_index
                 else rev (resolved pages num_index))
                ERROR w)) /\
  (forall (rq : job_request) (params : wprint_job_params_t)
          (caps : printer_capabilities_t) (array : list (option (list ascii)))
          (st : range_state) (job_handle : Z) (w : trace),
      let len := Z.of_nat (length array) in
      send_documents rq params caps array st job_handle
        (if faceDownTray caps then 1 else -1) 1
        (if faceDownTray caps then 0 else len - 1) OK w
      = send_in_order rq params caps array st job_handle
          (document_order (faceDownTray caps) (length array)) 1 OK w) /\
  document_order false 3 = [2; 1; 0] /\
  (forall (rq : job_request) (params : wprint_job_params_t)
          (caps : printer_capabilities_t) (st : range_state)
          (d0 d1 d2 : list ascii) (job_handle : Z) (w : trace),
      (forall w' c, service w' c = OK) ->
      mimeTypeStr rq = None ->
      faceDownTray caps = false ->
      submit_job rq params caps [Some d0; Some d1; Some d2] st job_handle w
      = Done (job_handle,
              w ++ [wprintPage job_handle 1 (Some d2) false false;
                    wprintPage job_handle 2 (Some d1) false false;
                    wprintPage job_handle 3 (Some d0) false false;
                    wprintPage job_handle 4 None true false])).
Proof.
  split; [| split; [| split]].
  - intros job_handle caps dup pathname num_index pages w Hidx.
    assert (Hn : num_index = Z.of_nat (Z.to_nat num_index)) by lia.
    revert Hn Hidx. generalize (Z.to_nat num_index). intros n -> Hidx.
    unfold _print_pdf_pages, resolved. rewrite Nat2Z.id.
    destruct (faceDownTray caps).
    + apply (print_forward_transmit job_handle pathname pages n 0). lia.
    + apply print_backward_transmit. lia.
  - intros rq params caps array st job_handle w len.
    unfold document_order. destruct (faceDownTray caps).
    + change 0 with (Z.of_nat 0). apply send_documents_up. lia.
    + apply send_documents_down. lia.
  - done.
  - intros rq params caps st d0 d1 d2 job_handle w Hok Hmime Hup.
    unfold submit_job. rewrite Hup.
    change (Z.of_nat (length [Some d0; Some d1; Some d2]) - 1)
      with (Z.of_nat 3 - 1).
    rewrite (send_documents_down _ _ _ _ _ _ 3) by (simpl; lia).
    cbn [seq map rev app send_in_order].
    unfold send_document, _is_pdf_doc, call. rewrite Hmime.
    repeat (destruct (decide (OK = OK)) as [_|Hn]; [| done];
            cbn [array_get bind fst snd]; simpl;
            rewrite ?Hok).
    destruct (decide (OK = OK)) as [_|Hn]; [| done].
    by rewrite <- !app_assoc.
Qed.

(** ** Facts about the end marker *)

Lemma markers_app (w1 w2 : trace) :
  markers (w1 ++ w2) = (markers w1 + markers w2)%nat.
Proof. induction w1 as [|c w1 IH]; simpl; [done | rewrite IH; lia]. Qed.

Lemma markers_call (c : wprint_call) (w : trace) :
  markers (call c w).2 = (markers w + if is_marker c then 1 else 0)%nat.
Proof. unfold call. cbn [snd]. rewrite markers_app. simpl. lia. Qed.

Lemma print_forward_markers (job_handle : Z) (pathname : list ascii)
    (num_pages : Z) (pages : list Z) (n : nat) :
  forall (page_index res res' : Z) (w w' : trace),
    n = Z.to_nat (num_pages - page_index) ->
    print_forward job_handle pathname num_pages pages page_index res w
    = Done (res', w') ->
    markers w' = markers w.
Proof.
  induction n as [|n IH]; intros page_index res res' w w' Hn;
    rewrite print_forward_once;
    (destruct (decide _) as [Hlt|Hge]; [| by intros [= <- <-]]); [lia |].
  destruct (read_int pages page_index) as [page|u]; cbn [bind]; [| done].
  destruct (decide _) as [Hok|Hfail].
  - intros Hrun. apply IH in Hrun; [| lia].
    by rewrite Hrun, markers_call, Nat.add_0_r.
  - intros Hrun. injection Hrun as _ <-.
    by rewrite markers_app, Nat.add_0_r.
Qed.

Lemma print_backward_markers (job_handle : Z) (pathname : list ascii)
    (pages : list Z) (n : nat) :
  forall (page_index res res' : Z) (w w' : trace),
    n = Z.to_nat (page_index + 1) ->
    print_backward job_handle pathname pages page_index res w
    = Done (res', w') ->
    markers w' = markers w.
Proof.
  induction n as [|n IH]; intros page_index res res' w w' Hn;
    rewrite print_backward_once;
    (destruct (decide _) as [Hlt|Hge]; [| by intros [= <- <-]]); [lia |].
  destruct (read_int pages page_index) as [page|u]; cbn [bind]; [| done].
  destruct (decide _) as [Hok|Hfail].
  - intros Hrun. apply IH in Hrun; [| lia].
    by rewrite Hrun, markers_call, Nat.add_0_r.
  - intros Hrun. injection Hrun as _ <-.
    by rewrite markers_app, Nat.add_0_r.
Qed.

Lemma send_document_markers (rq : job_request) (params : wprint_job_params_t)
    (caps : printer_capabilities_t) (array : list (option (list ascii)))
    (st : range_state) (job_handle pageIndex index res' : Z) (w w' : trace) :
  send_document rq params caps array st job_handle pageIndex index w
  = Done (res', w') ->
  markers w' = markers w.
Proof.
  unfold send_document.
  destruct (array_get array index) as [pageStr|]; [| by intros [= <- <-]].
  destruct (_is_pdf_doc _ _).
  - unfold _print_pdf_pages. destruct (faceDownTray caps).
    + intros Hrun. by eapply print_forward_markers.
    + intros Hrun. by eapply print_backward_markers.
  - intros Hrun. injection Hrun as _ <-.
    by rewrite markers_app, Nat.add_0_r.
Qed.

Lemma send_documents_markers (rq : job_request) (params : wprint_job_params_t)
    (caps : printer_capabilities_t) (array : list (option (list ascii)))
    (st : range_state) (job_handle incrementor : Z) (n : nat) :
  forall (pageIndex index res res' pageIndex' : Z) (w w' : trace),
    n = Z.to_nat (Z.of_nat (length array) + 1 - pageIndex) ->
    send_documents rq params caps array st job_handle incrementor
                   pageIndex index res w
    = Done (res', pageIndex', w') ->
    markers w' = markers w.
Proof.
  induction n as [|n IH]; intros pageIndex index res res' pageIndex' w w' Hn;
    rewrite send_documents_once;
    (destruct (decide _) as [[_ Hle]|Hno]; [| by intros [= <- <- <-]]);
    [lia |].
  intros Hrun. apply bind_done in Hrun as ([r1 w1] & Hdoc & Hrest).
  apply send_document_markers in Hdoc.
  apply IH in Hrest; [| lia]. cbn [snd] in Hrest. congruence.
Qed.

Lemma forallb_page_send_app (w1 w2 : trace) :
  forallb is_page_send (w1 ++ w2) = forallb is_page_send w1 && forallb is_page_send w2.
Proof. apply forallb_app. Qed.

Lemma print_forward_sends (job_handle : Z) (pathname : list ascii)
    (num_pages : Z) (pages : list Z) (n : nat) :
  forall (page_index res res' : Z) (w w' : trace),
    n = Z.to_nat (num_pages - page_index) ->
    print_forward job_handle pathname num_pages pages page_index res w
    = Done (res', w') ->
    exists added, w' = w ++ added /\ forallb is_page_send added = true.
Proof.
  induction n as [|n IH]; intros page_index res res' w w' Hn;
    rewrite print_forward_once;
    (destruct (decide _) as [Hlt|Hge];
     [| intros [= <- <-]; exists []; by rewrite app_nil_r]); [lia |].
  destruct (read_int pages page_index) as [page|u]; cbn [bind]; [| done].
  unfold call. cbn [fst snd]. destruct (decide _) as [Hok|Hfail].
  - intros Hrun. apply IH in Hrun as (added & -> & Hadded); [| lia].
    eexists (_ :: added). by rewrite <- app_assoc.
  - intros [= <- <-]. by eexists [_].
Qed.

Lemma print_backward_sends (job_handle : Z) (pathname : list ascii)
    (pages : list Z) (n : nat) :
  forall (page_index res res' : Z) (w w' : trace),
    n = Z.to_nat (page_index + 1) ->
    print_backward job_handle pathname pages page_index res w
    = Done (res', w') ->
    exists added, w' = w ++ added /\ forallb is_page_send added = true.
Proof.
  induction n as [|n IH]; intros page_index res res' w w' Hn;
    rewrite print_backward_once;
    (destruct (decide _) as [Hlt|Hge];
     [| intros [= <- <-]; exists []; by rewrite app_nil_r]); [lia |].
  destruct (read_int pages page_index) as [page|u]; cbn [bind]; [| done].
  unfold call. cbn [fst snd]. destruct (decide _) as [Hok|Hfail].
  - intros Hrun. apply IH in Hrun as (added & -> & Hadded); [| lia].
    eexists (_ :: added). by rewrite <- app_assoc.
  - intros [= <- <-]. by eexists [_].
Qed.

Lemma send_document_sends (rq : job_request) (params : wprint_job_params_t)
    (caps : printer_capabilities_t) (array : list (option (list ascii)))
    (st : range_state) (job_handle pageIndex index res' : Z) (w w' : trace) :
  send_document rq params caps array st job_handle pageIndex index w
  = Done (res', w') ->
  exists added, w' = w ++ added /\ forallb is_page_send added = true.
Proof.
  unfold send_document.
  destruct (array_get array index) as [pageStr|];
    [| intros [= <- <-]; exists []; by rewrite app_nil_r].
  destruct (_is_pdf_doc _ _).
  - unfold _print_pdf_pages. destruct (faceDownTray caps).
    + intros Hrun. by eapply print_forward_sends.
    + intros Hrun. by eapply print_backward_sends.
  - intros [= <- <-]. by eexists [_].
Qed.

Lemma send_documents_sends (rq : job_request) (params : wprint_job_params_t)
    (caps : printer_capabilities_t) (array : list (option (list ascii)))
    (st : range_state) (job_handle incrementor : Z) (n : nat) :
  forall (pageIndex index res res' pageIndex' : Z) (w w' : trace),
    n = Z.to_nat (Z.of_nat (length array) + 1 - pageIndex) ->
    send_documents rq params caps array st job_handle incrementor
                   pageIndex index res w
    = Done (res', pageIndex', w') ->
    exists added, w' = w ++ added /\ forallb is_page_send added = true.
Proof.
  induction n as [|n IH]; intros pageIndex index res res' pageIndex' w w' Hn;
    rewrite send_documents_once;
    (destruct (decide _) as [[_ Hle]|Hno];
     [| intros [= <- <- <-]; exists []; by rewrite app_nil_r]); [lia |].
  intros Hrun. apply bind_done in Hrun as ([r1 w1] & Hdoc & Hrest).
  apply send_document_sends in Hdoc as (a1 & -> & Ha1).
  apply IH in Hrest as (a2 & -> & Ha2); [| lia]. cbn [snd].
  exists (a1 ++ a2). rewrite app_assoc. split; [done |].
  by rewrite forallb_page_send_app, Ha1, Ha2.
Qed.

(** C7 (amended).  The marker call, with a null file name and the
    last-page flag set, is made once per job, after the loop over all
    documents: the calls of a started job are those of the loop, none of
    them a marker, then the marker, numbered with the page index the
    loop ended on, then nothing, or the cancel and the end of the job
    when a transmission failed.  So there is no marker between two
    documents, whatever their number. *)
Theorem C7_one_marker_per_job (rq : job_request) (params : wprint_job_params_t)
    (caps : printer_capabilities_t) (array : list (option (list ascii)))
    (st : range_state) (res job_handle : Z) (w w' : trace) :
  submit_job rq params caps array st res w = Done (job_handle, w') ->
  exists (r pageIndex : Z) (sent closing : trace),
    send_documents rq params caps array st res
                   (if faceDownTray caps then 1 else -1) 1
                   (if faceDownTray caps then 0
                    else Z.of_nat (length array) - 1) OK w
    = Done (r, pageIndex, w ++ sent) /\
    markers sent = 0%nat /\
    w' = w ++ sent ++ wprintPage res pageIndex None true false :: closing /\
    (closing = [] \/ closing = [wprintCancelJob res; wprintEndJob res]) /\
    markers w' = (markers w + 1)%nat.
Proof.
  intros Hrun. unfold submit_job in Hrun.
  apply bind_done in Hrun as ([[r pageIndex] w1] & Hloop & Hend).
  pose proof Hloop as Hmarkers.
  apply send_documents_markers with (n := length array) in Hmarkers; [| lia].
  pose proof Hloop as Hsent.
  apply send_documents_sends with (n := length array) in Hsent
    as (sent & -> & _); [| lia].
  rewrite markers_app in Hmarkers.
  assert (Hnone : markers sent = 0%nat) by lia.
  unfold call in Hend. cbn [fst snd] in Hend.
  exists r, pageIndex, sent.
  destruct (decide (r = OK)); injection Hend as _ <-.
  - exists []. split; [done |]. split; [done |].
    split; [by rewrite <- app_assoc |]. split; [by left |].
    rewrite !markers_app, Hnone. simpl. lia.
  - exists [wprintCancelJob res; wprintEndJob res].
    split; [done |]. split; [done |].
    split; [by rewrite <- !app_assoc |]. split; [by right |].
    rewrite !markers_app, Hnone. simpl. lia.
Qed.

(** ** Facts about the scaling block *)

Lemma strlcpy_into_fits (capacity size : nat) (dst src : list ascii) :
  (length src < size)%nat -> (length src < capacity)%nat ->
  strlcpy_into capacity dst src size = Done src.
Proof.
  intros Hsize Hcap. unfold strlcpy_into, Libc.strlcpy.
  destruct size as [|n]; [lia |].
  rewrite take_ge by lia.
  by destruct (decide _).
Qed.

Lemma copy_if_supported_spec (name : list ascii) (supported : list (list ascii))
    (buf : list ascii) :
  (length name < MAX_PRINT_SCALING_LENGTH)%nat ->
  copy_if_supported name supported buf
  = Done (if bool_decide (name ∈ supported) then (name, true) else (buf, false)).
Proof.
  intros Hfit. induction supported as [|s rest IH]; cbn [copy_if_supported].
  - rewrite bool_decide_eq_false_2; [done | apply not_elem_of_nil].
  - unfold Libc.streq. destruct (bool_decide_reflect (s = name)) as [->|Hne].
    + rewrite strlcpy_into_fits by done. cbn [bind].
      rewrite bool_decide_eq_true_2; [done |]. apply elem_of_cons. by left.
    + rewrite IH. f_equal.
      destruct (bool_decide_reflect (name ∈ rest)) as [Hin|Hnin].
      * rewrite bool_decide_eq_true_2; [done |]. apply elem_of_cons. by right.
      * rewrite bool_decide_eq_false_2; [done |].
        rewrite elem_of_cons. intros [Heq | Hin]; [by apply Hne | done].
Qed.

(** C4.  With buffers that hold the strings involved, the scaling block
    writes into the job parameters: for a format other than PDF
    pass-through, "none" when the printer lists it and the empty string
    otherwise; for PDF pass-through with neither (Photo and shared
    photo) nor preserve-scaling, "auto" when the printer lists it,
    otherwise the printer's default when that is not empty, otherwise
    "fit".  The other parameters are left as they are. *)
Theorem C4_scaling_selection (print_format : list ascii)
    (params : wprint_job_params_t) (caps : printer_capabilities_t)
    (shared_photo preserve_scaling : bool) :
  (5 <= MAX_PRINT_SCALING_LENGTH)%nat ->
  (5 <= sizeof_print_scaling)%nat ->
  (length (print_scaling_default caps) < MAX_PRINT_SCALING_LENGTH)%nat ->
  (length (print_scaling_default caps) < sizeof_print_scaling_default)%nat ->
  (length (print_scaling_default caps) < sizeof_print_scaling)%nat ->
  let supported name :=
    bool_decide (chars name ∈ print_scalings_supported caps) in
  let is_photo := Libc.strcaseeq (docCategory params) (chars "Photo") in
  exists params',
    set_print_scaling print_format params caps shared_photo preserve_scaling
    = Done params' /\
    duplex params' = duplex params /\
    docCategory params' = docCategory params /\
    job_pages_per_set params' = job_pages_per_set params /\
    (Libc.streq print_format PRINT_FORMAT_PDF = false ->
     print_scaling params'
     = if supported "none" then chars "none" else []) /\
    (Libc.streq print_format PRINT_FORMAT_PDF = true ->
     (is_photo && shared_photo) || preserve_scaling = false ->
     print_scaling params'
     = if supported "auto" then chars "auto"
       else if Libc.streq (print_scaling_default caps) []
            then chars "fit" else print_scaling_default caps).
Proof.
  intros HM HP Hd1 Hd2 Hd3 supported is_photo.
  unfold set_print_scaling, select_print_scaling. fold is_photo.
  rewrite !copy_if_supported_spec by (simpl; lia).
  fold (supported "none"). fold (supported "auto").
  destruct (Libc.streq print_format PRINT_FORMAT_PDF);
    [destruct ((is_photo && shared_photo) || preserve_scaling) |].
  - destruct (supported "none"); cbn [bind fst snd];
      (rewrite strlcpy_into_fits by (simpl; lia)); cbn [bind];
      (eexists; split; [reflexivity |]); by repeat split.
  - destruct (supported "auto"); cbn [bind fst snd negb].
    + rewrite strlcpy_into_fits by (simpl; lia). cbn [bind].
      (eexists; split; [reflexivity |]); by repeat split.
    + destruct (Libc.streq (print_scaling_default caps) []); cbn [negb].
      * rewrite !strlcpy_into_fits by (simpl; lia). cbn [bind].
        rewrite !strlcpy_into_fits by (simpl; lia). cbn [bind].
        (eexists; split; [reflexivity |]); by repeat split.
      * rewrite !strlcpy_into_fits by done. cbn [bind].
        rewrite !strlcpy_into_fits by done. cbn [bind].
        (eexists; split; [reflexivity |]); by repeat split.
  - destruct (supported "none"); cbn [bind fst snd];
      (rewrite strlcpy_into_fits by (simpl; lia)); cbn [bind];
      (eexists; split; [reflexivity |]); by repeat split.
Qed.

(** ** Facts about the duplex block *)

Lemma set_print_scaling_duplex (print_format : list ascii)
    (params params' : wprint_job_params_t) (caps : printer_capabilities_t)
    (sp ps : bool) :
  set_print_scaling print_format params caps sp ps = Done params' ->
  duplex params' = duplex params.
Proof.
  unfold set_print_scaling. intros Hrun.
  apply bind_done in Hrun as (chosen & _ & Hrun).
  apply bind_done in Hrun as (str & _ & Hrun).
  by injection Hrun as <-.
Qed.

Lemma get_pdf_page_count_nonneg (mime : option (list ascii)) (pathname : list ascii) :
  0 <= (_get_pdf_page_count mime pathname).2.
Proof.
  unfold _get_pdf_page_count. destruct (negb _); simpl; [done |].
  destruct (Z.ltb_spec (openDocument pathname) 0); lia.
Qed.

(** C5.  For a job of one document, the parameters handed to the print
    service have duplex set to none when the document is not a PDF, and
    when it is a PDF whose resolved page list has exactly one page; with
    two or more resolved pages the duplex mode is the configured one.
    The page count compared is the index the resolver reports, which is
    the length of the resolved list. *)
Theorem C5_smart_duplex (rq : job_request) (params p : wprint_job_params_t)
    (caps : printer_capabilities_t) (doc : option (list ascii))
    (st : range_state) :
  prepare_job rq params caps [doc] = Done (p, st) ->
  let n := default 0 (page_range_arr st !! 0%nat) in
  (_is_pdf_doc (mimeTypeStr rq) doc = false -> duplex p = DUPLEX_MODE_NONE) /\
  (_is_pdf_doc (mimeTypeStr rq) doc = true -> n = 1 ->
   duplex p = DUPLEX_MODE_NONE) /\
  (_is_pdf_doc (mimeTypeStr rq) doc = true -> 2 <= n ->
   duplex p = duplex params) /\
  (_is_pdf_doc (mimeTypeStr rq) doc = true ->
   exists pathname pages str,
     doc = Some pathname /\
     _get_pdf_page_range (page_range rq)
       (default [] (pages_ary_rows (fresh_locals 1) !! 0%nat))
       (_get_pdf_page_count (mimeTypeStr rq) pathname).2 0
     = Done (pages, n, str) /\
     pages_ary_rows st !! 0%nat = Some pages /\
     Z.of_nat (length (resolved pages n)) = n).
Proof.
  intros Hrun n. unfold prepare_job in Hrun.
  apply bind_done in Hrun as (st' & Hpass & Hrun).
  apply bind_done in Hrun as (p' & Hscale & Hrun).
  apply bind_done in Hrun as (total & _ & Hrun).
  injection Hrun as <- <-.
  apply set_print_scaling_duplex in Hscale. cbn [duplex]. rewrite Hscale.
  change (array_get [doc] 0) with doc. change (length [doc]) with 1%nat.
  clear Hscale p'.
  assert (Hn : _is_pdf_doc (mimeTypeStr rq) doc = true ->
               exists pathname pages str,
                 doc = Some pathname /\
                 _get_pdf_page_range (page_range rq)
                   (default [] (pages_ary_rows (fresh_locals 1) !! 0%nat))
                   (_get_pdf_page_count (mimeTypeStr rq) pathname).2 0
                 = Done (pages, n, str) /\
                 pages_ary_rows st' !! 0%nat = Some pages /\
                 Z.of_nat (length (resolved pages n)) = n).
  { intros Hpdf. cbn [length seq range_pass] in Hpass.
    destruct (decide _) as [_|Hno]; [| done].
    apply bind_done in Hpass as (st1 & Hstep & Hst). injection Hst as ->.
    unfold range_step in Hstep. change (array_get [doc] (Z.of_nat 0)) with doc in Hstep.
    destruct doc as [pathname|];
      [| unfold _is_pdf_doc in Hpdf; by destruct (mimeTypeStr rq)].
    unfold _get_pdf_page_count in Hstep at 1. rewrite Hpdf in Hstep.
    cbn [negb fst] in Hstep.
    apply bind_done in Hstep as ([[pages idx] str] & Hrange & Hst).
    injection Hst as <-. cbn [fst snd] in *.
    subst n. cbn [page_range_arr fresh_locals replicate].
    change (default 0 (<[0%nat:=idx]> [0] !! 0%nat)) with idx.
    exists pathname, pages, str. repeat split; try done.
    eapply get_pdf_page_range_done; [| done].
    apply get_pdf_page_count_nonneg. }
  unfold smart_duplex. destruct (decide (1%nat = 1%nat)) as [_|Hno]; [| done].
  fold n. repeat split.
  - by intros ->.
  - intros -> ->. by destruct (decide (1 = 1)).
  - intros -> Hn2. destruct (decide (n = 1)); [lia | done].
  - done.
Qed.

(** ** Facts about the callback *)

Lemma count_reasons_defined (bits : Z) (todo : list nat) : forall count : nat,
  Forall (fun i => (i < 31)%nat) todo ->
  exists n, count_reasons bits todo count = Done n.
Proof.
  induction todo as [|i rest IH]; intros count Hall; simpl; [eauto |].
  apply Forall_cons in Hall as [Hi Hrest].
  unfold int_one_shl. destruct (decide _) as [_|Hno]; [| lia].
  simpl. by apply IH.
Qed.

(** C6.  The callback takes the failed-reason decoder and its bound
    exactly when the state is done and the outcome is ERROR or CORRUPT;
    for every other state and outcome (done with BAD_CERTIFICATE or
    CANCELLED, a blocked job, ...) it takes the blocked-reason decoder
    and its bound.  The strings it attaches, when any bit is counted,
    are those of the decoder selected.  The outcome codes are taken to
    be pairwise different, as the labels of one switch are. *)
Theorem C6_reason_table_selection (cb : wprint_job_callback_params_t) :
  NoDup [OK; ERROR; CANCELLED; CORRUPT; BAD_CERTIFICATE] ->
  (print_job_failed cb = true <->
   state cb = JOB_DONE /\
   (job_done_result cb = ERROR \/ job_done_result cb = CORRUPT)) /\
  (state cb <> JOB_DONE -> print_job_failed cb = false) /\
  (job_done_result cb = BAD_CERTIFICATE \/ job_done_result cb = CANCELLED ->
   print_job_failed cb = false) /\
  max_value_reasons cb
  = (if print_job_failed cb then IPP_JOB_STATE_REASON_MAX_VALUE
     else PRINT_STATUS_MAX_STATE) /\
  (forall job_handle : Z,
      max_value_reasons cb <= 31 ->
      exists (count : nat) (ev : JobCallbackParams),
        count_reasons (blocked_reasons cb)
                      (seq 0 (Z.to_nat (max_value_reasons cb))) 0 = Done count /\
        _wprint_callback_fn job_handle (Some cb) true true = Done (Some ev) /\
        blockedReasons ev
        = if decide (0 < count)%nat then
            Some (if print_job_failed cb
                  then processFailReasons (blocked_reasons cb) count
                  else processBlockStatus (blocked_reasons cb) count)
          else None).
Proof.
  clear DUPLEX_MODE_NONE MIME_TYPE_PDF PRINT_FORMAT_PDF
        MAX_PRINT_SCALING_LENGTH sizeof_print_scaling_default
        sizeof_print_scaling service openDocument stack.
  intros Hcodes.
  apply NoDup_cons in Hcodes as [H1 Hcodes].
  apply NoDup_cons in Hcodes as [H2 Hcodes].
  apply NoDup_cons in Hcodes as [H3 Hcodes].
  apply NoDup_cons in Hcodes as [H4 _].
  apply not_elem_of_cons in H1 as [D1 H1].
  apply not_elem_of_cons in H1 as [D2 H1].
  apply not_elem_of_cons in H1 as [D3 H1].
  apply not_elem_of_cons in H1 as [D4 _].
  apply not_elem_of_cons in H2 as [D5 H2].
  apply not_elem_of_cons in H2 as [D6 H2].
  apply not_elem_of_cons in H2 as [D7 _].
  apply not_elem_of_cons in H3 as [D8 H3].
  apply not_elem_of_cons in H3 as [D9 _].
  apply not_elem_of_cons in H4 as [D10 _].
  assert (Hiff : print_job_failed cb = true <->
                 state cb = JOB_DONE /\
                 (job_done_result cb = ERROR \/ job_done_result cb = CORRUPT)).
  { unfold print_job_failed, job_done_switch.
    repeat (destruct (decide _)); cbn [fst]; split;
      try discriminate; try tauto;
      try (intros [? [? | ?]]; subst; congruence). }
  split; [done |]. split; [| split; [| split]].
  - intros Hst. destruct (print_job_failed cb); [| done].
    destruct Hiff as [Hiff _]. destruct (Hiff eq_refl) as [Hdone _]. done.
  - intros Hres. destruct (print_job_failed cb); [| done].
    destruct Hiff as [Hiff _]. destruct (Hiff eq_refl) as [_ Hf].
    destruct Hres, Hf; congruence.
  - done.
  - intros job_handle Hbound.
    destruct (count_reasons_defined (blocked_reasons cb)
                (seq 0 (Z.to_nat (max_value_reasons cb))) 0) as [count Hcount].
    { apply Forall_forall. intros i Hi. apply elem_of_seq in Hi. lia. }
    exists count. unfold _wprint_callback_fn. cbn [negb].
    rewrite Hcount. cbn [bind]. eexists. by repeat split.
Qed.

(** ** More facts about the resolver *)

Lemma full_range_ok_all : forallb full_range_ok (seq 1 2000) = true.
Proof. vm_compute. reflexivity. Qed.

(** The fallback string of a document of 1 to 2000 pages. *)
Lemma full_range_parses (N : Z) :
  1 <= N <= MAX_NUM_PAGES ->
  Libc.strtok_all ","%char [] (full_range N) = [full_range N] /\
  parse_segment (full_range N) = Done (Some (1, N)).
Proof.
  intros HN. unfold MAX_NUM_PAGES in HN.
  pose proof full_range_ok_all as Hall.
  rewrite forallb_forall in Hall.
  assert (Hin : In (Z.to_nat N) (seq 1 2000)) by (apply in_seq; lia).
  specialize (Hall _ Hin).
  unfold full_range_ok in Hall. rewrite Z2Nat.id in Hall by lia.
  apply andb_true_iff in Hall as [Htok Hparse].
  apply bool_decide_eq_true_1 in Htok. split; [done |].
  destruct (parse_segment (full_range N)) as [[[b e]|]|]; try discriminate.
  apply andb_true_iff in Hparse as [Hb He].
  apply Z.eqb_eq in Hb, He. by subst.
Qed.

Lemma order_pdf_pages_not_numeric (N : Z) (pages : list Z) (idx : Z)
    (seg : list ascii) :
  parse_segment seg = Done None ->
  _order_pdf_pages N pages idx seg = Done (false, pages, idx).
Proof. intros Hparse. unfold _order_pdf_pages. by rewrite Hparse. Qed.

Lemma page_run_1_N (N : Z) : 1 <= N -> page_run 1 N = run_up 1 (Z.to_nat N).
Proof.
  intros HN. unfold page_run. replace (1 <=? N) with true by lia.
  f_equal. lia.
Qed.

(** Re-running the parser on "1-N" at index 0 stores 1, 2, ..., N. *)
Lemma fallback_from_0 (N : Z) (pages : list Z) :
  1 <= N <= MAX_NUM_PAGES ->
  Z.of_nat (length pages) = MAX_NUM_PAGES ->
  _order_pdf_pages N pages 0 (full_range N)
  = Done (true, written pages 0 (run_up 1 (Z.to_nat N)), N) /\
  resolved (written pages 0 (run_up 1 (Z.to_nat N))) N = run_up 1 (Z.to_nat N).
Proof.
  intros HN Hlen. destruct (full_range_parses N HN) as [_ Hparse].
  unfold MAX_NUM_PAGES in *.
  pose proof (order_pdf_pages_valid N pages 0 (full_range N) 1 N Hparse) as Hrun.
  rewrite page_run_1_N, length_run_up in Hrun by lia.
  change (Z.of_nat 0) with 0 in Hrun.
  change (0 + Z.to_nat N)%nat with (Z.to_nat N) in Hrun.
  rewrite Z2Nat.id in Hrun by lia.
  rewrite Hrun by lia. split.
  - done.
  - pose proof (resolved_written pages (run_up 1 (Z.to_nat N)) 0) as Hres.
    rewrite length_run_up in Hres. simpl in Hres.
    rewrite Z2Nat.id in Hres by lia. apply Hres. lia.
Qed.

(** X1.  With no page range, or an empty one, a document of 1 to 2000
    pages resolves to 1, 2, ..., N and the display string is "1-N". *)
Theorem absent_range_is_whole_document (pageRangeObject : option (list ascii))
    (pages : list Z) (N : Z) :
  pageRangeObject = None \/ pageRangeObject = Some [] ->
  1 <= N <= MAX_NUM_PAGES ->
  Z.of_nat (length pages) = MAX_NUM_PAGES ->
  exists pages',
    _get_pdf_page_range pageRangeObject pages N 0
    = Done (pages', N, full_range N) /\
    resolved pages' N = run_up 1 (Z.to_nat N).
Proof.
  intros Habsent HN Hlen.
  assert (Hcopy : copied_page_range pageRangeObject = None)
    by (by destruct Habsent as [-> | ->]).
  destruct (memset_pages_done pages Hlen) as (cleared & Hm & Hcl).
  unfold _get_pdf_page_range, requested_page_range. rewrite Hcopy.
  cbn [bind]. rewrite Hm. cbn [bind].
  destruct (full_range_parses N HN) as [-> _]. cbn [range_loop].
  destruct (fallback_from_0 N cleared HN) as [-> Hres]; [by rewrite Hcl |].
  cbn [bind fst snd]. eauto.
Qed.

(** X2.  When the first segment of a range is the one that fails, the
    list is exactly 1, 2, ..., N: nothing was stored before it.  The
    range is shorter than the display array, and the failing segment is
    one that the parser reads within its token arrays. *)
Theorem first_segment_failure_is_whole_document (range first : list ascii)
    (rest : list (list ascii)) (pages : list Z) (N : Z) :
  (length range < Z.to_nat MAX_NUM_PAGES)%nat ->
  Libc.strtok_all ","%char [] range = first :: rest ->
  (parse_segment first = Done None \/
   exists b e, parse_segment first = Done (Some (b, e)) /\
               ~ (1 <= b <= N /\ 1 <= e <= N)) ->
  1 <= N <= MAX_NUM_PAGES ->
  Z.of_nat (length pages) = MAX_NUM_PAGES ->
  exists pages',
    _get_pdf_page_range (Some range) pages N 0
    = Done (pages', N, full_range N) /\
    resolved pages' N = run_up 1 (Z.to_nat N).
Proof.
  intros Hfit Htok Hfail HN Hlen.
  assert (Hne : range <> []) by (by intros ->).
  destruct (get_pdf_page_range_requested range pages N Hne Hfit Hlen)
    as (cleared & Hcl & ->).
  rewrite Htok. cbn [range_loop].
  assert (Hfirst : _order_pdf_pages N cleared 0 first = Done (false, cleared, 0)).
  { destruct Hfail as [Hnone | (b & e & Hsome & Hout)].
    - by apply order_pdf_pages_not_numeric.
    - by eapply order_pdf_pages_out_of_range. }
  rewrite Hfirst. cbn [bind fst snd].
  destruct (fallback_from_0 N cleared HN) as [-> Hres]; [by rewrite Hcl |].
  cbn [bind fst snd]. eauto.
Qed.

(** X4.  A segment that fails stores nothing: the array and the index
    are as before the call, whatever they were. *)
Theorem failed_segment_stores_nothing (N : Z) (pages pages' : list Z)
    (idx idx' : Z) (seg : list ascii) :
  _order_pdf_pages N pages idx seg = Done (false, pages', idx') ->
  pages' = pages /\ idx' = idx.
Proof.
  unfold _order_pdf_pages. intros Hrun.
  apply bind_done in Hrun as (numbers & _ & Hrun).
  destruct numbers as [[b e]|]; [| by injection Hrun as <- <-].
  unfold store_range in Hrun.
  destruct ((0 <? b) && (0 <? e)); [| by injection Hrun as <- <-].
  destruct ((b <=? N) && (e <=? N)); [| by injection Hrun as <- <-].
  destruct (b <=? e);
    apply bind_done in Hrun as (r & _ & Hrun); discriminate.
Qed.

Lemma run_up_bounds (n : nat) : forall b : Z,
  Forall (fun p => b <= p < b + Z.of_nat n) (run_up b n).
Proof.
  induction n as [|n IH]; intros b; simpl; constructor; [lia |].
  eapply Forall_impl; [apply IH |]. simpl. intros p Hp. lia.
Qed.

Lemma run_down_bounds (n : nat) : forall b : Z,
  Forall (fun p => b - Z.of_nat n < p <= b) (run_down b n).
Proof.
  induction n as [|n IH]; intros b; simpl; constructor; [lia |].
  eapply Forall_impl; [apply IH |]. simpl. intros p Hp. lia.
Qed.

Lemma page_run_bounds (N b e : Z) :
  1 <= b <= N -> 1 <= e <= N ->
  Forall (fun p => 1 <= p <= N) (page_run b e).
Proof.
  intros Hb He. unfold page_run. destruct (Z.leb_spec b e).
  - eapply Forall_impl; [apply run_up_bounds |]. simpl. intros p Hp. lia.
  - eapply Forall_impl; [apply run_down_bounds |]. simpl. intros p Hp. lia.
Qed.

(** What one call of the parser adds to the resolved list. *)
Lemma order_pdf_pages_appends (N : Z) (pages pages' : list Z) (i : nat)
    (seg : list ascii) (idx' : Z) (ok : bool) :
  (i <= length pages)%nat ->
  _order_pdf_pages N pages (Z.of_nat i) seg = Done (ok, pages', idx') ->
  exists run,
    idx' = Z.of_nat (i + length run) /\
    (i + length run <= length pages')%nat /\
    resolved pages' idx' = resolved pages (Z.of_nat i) ++ run /\
    Forall (fun p => 1 <= p <= N) run.
Proof.
  intros Hi Hrun. destruct ok.
  - unfold _order_pdf_pages in Hrun.
    apply bind_done in Hrun as (numbers & Hparse & Hrun).
    destruct numbers as [[b e]|]; [| discriminate].
    assert (Hin : 1 <= b <= N /\ 1 <= e <= N).
    { unfold store_range in Hrun.
      destruct (Z.ltb_spec 0 b); destruct (Z.ltb_spec 0 e);
        simpl in Hrun; try discriminate.
      destruct (Z.leb_spec b N); destruct (Z.leb_spec e N);
        simpl in Hrun; try discriminate. lia. }
    destruct Hin as [Hb He].
    assert (HN : 0 <= N) by lia.
    pose proof (store_range_done N pages pages' i b e idx' true HN Hi Hrun)
      as (Hlen & Hidx & Hfit & _).
    assert (Hroom : (i + length (page_run b e) <= length pages)%nat).
    { destruct (decide (i + length (page_run b e) <= length pages)%nat)
        as [|Hno]; [done | exfalso].
      pose proof (length_page_run b e) as Hl.
      unfold store_range in Hrun.
      replace (0 <? b) with true in Hrun by lia.
      replace (0 <? e) with true in Hrun by lia.
      replace (b <=? N) with true in Hrun by lia.
      replace (e <=? N) with true in Hrun by lia.
      simpl in Hrun. destruct (Z.leb_spec b e).
      - replace (N <? e) with false in Hrun by lia.
        by rewrite (store_ascending_overrun (Z.to_nat (e - b + 1))) in Hrun by lia.
      - replace (N <? b) with false in Hrun by lia.
        by rewrite (store_descending_overrun (Z.to_nat (b - e + 1))) in Hrun by lia. }
    rewrite store_range_valid in Hrun by done. injection Hrun as <- <-.
    exists (page_run b e). rewrite length_written by done.
    split; [done |]. split; [done |].
    split; [by apply resolved_written | by apply page_run_bounds].
  - apply failed_segment_stores_nothing in Hrun as [-> ->].
    exists []. simpl. rewrite Nat.add_0_r, app_nil_r.
    split; [done |]. split; [done |]. split; [done | constructor].
Qed.

Lemma range_loop_pages_in_document (N : Z) (tokens : list (list ascii)) :
  forall (pages pages' : list Z) (i : nat) (str str' : list ascii) (idx' : Z),
    (i <= length pages)%nat ->
    Forall (fun p => 1 <= p <= N) (resolved pages (Z.of_nat i)) ->
    range_loop N pages (Z.of_nat i) str tokens = Done (pages', idx', str') ->
    Forall (fun p => 1 <= p <= N) (resolved pages' idx').
Proof.
  induction tokens as [|tok rest IH];
    intros pages pages' i str str' idx' Hi Hin Hrun.
  - simpl in Hrun. by injection Hrun as <- <- <-.
  - cbn [range_loop] in Hrun.
    apply bind_done in Hrun as ([[ok p1] i1] & Hfirst & Hrest).
    apply order_pdf_pages_appends in Hfirst as (run & -> & Hfit & Hres & Hrun);
      [| done].
    cbn [fst snd] in Hrest. destruct ok.
    + eapply IH; [| | exact Hrest]; [done |].
      rewrite Hres. by apply Forall_app.
    + apply bind_done in Hrest as ([[ok2 p2] i2] & Hsecond & Hret).
      apply order_pdf_pages_appends in Hsecond
        as (run2 & -> & Hfit2 & Hres2 & Hrun2); [| done].
      cbn [fst snd] in Hret. injection Hret as <- <- <-.
      rewrite Hres2, Hres. by repeat apply Forall_app_2.
Qed.

(** X3.  Whatever the page range, every page the resolver puts in the
    list is a page of the document: between 1 and N. *)
Theorem resolved_pages_are_in_document (pageRangeObject : option (list ascii))
    (pages pages' : list Z) (N idx' : Z) (str : list ascii) :
  _get_pdf_page_range pageRangeObject pages N 0 = Done (pages', idx', str) ->
  Forall (fun p => 1 <= p <= N) (resolved pages' idx').
Proof.
  intros Hrun.
  apply get_pdf_page_range_loop in Hrun as (cleared & str0 & _ & Hrun).
  eapply (range_loop_pages_in_document N _ _ _ 0%nat); [lia | | exact Hrun].
  constructor.
Qed.

(** ** More facts about the scan *)

Lemma scan_char_space (st : scan_state) (c : ascii) :
  Libc.isspace c = true -> scan_char st c = Done st.
Proof. intros Hc. unfold scan_char. by rewrite Hc. Qed.

Lemma scan_loop_skips_spaces (s : list ascii) : forall st : scan_state,
  scan_loop st (List.filter (fun c => negb (Libc.isspace c)) s) = scan_loop st s.
Proof.
  induction s as [|c s IH]; intros st; simpl; [done |].
  destruct (Libc.isspace c) eqn:Hc; simpl.
  - rewrite scan_char_space by done. simpl. apply IH.
  - destruct (scan_char st c); simpl; [apply IH | done].
Qed.

(** X5.  White space anywhere in a segment is ignored: the segment and
    the segment without its white space give the same result. *)
Theorem white_space_is_ignored (N : Z) (pages : list Z) (idx : Z)
    (seg : list ascii) :
  _order_pdf_pages N pages idx (List.filter (fun c => negb (Libc.isspace c)) seg)
  = _order_pdf_pages N pages idx seg.
Proof.
  unfold _order_pdf_pages, parse_segment. by rewrite scan_loop_skips_spaces.
Qed.

Lemma strtok_all_delims (s : list ascii) :
  Forall (fun c => c = ","%char) s -> Libc.strtok_all ","%char [] s = [].
Proof.
  induction 1 as [|c s -> _ IH]; [done |].
  simpl. exact IH.
Qed.

(** X6.  A page range made of commas only, shorter than the display
    array, for a document with its row of [MAX_NUM_PAGES] cells: there
    is no segment at all, the loop body never runs, nothing falls back
    to "1-N", and the resolved list is empty.  With [MAX_NUM_PAGES]
    commas or more the display array is left without terminator and is
    read past its end. *)
Theorem commas_only_resolve_to_nothing (range : list ascii) (pages : list Z)
    (N : Z) :
  range <> [] ->
  Forall (fun c => c = ","%char) range ->
  Z.of_nat (length pages) = MAX_NUM_PAGES ->
  ((length range < Z.to_nat MAX_NUM_PAGES)%nat ->
   exists cleared,
     memset_pages pages = Done cleared /\
     _get_pdf_page_range (Some range) pages N 0 = Done (cleared, 0, range) /\
     resolved cleared 0 = []) /\
  ((Z.to_nat MAX_NUM_PAGES <= length range)%nat ->
   _get_pdf_page_range (Some range) pages N 0 = Undefined RangeNotTerminated).
Proof.
  intros Hne Hcommas Hlen.
  assert (Hcopy : copied_page_range (Some range) = Some range)
    by (by destruct range).
  destruct (memset_pages_done pages Hlen) as (cleared & Hm & _).
  unfold _get_pdf_page_range, requested_page_range. rewrite Hcopy.
  split.
  - intros Hfit. exists cleared. split; [done |].
    rewrite copy_page_range_str_done by done. cbn [bind].
    rewrite Hm. cbn [bind]. by rewrite strtok_all_delims.
  - intros Hlong. unfold copy_page_range_str.
    destruct (decide _) as [Hfit|_]; [lia | done].
Qed.

Lemma c_string_unterminated (t : list ascii) :
  forallb token_char t = true -> c_string t = Undefined TokenNotTerminated.
Proof.
  induction t as [|c t IH]; intros Ht; simpl in *; [done |].
  apply andb_true_iff in Ht as [Hc Ht].
  apply token_char_stored in Hc as (_ & _ & Hnul).
  rewrite Hnul. by rewrite IH.
Qed.

(** X7.  A token of exactly five characters fills [num_begin_ary] to its
    last cell: no write leaves the array, but no terminator is left
    either, and the numeric test reads past the array. *)
Theorem five_character_token_is_unterminated (N : Z) (pages : list Z) (idx : Z)
    (token : list ascii) :
  forallb token_char token = true ->
  length token = 5%nat ->
  scan_loop scan_init token
  = Done (mk_scan token (replicate 5 NUL) 5 false) /\
  _order_pdf_pages N pages idx token = Undefined TokenNotTerminated.
Proof.
  intros Ht Hlen.
  assert (Hscan : scan_loop scan_init token
                  = Done (mk_scan token (replicate 5 NUL) 5 false)).
  { rewrite (scan_loop_begin token scan_init) by (simpl; done || lia).
    simpl. unfold written. rewrite take_0, Hlen. simpl. by rewrite app_nil_r. }
  split; [done |].
  unfold _order_pdf_pages, parse_segment. rewrite Hscan.
  unfold bind at 2. unfold fill_end, token_numbers.
  cbn [dash_encountered negb num_begin_ary].
  by rewrite c_string_unterminated.
Qed.

(** The token arrays while at most four characters are stored: both have
    five cells, the last of which still holds the NUL of [memset], and
    the store index leaves room for the [n] characters to come. *)
Lemma scan_loop_short (s : list ascii) : forall st : scan_state,
  length (num_begin_ary st) = 5%nat -> length (num_end_ary st) = 5%nat ->
  num_begin_ary st !! 4%nat = Some NUL -> num_end_ary st !! 4%nat = Some NUL ->
  (num_counter st + length (List.filter stored_char s) <= 4)%nat ->
  exists st',
    scan_loop st s = Done st' /\
    length (num_begin_ary st') = 5%nat /\ length (num_end_ary st') = 5%nat /\
    num_begin_ary st' !! 4%nat = Some NUL /\ num_end_ary st' !! 4%nat = Some NUL.
Proof.
  induction s as [|c s IH]; intros [bb eb k d] Hlb Hle Hb He Hroom;
    simpl in *; [eauto 10 |].
  assert (Hsc : stored_char c
                = negb (Libc.isspace c) && negb (Libc.code c =? 45)%N) by done.
  rewrite Hsc in Hroom. clear Hsc. unfold scan_char.
  destruct (Libc.isspace c); simpl in *; [by apply IH |].
  destruct (Libc.code c =? 45)%N; simpl in *; [apply IH; simpl; (done || lia) |].
  unfold store_char. destruct d; simpl.
  - destruct (decide (k < length eb)%nat); [| lia]. simpl.
    apply IH; simpl; rewrite ?length_insert; try done; [| lia].
    by rewrite list_lookup_insert_ne by lia.
  - destruct (decide (k < length bb)%nat); [| lia]. simpl.
    apply IH; simpl; rewrite ?length_insert; try done; [| lia].
    by rewrite list_lookup_insert_ne by lia.
Qed.

Lemma c_string_terminated (buf : list ascii) : forall k : nat,
  buf !! k = Some NUL -> exists s, c_string buf = Done s.
Proof.
  induction buf as [|c buf IH]; intros k Hk; [done |].
  simpl. destruct (Libc.code c =? 0)%N eqn:Hc; [eauto |].
  destruct k as [|k]; simpl in Hk.
  - injection Hk as ->. discriminate.
  - destruct (IH k Hk) as [s ->]. simpl. eauto.
Qed.

Lemma store_ascending_undefined (n : nat) : forall (num_end : Z) (pages : list Z)
    (idx b count : Z) (u : undefined_behaviour),
  n = Z.to_nat (idx + num_end - b - count + 1) ->
  store_ascending num_end pages idx b count = Undefined u ->
  u = PagesArrayOverrun.
Proof.
  induction n as [|n IH]; intros num_end pages idx b count u Hn;
    rewrite store_ascending_once;
    (destruct (decide (count <= _)); [| discriminate]); [lia |].
  unfold store_int. destruct (decide _); simpl; [| by intros [= <-]].
  apply IH. lia.
Qed.

Lemma store_descending_undefined (n : nat) : forall (num_end : Z) (pages : list Z)
    (idx b count : Z) (u : undefined_behaviour),
  n = Z.to_nat (idx + b - num_end - count + 1) ->
  store_descending num_end pages idx b count = Undefined u ->
  u = PagesArrayOverrun.
Proof.
  induction n as [|n IH]; intros num_end pages idx b count u Hn;
    rewrite store_descending_once;
    (destruct (decide (count <= _)); [| discriminate]); [lia |].
  unfold store_int. destruct (decide _); simpl; [| by intros [= <-]].
  apply IH. lia.
Qed.

(** X8.  A segment with at most four characters besides white space and
    dashes never leaves the token arrays: its two tokens are read and
    converted, and the only way the call can still go wrong is by running
    off the page array. *)
Theorem short_segment_keeps_token_arrays (N : Z) (pages : list Z) (idx : Z)
    (seg : list ascii) :
  (length (List.filter stored_char seg) <= 4)%nat ->
  (exists numbers, parse_segment seg = Done numbers) /\
  (forall u, _order_pdf_pages N pages idx seg = Undefined u ->
             u = PagesArrayOverrun).
Proof.
  intros Hshort.
  destruct (scan_loop_short seg scan_init) as (st & Hscan & Hlb & Hle & Hb & He);
    try done.
  assert (Hparse : exists numbers, parse_segment seg = Done numbers).
  { unfold parse_segment. rewrite Hscan. cbn [bind].
    unfold token_numbers, log_not_numeric.
    assert (Hend : num_end_ary (fill_end st) !! 4%nat = Some NUL).
    { unfold fill_end. destruct (negb _); [| done]. simpl.
      by rewrite list_lookup_insert_ne by lia. }
    assert (Hbegin : num_begin_ary (fill_end st) = num_begin_ary st).
    { unfold fill_end. by destruct (negb _). }
    rewrite Hbegin.
    destruct (c_string_terminated _ _ Hb) as [sb ->].
    destruct (c_string_terminated _ _ Hend) as [se ->]. cbn [bind].
    destruct (negb (_isNumeric (Some sb))); [eauto |].
    destruct (negb (_isNumeric (Some se))); eauto. }
  split; [done |].
  destruct Hparse as [numbers Hparse]. intros u.
  unfold _order_pdf_pages. rewrite Hparse. cbn [bind].
  destruct numbers as [[b e]|]; [| discriminate].
  unfold store_range.
  destruct ((0 <? b) && (0 <? e)); [| discriminate].
  destruct ((b <=? N) && (e <=? N)); [| discriminate].
  destruct (b <=? e).
  - destruct (store_ascending _ _ _ _ _) eqn:Hloop; [discriminate |].
    simpl. intros [= <-]. by eapply store_ascending_undefined.
  - destruct (store_descending _ _ _ _ _) eqn:Hloop; [discriminate |].
    simpl. intros [= <-]. by eapply store_descending_undefined.
Qed.

(** ** Segments written with decimal digits *)

Lemma isdigit_facts (c : ascii) :
  Libc.isdigit c = true ->
  token_char c = true /\ Libc.isspace c = false /\ Libc.is_sign c = false /\
  (Libc.code c =? 45)%N = false /\ (Libc.code c =? 43)%N = false /\
  (Libc.code (Libc.tolower c) =? 120)%N = false /\
  (Libc.code c =? 46)%N = false.
Proof.
  destruct c as [[] [] [] [] [] [] [] []]; try discriminate; by intros _.
Qed.

Lemma forallb_digits_tokens (t : list ascii) :
  forallb Libc.isdigit t = true -> forallb token_char t = true.
Proof.
  rewrite !forallb_forall. intros H c Hc. by apply isdigit_facts, H.
Qed.

Lemma skip_digits (t : list ascii) :
  forallb Libc.isdigit t = true -> Libc.skip Libc.isdigit t = [].
Proof.
  induction t as [|c t IH]; simpl; [done |].
  intros [-> Ht]%andb_true_iff. by apply IH.
Qed.

(** A string of digits is numeric and [atoi] reads its value. *)
Lemma digits_are_numeric (t : list ascii) :
  forallb Libc.isdigit t = true -> t <> [] ->
  _isNumeric (Some t) = true /\ Libc.atoi t = Libc.digits_value 0 t.
Proof.
  intros Ht Hne. destruct t as [|c t]; [done |].
  assert (Hall := Ht). simpl in Ht. apply andb_true_iff in Ht as [Hc Ht].
  destruct (isdigit_facts c Hc) as (_ & Hsp & Hsg & Hm & Hp & _ & _).
  split.
  - unfold _isNumeric. rewrite Hsp. unfold Libc.strtod_end.
    cbn [Libc.skip]. rewrite Hsp, Hsg.
    assert (Hhex : match c :: t with
                   | z :: x :: t0 =>
                       if (Libc.code z =? 48)%N && (Libc.code (Libc.tolower x) =? 120)%N
                       then option_map (Libc.exponent_end "p"%char)
                                       (Libc.mantissa_end Libc.isxdigit t0)
                       else None
                   | _ => None
                   end = None).
    { destruct t as [|x t]; [done |]. simpl in Ht.
      apply andb_true_iff in Ht as [Hx _].
      destruct (isdigit_facts x Hx) as (_ & _ & _ & _ & _ & -> & _).
      by rewrite andb_false_r. }
    rewrite Hhex. unfold Libc.mantissa_end.
    rewrite (skip_digits (c :: t) Hall). by simpl.
  - unfold Libc.atoi. cbn [Libc.skip]. by rewrite Hsp, Hm, Hp.
Qed.

Lemma zero_token_facts :
  c_string (<[0%nat := "0"%char]> (replicate 5 NUL)) = Done (chars "0") /\
  _isNumeric (Some (chars "0")) = true /\ Libc.atoi (chars "0") = 0.
Proof. done. Qed.

(** X9.  A segment that is a number of one to four digits, between 1 and
    N, adds exactly that page. *)
Theorem single_number_segment (N : Z) (pages : list Z) (i : nat)
    (digits : list ascii) :
  forallb Libc.isdigit digits = true ->
  (1 <= length digits <= 4)%nat ->
  1 <= Libc.digits_value 0 digits <= N ->
  (i < length pages)%nat ->
  _order_pdf_pages N pages (Z.of_nat i) digits
  = Done (true, <[i := Libc.digits_value 0 digits]> pages, Z.of_nat (i + 1)).
Proof.
  intros Hd Hlen Hv Hroom. set (v := Libc.digits_value 0 digits) in *.
  assert (Hparse : parse_segment digits = Done (Some (v, v))).
  { unfold parse_segment.
    rewrite (scan_loop_begin digits scan_init)
      by (simpl; (by apply forallb_digits_tokens) || done || lia).
    cbn [bind]. unfold fill_end, token_numbers.
    cbn [dash_encountered negb num_begin_ary num_end_ary num_counter scan_init].
    rewrite written_0_blank by lia.
    rewrite c_string_token by (by apply forallb_digits_tokens). cbn [bind].
    destruct (digits_are_numeric digits Hd) as [-> ->];
      [by destruct digits; simpl in Hlen; [lia |] |].
    destruct zero_token_facts as (-> & Hnum & Hzero). cbn [bind negb].
    by rewrite Hnum, Hzero. }
  rewrite (order_pdf_pages_valid N pages i digits v v Hparse Hv Hv).
  - unfold page_run. replace (v <=? v) with true by lia.
    replace (Z.to_nat (v - v + 1)) with 1%nat by lia.
    cbn [run_up length]. unfold written. cbn [length app].
    rewrite insert_take_drop by done.
    by replace (i + 1)%nat with (S i) by lia.
  - unfold page_run. replace (v <=? v) with true by lia.
    rewrite length_run_up. lia.
Qed.

(** X10.  A segment "a-b" of two numbers of one to four digits is read as
    the pair (a, b), except that an end of 0 is replaced by the begin: an
    explicit "5-0" means page 5, as "5" does. *)
Theorem two_number_segment (a b : list ascii) :
  forallb Libc.isdigit a = true -> forallb Libc.isdigit b = true ->
  (1 <= length a <= 4)%nat -> (1 <= length b <= 4)%nat ->
  let va := Libc.digits_value 0 a in
  let vb := Libc.digits_value 0 b in
  parse_segment (a ++ "-"%char :: b)
  = Done (Some (va, if vb =? 0 then va else vb)).
Proof.
  intros Ha Hb La Lb va vb. unfold parse_segment.
  rewrite scan_loop_app.
  rewrite (scan_loop_begin a scan_init)
    by (simpl; (by apply forallb_digits_tokens) || done || lia).
  cbn [bind scan_loop]. rewrite scan_char_dash. cbn [bind].
  rewrite scan_loop_end
    by (simpl; (by apply forallb_digits_tokens) || done || lia).
  cbn [bind]. unfold fill_end, token_numbers.
  cbn [dash_encountered negb num_begin_ary num_end_ary num_counter scan_init].
  rewrite !written_0_blank by lia.
  rewrite !c_string_token by (by apply forallb_digits_tokens). cbn [bind].
  destruct (digits_are_numeric a Ha) as [-> ->];
    [by destruct a; simpl in La; [lia |] |].
  cbn [bind negb].
  destruct (digits_are_numeric b Hb) as [-> ->];
    [by destruct b; simpl in Lb; [lia |] |].
  done.
Qed.

(** ** More facts about the job *)


(** X12.  A job that does not start sends no page: with no file array or
    an empty one nothing is called at all, and when [wprintStartJob]
    answers ERROR that call is the only one.  ERROR is returned. *)
Theorem job_not_started_sends_nothing (rq : job_request)
    (params : wprint_job_params_t) (caps : printer_capabilities_t) (w : trace) :
  (fileArray rq = None \/ fileArray rq = Some [] ->
   Java_com_android_bips_ipp_Backend_nativeStartJob rq params caps w
   = Done (ERROR, w)) /\
  (forall array p st,
      fileArray rq = Some array -> array <> [] ->
      prepare_job rq params caps array = Done (p, st) ->
      service w (wprintStartJob p caps) = ERROR ->
      Java_com_android_bips_ipp_Backend_nativeStartJob rq params caps w
      = Done (ERROR, w ++ [wprintStartJob p caps])).
Proof.
  unfold Java_com_android_bips_ipp_Backend_nativeStartJob. split.
  - by intros [-> | ->].
  - intros array p st -> Hne Hprep Hstart.
    destruct array as [|d array]; [done |]. cbv zeta.
    change (default [] (Some (d :: array))) with (d :: array).
    rewrite bool_decide_eq_true_2 by (simpl; lia).
    rewrite Hprep. cbn [bind]. unfold call. cbn [fst snd].
    by destruct (decide _).
Qed.

Lemma submit_job_empty_pdf (rq : job_request) (params : wprint_job_params_t)
    (caps : printer_capabilities_t) (pathname : list ascii)
    (st : range_state) (job_handle : Z) (w : trace) :
  OK <> ERROR ->
  _is_pdf_doc (mimeTypeStr rq) (Some pathname) = true ->
  page_range_arr st !! 0%nat = Some 0 ->
  submit_job rq params caps [Some pathname] st job_handle w
  = Done (ERROR, w ++ [wprintPage job_handle 2 None true false;
                       wprintCancelJob job_handle;
                       wprintEndJob job_handle]).
Proof.
  intros Hcodes Hpdf Hzero. unfold submit_job.
  assert (Hloop : forall incrementor,
             send_documents rq params caps [Some pathname] st job_handle
                            incrementor 1 0 OK w
             = Done (ERROR, 2, w)).
  { intros incrementor. rewrite send_documents_once.
    destruct (decide _) as [_|Hno]; [| simpl in Hno; lia].
    unfold send_document. change (array_get [Some pathname] 0) with (Some pathname).
    cbv beta iota. rewrite Hpdf. change (Z.to_nat 0) with 0%nat. rewrite Hzero.
    change (default 0 (Some 0)) with 0. unfold _print_pdf_pages.
    assert (Hnone : (if faceDownTray caps
                     then print_forward job_handle pathname 0
                            (default [] (pages_ary_rows st !! 0%nat)) 0 ERROR w
                     else print_backward job_handle pathname
                            (default [] (pages_ary_rows st !! 0%nat)) (0 - 1) ERROR w)
                    = Done (ERROR, w)).
    { destruct (faceDownTray caps).
      - rewrite print_forward_once. by destruct (decide _); [lia |].
      - rewrite print_backward_once. by destruct (decide _); [lia |]. }
    rewrite Hnone. cbn [bind fst snd].
    rewrite send_documents_once.
    by destruct (decide _) as [[Heq _]|_]; [congruence |]. }
  change (Z.of_nat (length [Some pathname]) - 1) with 0.
  assert (Hpick : (if faceDownTray caps then 0 else 0) = 0) by (by destruct (faceDownTray caps)).
  rewrite Hpick, Hloop. cbn [bind fst snd]. unfold call. cbn [fst snd].
  destruct (decide (ERROR = OK)); [congruence |].
  by rewrite <- !app_assoc.
Qed.

(** X13.  A PDF whose resolved list is empty sends no page and counts as
    a failure, on either kind of tray: a job of that one document is
    closed with the marker, cancelled and ended, and ERROR is returned. *)
Theorem empty_pdf_cancels_job (rq : job_request) (params : wprint_job_params_t)
    (caps : printer_capabilities_t) (pathname : list ascii)
    (st : range_state) (job_handle : Z) (w : trace) :
  OK <> ERROR ->
  _is_pdf_doc (mimeTypeStr rq) (Some pathname) = true ->
  page_range_arr st !! 0%nat = Some 0 ->
  submit_job rq params caps [Some pathname] st job_handle w
  = Done (ERROR, w ++ [wprintPage job_handle 2 None true false;
                       wprintCancelJob job_handle;
                       wprintEndJob job_handle]).
Proof. apply submit_job_empty_pdf. Qed.

Lemma transmit_all_ok (job_handle : Z) (pathname : list ascii) (pages : list Z) :
  (forall w c, service w c = OK) ->
  forall (res : Z) (w : trace),
    transmit job_handle pathname pages res w
    = (if pages is [] then res else OK, w ++ pdf_pages job_handle pathname pages).
Proof.
  intros Hok. induction pages as [|page pages IH]; intros res w; simpl.
  - by rewrite app_nil_r.
  - unfold call. cbn [fst snd]. rewrite Hok.
    destruct (decide (OK = OK)); [| done].
    rewrite IH, <- app_assoc. simpl. by destruct pages.
Qed.

Lemma print_pdf_pages_transmit (job_handle : Z) (caps : printer_capabilities_t)
    (dup : Z) (pathname : list ascii) (n : nat) (pages : list Z) (w : trace) :
  (n <= length pages)%nat ->
  _print_pdf_pages job_handle caps dup pathname (Z.of_nat n) pages w
  = Done (transmit job_handle pathname
            (if faceDownTray caps then take n pages else rev (take n pages))
            ERROR w).
Proof.
  intros Hn. unfold _print_pdf_pages. destruct (faceDownTray caps).
  - by apply (print_forward_transmit job_handle pathname pages n 0).
  - by apply print_backward_transmit.
Qed.

(** X14.  When every call to the print service succeeds, a PDF with at
    least one resolved page is sent in full, first page first on a
    face-down tray and last page first on a face-up tray, and the result
    is OK. *)
Theorem pdf_sent_in_full (job_handle : Z) (caps : printer_capabilities_t)
    (dup : Z) (pathname : list ascii) (num_index : Z) (pages : list Z) (w : trace) :
  (forall w' c, service w' c = OK) ->
  1 <= num_index <= Z.of_nat (length pages) ->
  _print_pdf_pages job_handle caps dup pathname num_index pages w
  = Done (OK, w ++ pdf_pages job_handle pathname
                     (if faceDownTray caps then resolved pages num_index
                      else rev (resolved pages num_index))).
Proof.
  intros Hok Hidx. unfold resolved.
  replace num_index with (Z.of_nat (Z.to_nat num_index)) at 1 by lia.
  rewrite print_pdf_pages_transmit by lia.
  rewrite transmit_all_ok by done.
  assert (Hne : take (Z.to_nat num_index) pages <> []).
  { intros Hnil. apply (f_equal length) in Hnil.
    rewrite length_take in Hnil. simpl in Hnil. lia. }
  destruct (faceDownTray caps).
  - by destruct (take _ pages).
  - destruct (rev (take _ pages)) eqn:Hrev; [| done].
    apply (f_equal (@rev Z)) in Hrev. rewrite rev_involutive in Hrev. done.
Qed.

Lemma array_get_in_order (docs : list (list ascii)) :
  map (array_get (map Some docs)) (map Z.of_nat (seq 0 (length docs)))
  = map Some docs.
Proof.
  apply list_eq. intros i. rewrite !list_lookup_fmap.
  destruct (decide (i < length docs)%nat) as [Hlt|Hge].
  - rewrite lookup_seq_lt by done. simpl. unfold array_get.
    destruct (decide _) as [_|Hneg]; [| lia].
    rewrite Nat2Z.id, list_lookup_fmap.
    destruct (lookup_lt_is_Some_2 docs i Hlt) as [d Hd]. by rewrite Hd.
  - rewrite lookup_seq_ge by lia. by rewrite lookup_ge_None_2 by lia.
Qed.

Lemma send_in_order_non_pdf (rq : job_request) (params : wprint_job_params_t)
    (caps : printer_capabilities_t) (array : list (option (list ascii)))
    (st : range_state) (job_handle : Z) :
  (forall w c, service w c = OK) ->
  _is_pdf_doc (mimeTypeStr rq) (Some []) = false ->
  forall (order : list Z) (docs : list (list ascii)) (pageIndex : Z) (w : trace),
    map (array_get array) order = map Some docs ->
    send_in_order rq params caps array st job_handle order pageIndex OK w
    = Done (OK, pageIndex + Z.of_nat (length docs),
            w ++ numbered_pages job_handle pageIndex docs).
Proof.
  intros Hok Hmime. induction order as [|index order IH];
    intros [|d docs] pageIndex w Horder; try done.
  - cbn [send_in_order numbered_pages length]. rewrite app_nil_r. do 3 f_equal. lia.
  - injection Horder as Hd Horder. cbn [send_in_order numbered_pages length].
    destruct (decide (OK = OK)); [| done].
    unfold send_document. rewrite Hd.
    replace (_is_pdf_doc (mimeTypeStr rq) (Some d)) with false
      by (unfold _is_pdf_doc in *; by destruct (mimeTypeStr rq)).
    cbn [bind]. unfold call. cbn [fst snd]. rewrite Hok.
    rewrite (IH docs) by done. rewrite <- app_assoc. do 3 f_equal. lia.
Qed.

(** X15.  A job whose MIME type is not PDF, with every call to the
    service answering OK: the files are sent one page each, numbered 1,
    2, ... in the order of sending, which is the order of the array on a
    face-down tray and the reverse order on a face-up tray; the marker
    carries the number after the last one and the job handle is
    returned. *)
Theorem image_job_pages_are_numbered (rq : job_request)
    (params : wprint_job_params_t) (caps : printer_capabilities_t)
    (docs : list (list ascii)) (st : range_state) (job_handle : Z) (w : trace) :
  (forall w' c, service w' c = OK) ->
  _is_pdf_doc (mimeTypeStr rq) (Some []) = false ->
  submit_job rq params caps (map Some docs) st job_handle w
  = Done (job_handle,
          w ++ numbered_pages job_handle 1
                 (if faceDownTray caps then docs else rev docs)
            ++ [wprintPage job_handle (1 + Z.of_nat (length docs)) None true false]).
Proof.
  intros Hok Hmime. unfold submit_job. rewrite length_map.
  assert (Hloop :
            send_documents rq params caps (map Some docs) st job_handle
              (if faceDownTray caps then 1 else -1) 1
              (if faceDownTray caps then 0 else Z.of_nat (length docs) - 1) OK w
            = Done (OK, 1 + Z.of_nat (length docs),
                    w ++ numbered_pages job_handle 1
                           (if faceDownTray caps then docs else rev docs))).
  { destruct (faceDownTray caps).
    - rewrite (send_documents_up _ _ _ _ _ _ (length docs) 0)
        by (rewrite length_map; lia).
      apply send_in_order_non_pdf; [done | done |]. apply array_get_in_order.
    - rewrite (send_documents_down _ _ _ _ _ _ (length docs))
        by (rewrite length_map; lia).
      rewrite <- (length_rev docs) at 2.
      apply send_in_order_non_pdf; [done | done |].
      by rewrite map_rev, array_get_in_order, map_rev. }
  rewrite Hloop. cbn [bind fst snd]. unfold call. cbn [fst snd].
  destruct (decide (OK = OK)); [| done]. by rewrite <- app_assoc.
Qed.

Lemma range_pass_not_pdf (mime range : option (list ascii))
    (array : list (option (list ascii))) :
  _is_pdf_doc mime (Some []) = false ->
  forall (todo : list nat) (st st' : range_state),
    range_pass mime range array todo st = Done st' ->
    page_range_arr st' = page_range_arr st /\
    pdf_pages_ary st' = pdf_pages_ary st /\
    pages_ary_rows st' = pages_ary_rows st.
Proof.
  intros Hmime. induction todo as [|pageIndex todo IH]; intros st st';
    cbn [range_pass]; [by intros [= <-] |].
  destruct (decide _) as [_|_]; [| by intros [= <-]].
  unfold range_step. destruct (array_get array (Z.of_nat pageIndex)) as [pageStr|].
  - unfold _get_pdf_page_count.
    replace (_is_pdf_doc mime (Some pageStr)) with false
      by (unfold _is_pdf_doc in *; by destruct mime).
    cbn [negb fst bind]. apply IH.
  - cbn [bind]. intros Hrun. by apply IH in Hrun.
Qed.

Lemma range_pass_same_range (mime r1 r2 : option (list ascii))
    (array : list (option (list ascii))) :
  _is_pdf_doc mime (Some []) = false ->
  forall (todo : list nat) (st : range_state),
    range_pass mime r1 array todo st = range_pass mime r2 array todo st.
Proof.
  intros Hmime. induction todo as [|pageIndex todo IH]; intros st;
    cbn [range_pass]; [done |].
  destruct (decide _) as [_|_]; [| done].
  unfold range_step. destruct (array_get array (Z.of_nat pageIndex)) as [pageStr|].
  - unfold _get_pdf_page_count.
    replace (_is_pdf_doc mime (Some pageStr)) with false
      by (unfold _is_pdf_doc in *; by destruct mime).
    cbn [negb fst bind]. apply IH.
  - cbn [bind]. apply IH.
Qed.

Lemma sum_pages_done (cells : list Z) : forall acc total : Z,
  - 2 ^ 31 <= acc < 2 ^ 31 ->
  sum_pages acc cells = Done total ->
  total = fold_left Z.add cells acc /\ - 2 ^ 31 <= total < 2 ^ 31.
Proof.
  induction cells as [|c cells IH]; intros acc total Hacc; cbn [sum_pages fold_left].
  - by intros [= <-].
  - unfold int_add. destruct (decide _) as [Hin|Hout]; [| done].
    cbn [bind]. by apply IH.
Qed.

(** X16.  For a MIME type other than PDF the requested page range plays
    no part in the preparation of the job: two requests that differ in
    the page range only prepare the same parameters, and no page list is
    resolved.  The number of pages per set is then added up from the
    cells of the page count array, none of which was written; when the
    preparation is defined, the sum on [int] did not overflow and is the
    sum of what those cells hold. *)
Theorem page_range_is_for_pdf_only (mime r1 r2 : option (list ascii))
    (sp ps : bool) (files : option (list (option (list ascii))))
    (fmt : list ascii) (params : wprint_job_params_t)
    (caps : printer_capabilities_t) (array : list (option (list ascii))) :
  _is_pdf_doc mime (Some []) = false ->
  prepare_job (mk_request mime r1 sp ps files fmt) params caps array
  = prepare_job (mk_request mime r2 sp ps files fmt) params caps array /\
  (forall p st,
      prepare_job (mk_request mime r1 sp ps files fmt) params caps array
      = Done (p, st) ->
      page_range_arr st = replicate (length array) 0 /\
      sum_pages 0 (map stack (seq 0 (length array)))
      = Done (job_pages_per_set p) /\
      job_pages_per_set p
      = fold_left Z.add (map stack (seq 0 (length array))) 0 /\
      - 2 ^ 31 <= job_pages_per_set p < 2 ^ 31).
Proof.
  intros Hmime. split.
  - unfold prepare_job. cbn [mimeTypeStr page_range print_format
                             shared_photo preserve_scaling].
    by rewrite (range_pass_same_range mime r1 r2).
  - intros p st Hrun. unfold prepare_job in Hrun.
    cbn [mimeTypeStr page_range] in Hrun.
    apply bind_done in Hrun as (st' & Hpass & Hrun).
    apply bind_done in Hrun as (p' & _ & Hrun).
    apply bind_done in Hrun as (total & Hsum & Hrun). injection Hrun as <- <-.
    apply range_pass_not_pdf in Hpass as (Hr & Hp & _); [| done].
    cbn [job_pages_per_set]. rewrite Hp in Hsum.
    cbn [fresh_locals pdf_pages_ary page_range_arr] in Hsum, Hr.
    split; [done |]. split; [done |].
    by apply sum_pages_done in Hsum.
Qed.

(** X17.  The duplex block only ever turns duplex off: the prepared
    parameters carry the configured duplex mode or none, and for a job
    of no or several documents always the configured one.  The document
    category is never changed. *)
Theorem duplex_is_kept_or_disabled (rq : job_request)
    (params p : wprint_job_params_t) (caps : printer_capabilities_t)
    (array : list (option (list ascii))) (st : range_state) :
  prepare_job rq params caps array = Done (p, st) ->
  (duplex p = duplex params \/ duplex p = DUPLEX_MODE_NONE) /\
  (length array <> 1%nat -> duplex p = duplex params) /\
  docCategory p = docCategory params.
Proof.
  unfold prepare_job. intros Hrun.
  apply bind_done in Hrun as (st' & _ & Hrun).
  apply bind_done in Hrun as (p' & Hscale & Hrun).
  apply bind_done in Hrun as (total & _ & Hrun). injection Hrun as <- <-.
  cbn [duplex docCategory].
  assert (Hcat : docCategory p' = docCategory
                   (smart_duplex (length array) (mimeTypeStr rq)
                      (array_get array 0) (page_range_arr st') params)).
  { unfold set_print_scaling in Hscale.
    apply bind_done in Hscale as (chosen & _ & Hscale).
    apply bind_done in Hscale as (str & _ & Hscale). by injection Hscale as <-. }
  apply set_print_scaling_duplex in Hscale. rewrite Hscale, Hcat.
  unfold smart_duplex. repeat split.
  - destruct (decide _); [| by left].
    destruct (_is_pdf_doc _ _); [| by right].
    destruct (decide _); [by right | by left].
  - intros Hlen. by destruct (decide _).
  - destruct (decide _); [| done].
    destruct (_is_pdf_doc _ _); [| done]. by destruct (decide _).
Qed.

(** ** More facts about the scaling block *)

Lemma strlcpy_into_bounded (capacity size : nat) (dst src : list ascii) :
  (size <= capacity)%nat -> (length dst < capacity)%nat ->
  exists s, strlcpy_into capacity dst src size = Done s /\
            (length s < capacity)%nat.
Proof.
  intros Hsize Hdst. unfold strlcpy_into.
  destruct (decide _) as [Hfit|Hno]; [by eexists |].
  exfalso. apply Hno. unfold Libc.strlcpy. destruct size as [|n]; [done |].
  rewrite length_take. lia.
Qed.

(** X18.  PDF pass-through with preserve-scaling set, or with a shared
    photo of category Photo (in any letter case): the scaling written is
    "none" when the printer lists it and the empty string otherwise; the
    printer's default and "auto" play no part. *)
Theorem scaling_of_preserved_pdf (print_format : list ascii)
    (params : wprint_job_params_t) (caps : printer_capabilities_t)
    (shared_photo preserve_scaling : bool) :
  (5 <= MAX_PRINT_SCALING_LENGTH)%nat ->
  (5 <= sizeof_print_scaling)%nat ->
  Libc.streq print_format PRINT_FORMAT_PDF = true ->
  (Libc.strcaseeq (docCategory params) (chars "Photo") && shared_photo)
  || preserve_scaling = true ->
  exists params',
    set_print_scaling print_format params caps shared_photo preserve_scaling
    = Done params' /\
    print_scaling params'
    = if bool_decide (chars "none" ∈ print_scalings_supported caps)
      then chars "none" else [].
Proof.
  intros HM HP Hfmt Hflags. unfold set_print_scaling, select_print_scaling.
  rewrite Hfmt, Hflags, copy_if_supported_spec by (simpl; lia).
  destruct (bool_decide _); cbn [bind fst];
    (rewrite strlcpy_into_fits by (simpl; lia)); cbn [bind]; by eexists.
Qed.

(** X19.  When the printer's default scaling field is no larger than the
    local scaling buffer, the scaling block writes no byte past either
    buffer whatever the printer reports: it always completes, and the
    string left in the parameters is shorter than its field. *)
Theorem scaling_never_overruns (print_format : list ascii)
    (params : wprint_job_params_t) (caps : printer_capabilities_t)
    (shared_photo preserve_scaling : bool) :
  (5 <= MAX_PRINT_SCALING_LENGTH)%nat ->
  (sizeof_print_scaling_default <= MAX_PRINT_SCALING_LENGTH)%nat ->
  (1 <= sizeof_print_scaling)%nat ->
  exists params',
    set_print_scaling print_format params caps shared_photo preserve_scaling
    = Done params' /\
    (length (print_scaling params') < sizeof_print_scaling)%nat.
Proof.
  intros HM HD HP.
  assert (Hsel : exists chosen,
             select_print_scaling print_format params caps
                                  shared_photo preserve_scaling = Done chosen).
  { unfold select_print_scaling.
    rewrite !copy_if_supported_spec by (simpl; lia).
    destruct (Libc.streq print_format PRINT_FORMAT_PDF); [| by eexists].
    destruct (_ || _); [by eexists |].
    destruct (bool_decide _); cbn [bind fst snd negb]; [by eexists |].
    destruct (negb _).
    - destruct (strlcpy_into_bounded MAX_PRINT_SCALING_LENGTH
                  sizeof_print_scaling_default [] (print_scaling_default caps))
        as (s & -> & _); [done | simpl; lia |]. by eexists.
    - rewrite strlcpy_into_fits by (simpl; lia). by eexists. }
  destruct Hsel as (chosen & Hsel). unfold set_print_scaling.
  rewrite Hsel. cbn [bind]. unfold strlcpy_into, Libc.strlcpy.
  destruct sizeof_print_scaling as [|n]; [lia |].
  destruct (decide _) as [Hfit|Hno].
  - cbn [bind]. by eexists.
  - exfalso. apply Hno. rewrite length_take. lia.
Qed.

(** ** More facts about the reasons *)

Lemma land_one_bit (x : Z) (i : nat) :
  (Z.land x (Z.shiftl 1 (Z.of_nat i)) =? 0) = negb (Z.testbit x (Z.of_nat i)).
Proof.
  rewrite Z.shiftl_1_l.
  destruct (Z.testbit x (Z.of_nat i)) eqn:Hbit; cbn [negb].
  - apply Z.eqb_neq. intros Hzero.
    assert (Hland : Z.testbit (Z.land x (2 ^ Z.of_nat i)) (Z.of_nat i) = true).
    { rewrite Z.land_spec, Hbit, Z.pow2_bits_true by lia. done. }
    rewrite Hzero, Z.bits_0 in Hland. done.
  - apply Z.eqb_eq. apply Z.bits_inj'. intros n Hn.
    rewrite Z.land_spec, Z.bits_0, Z.pow2_bits_eqb by lia.
    destruct (Z.eqb_spec (Z.of_nat i) n) as [<-|_].
    + by rewrite Hbit.
    + apply andb_false_r.
Qed.

Lemma count_reasons_filter (bits : Z) (todo : list nat) : forall count : nat,
  Forall (fun i => (i < 31)%nat) todo ->
  count_reasons bits todo count
  = Done (count + length (List.filter (fun i => Z.testbit bits (Z.of_nat i)) todo))%nat.
Proof.
  induction todo as [|i rest IH]; intros count Hall; cbn [count_reasons List.filter].
  - cbn [length]. f_equal. lia.
  - apply Forall_cons in Hall as [Hi Hrest].
    unfold int_one_shl. destruct (decide _) as [_|Hno]; [| lia].
    cbn [bind]. rewrite land_one_bit, IH by done.
    destruct (Z.testbit bits (Z.of_nat i)); cbn [negb length]; f_equal; lia.
Qed.

Lemma count_reasons_set_bits (bits : Z) (bound : nat) :
  (bound <= 31)%nat ->
  count_reasons bits (seq 0 bound) 0 = Done (length (set_bits bits bound)).
Proof.
  intros Hbound. rewrite count_reasons_filter; [done |].
  apply Forall_forall. intros i Hin. apply elem_of_seq in Hin. lia.
Qed.

(** X20.  With a bound of at most 31 the counting loop of the callback
    shifts within range and counts the bits of the reasons set below the
    bound. *)
Theorem count_is_number_of_set_bits (bits : Z) (bound : nat) :
  (bound <= 31)%nat ->
  count_reasons bits (seq 0 bound) 0 = Done (length (set_bits bits bound)).
Proof. apply count_reasons_set_bits. Qed.

Lemma branch_of_bit_in {M : Type} (position : M -> nat)
    (chain : list (M * jstring)) (i : nat) (str : jstring) :
  branch_of_bit position chain i = Some str ->
  exists e, In e chain /\ position e.1 = i /\ e.2 = str.
Proof.
  unfold branch_of_bit. destruct (List.find _ chain) as [e|] eqn:Hfind; [| done].
  intros [= <-]. apply find_some in Hfind as [Hin Hpos].
  exists e. repeat split; [done |]. by apply Nat.eqb_eq.
Qed.

Lemma else_if_chain_branch {M : Type} (mask : M -> Z) (position : M -> nat)
    (chain : list (M * jstring)) (x : Z) (i : nat) (str : jstring) :
  follows_enum mask position chain ->
  (forall n : nat, (n < i)%nat -> Z.testbit x (Z.of_nat n) = false) ->
  Z.testbit x (Z.of_nat i) = true ->
  branch_of_bit position chain i = Some str ->
  else_if_chain mask chain x = Some str.
Proof.
  intros [Hhot Hord] Hlow Hbit. induction chain as [|[m s] rest IH]; [done |].
  apply Forall_cons in Hhot as [Hm Hhot].
  apply StronglySorted_inv in Hord as [Hord Hhead].
  cbn [else_if_chain]. simpl in Hm. rewrite Hm, land_one_bit.
  unfold branch_of_bit. cbn [List.find fst].
  destruct (Nat.eqb_spec (position m) i) as [->|Hne].
  - intros [= <-]. by rewrite Hbit.
  - intros Hrest. fold (branch_of_bit position rest i) in Hrest.
    destruct (branch_of_bit_in position rest i str Hrest) as (e & Hin & Hpos & _).
    apply list_elem_of_In in Hin.
    rewrite Forall_forall in Hhead. specialize (Hhead e Hin). simpl in Hhead.
    rewrite Hlow by lia. cbn [negb]. by apply IH.
Qed.

Lemma decode_from {M : Type} (mask : M -> Z) (position : M -> nat)
    (chain : list (M * jstring)) (reasons : Z) :
  follows_enum mask position chain ->
  forall (k i : nat) (x : Z) (out : list jstring),
    (forall n : nat,
        Z.testbit x (Z.of_nat n)
        = Z.testbit reasons (Z.of_nat n) && bool_decide (i <= n)%nat) ->
    Forall (fun j => is_Some (branch_of_bit position chain j))
           (List.filter (fun j => Z.testbit reasons (Z.of_nat j)) (seq i k)) ->
    (fold_left (decode_step mask chain) (seq i k) (x, out)).2
    = out ++ omap (branch_of_bit position chain)
               (List.filter (fun j => Z.testbit reasons (Z.of_nat j)) (seq i k)).
Proof.
  intros Henum. induction k as [|k IH]; intros i x out Hx Hmapped;
    cbn [seq fold_left List.filter]; [by rewrite app_nil_r |].
  cbn [seq List.filter] in Hmapped.
  assert (Hnext : forall n : nat,
             Z.testbit (Z.land x (Z.lnot (Z.shiftl 1 (Z.of_nat i)))) (Z.of_nat n)
             = Z.testbit reasons (Z.of_nat n) && bool_decide (S i <= n)%nat).
  { intros n. rewrite Z.land_spec, Z.lnot_spec, Z.shiftl_1_l, Z.pow2_bits_eqb, Hx by lia.
    destruct (Z.testbit reasons (Z.of_nat n)); [| done]. cbn [andb].
    destruct (Z.eqb_spec (Z.of_nat i) (Z.of_nat n)) as [Heq|Hne]; cbn [negb].
    - rewrite andb_false_r. symmetry. apply bool_decide_eq_false. lia.
    - rewrite andb_true_r. apply bool_decide_ext. lia. }
  assert (Hi : Z.testbit x (Z.of_nat i) = Z.testbit reasons (Z.of_nat i)).
  { rewrite Hx, bool_decide_eq_true_2 by lia. apply andb_true_r. }
  unfold decode_step at 2. cbn [fst snd]. rewrite land_one_bit, Hi.
  destruct (Z.testbit reasons (Z.of_nat i)) eqn:Hbit; cbn [negb].
  - apply Forall_cons in Hmapped as [[str Hstr] Hmapped].
    assert (Hlow : forall n : nat, (n < i)%nat -> Z.testbit x (Z.of_nat n) = false).
    { intros n Hn. rewrite Hx, bool_decide_eq_false_2 by lia. apply andb_false_r. }
    rewrite (else_if_chain_branch mask position chain x i str Henum Hlow Hi Hstr).
    rewrite IH by done. cbn [omap list_omap]. rewrite Hstr.
    by rewrite <- app_assoc.
  - by rewrite IH.
Qed.

Lemma length_omap_is_Some {A B : Type} (f : A -> option B) (l : list A) :
  Forall (fun a => is_Some (f a)) l -> length (omap f l) = length l.
Proof.
  induction 1 as [|a l [b Hb] _ IH]; [done |].
  cbn [omap list_omap]. rewrite Hb. cbn [length]. by f_equal.
Qed.

(** X21.  When the macros of a decoder follow the enumeration (macro by
    macro a single bit, in growing order along the chain) and every bit
    set below the bound has a branch, the loop stores one string for
    each set bit, lowest bit first: the string of that bit's own branch.
    The priority order of the chain then never shows. *)
Theorem decoder_follows_the_bits {M : Type} (mask : M -> Z)
    (position : M -> nat) (chain : list (M * jstring))
    (reasons : Z) (bound : nat) :
  follows_enum mask position chain ->
  bits_have_branches position chain reasons bound ->
  (fold_left (decode_step mask chain) (seq 0 bound) (reasons, [])).2
  = strings_of_set_bits position chain reasons bound /\
  length (strings_of_set_bits position chain reasons bound)
  = length (set_bits reasons bound).
Proof.
  intros Henum Hmapped. split.
  - rewrite (decode_from mask position chain reasons Henum); [done | | done].
    intros n. rewrite bool_decide_eq_true_2 by lia. by rewrite andb_true_r.
  - by apply length_omap_is_Some.
Qed.

Lemma string_array_full (stored : list jstring) :
  string_array (length stored) stored = stored.
Proof. unfold string_array. by rewrite take_app_length. Qed.

Lemma reasons_array_exact {M : Type} (mask : M -> Z) (position : M -> nat)
    (chain : list (M * jstring)) (reasons : Z) (bound : nat) :
  follows_enum mask position chain ->
  bits_have_branches position chain reasons bound ->
  string_array (length (set_bits reasons bound))
    (fold_left (decode_step mask chain) (seq 0 bound) (reasons, [])).2
  = strings_of_set_bits position chain reasons bound.
Proof.
  intros Henum Hmapped.
  rewrite (decode_from mask position chain reasons Henum bound 0%nat reasons []);
    [| intros n; rewrite bool_decide_eq_true_2 by lia; by rewrite andb_true_r
     | done].
  cbn [app]. fold (set_bits reasons bound).
  rewrite <- (length_omap_is_Some (branch_of_bit position chain)) by done.
  apply string_array_full.
Qed.

(** X22.  The callback as a whole, when the bound of the decoder it
    selects is at most 31, that decoder's macros follow the enumeration
    and every set bit below the bound has a branch: the event carries no
    reasons when no bit is set below the bound, and otherwise exactly
    one string for each set bit, lowest bit first, with no empty string
    left in the array. *)
Theorem callback_reasons_follow_the_bits (cb : wprint_job_callback_params_t)
    (fail_position : job_fail_reason_macro -> nat)
    (blocked_position : blocked_reason_macro -> nat) (job_handle : Z) :
  let bound := Z.to_nat (max_value_reasons cb) in
  max_value_reasons cb <= 31 ->
  (print_job_failed cb = true ->
   follows_enum fail_mask fail_position fail_reasons_chain /\
   bits_have_branches fail_position fail_reasons_chain (blocked_reasons cb) bound) ->
  (print_job_failed cb = false ->
   follows_enum blocked_mask blocked_position block_status_chain /\
   bits_have_branches blocked_position block_status_chain (blocked_reasons cb) bound) ->
  exists ev,
    _wprint_callback_fn job_handle (Some cb) true true = Done (Some ev) /\
    jobId ev = job_handle /\
    blockedReasons ev
    = if set_bits (blocked_reasons cb) bound is [] then None
      else Some (if print_job_failed cb
                 then strings_of_set_bits fail_position fail_reasons_chain
                        (blocked_reasons cb) bound
                 else strings_of_set_bits blocked_position block_status_chain
                        (blocked_reasons cb) bound).
Proof.
  clear DUPLEX_MODE_NONE MIME_TYPE_PDF PRINT_FORMAT_PDF
        MAX_PRINT_SCALING_LENGTH sizeof_print_scaling_default
        sizeof_print_scaling service openDocument stack.
  intros bound Hbound Hfail Hblocked.
  unfold _wprint_callback_fn. cbn [negb]. fold bound.
  rewrite count_reasons_set_bits by (subst bound; lia). cbn [bind].
  eexists. split; [reflexivity |]. split; [done |]. cbn [blockedReasons].
  destruct (set_bits (blocked_reasons cb) bound) as [|b bits] eqn:Hbits;
    [done |].
  destruct (decide _) as [_|Hno]; [| simpl in Hno; lia].
  f_equal. rewrite <- Hbits.
  assert (Hb : bound = Z.to_nat (if print_job_failed cb
                                 then IPP_JOB_STATE_REASON_MAX_VALUE
                                 else PRINT_STATUS_MAX_STATE)) by done.
  clearbody bound.
  destruct (print_job_failed cb) eqn:Hfailed.
  - destruct (Hfail eq_refl) as [Henum Hmapped].
    unfold processFailReasons. rewrite <- Hb. by apply reasons_array_exact.
  - destruct (Hblocked eq_refl) as [Henum Hmapped].
    unfold processBlockStatus. rewrite <- Hb. by apply reasons_array_exact.
Qed.

(** X23.  With a bound of 32 or more the counting loop of the callback
    shifts the [int] 1 by 31 places or more, whatever the reasons are. *)
Theorem count_shifts_out_of_range (cb : wprint_job_callback_params_t)
    (job_handle : Z) :
  32 <= max_value_reasons cb ->
  _wprint_callback_fn job_handle (Some cb) true true = Undefined ShiftOutOfRange.
Proof.
  intros Hbound. unfold _wprint_callback_fn. cbn [negb].
  assert (Hcount : forall (k i count : nat),
             (i <= 31 < i + k)%nat ->
             count_reasons (blocked_reasons cb) (seq i k) count
             = Undefined ShiftOutOfRange).
  { induction k as [|k IH]; intros i count Hi; [lia |].
    cbn [seq count_reasons]. unfold int_one_shl.
    destruct (decide _) as [Hin|Hout]; [| done].
    cbn [bind]. apply IH. lia. }
  rewrite Hcount by lia. done.
Qed.

(** ** More facts about the job as a whole *)

Lemma get_pdf_page_range_empty_document (pageRangeObject : option (list ascii))
    (pages pages' : list Z) (idx' : Z) (str : list ascii) :
  _get_pdf_page_range pageRangeObject pages 0 0 = Done (pages', idx', str) ->
  idx' = 0.
Proof.
  intros Hrun.
  destruct (get_pdf_page_range_done _ _ _ _ _ _ (Z.le_refl 0) Hrun) as [Hlen _].
  assert (Hin : Forall (fun p => 1 <= p <= 0) (resolved pages' idx')).
  { apply get_pdf_page_range_loop in Hrun as (cleared & str0 & _ & Hrun).
    eapply (range_loop_pages_in_document 0 _ _ _ 0%nat); [lia | | exact Hrun].
    constructor. }
  destruct (resolved pages' idx') as [|p l]; [simpl in Hlen; lia |].
  apply Forall_cons in Hin as [Hp _]. lia.
Qed.

(** X24.  A job of one PDF that the renderer cannot open, or that has no
    page: whatever the page range, no page is sent.  Either the job does
    not start, or it is started, closed with the marker, cancelled and
    ended; ERROR is returned in both cases. *)
Theorem unreadable_pdf_job_fails (rq : job_request)
    (params : wprint_job_params_t) (caps : printer_capabilities_t)
    (pathname : list ascii) (w w' : trace) (h : Z) :
  OK <> ERROR ->
  fileArray rq = Some [Some pathname] ->
  _is_pdf_doc (mimeTypeStr rq) (Some pathname) = true ->
  openDocument pathname <= 0 ->
  Java_com_android_bips_ipp_Backend_nativeStartJob rq params caps w
  = Done (h, w') ->
  h = ERROR /\
  exists p,
    let job_handle := service w (wprintStartJob p caps) in
    w' = w ++ [wprintStartJob p caps] \/
    w' = w ++ [wprintStartJob p caps;
               wprintPage job_handle 2 None true false;
               wprintCancelJob job_handle;
               wprintEndJob job_handle].
Proof.
  intros Hcodes Hfiles Hpdf Hopen.
  unfold Java_com_android_bips_ipp_Backend_nativeStartJob.
  rewrite Hfiles. cbv zeta.
  change (default [] (Some [Some pathname])) with [Some pathname].
  rewrite bool_decide_eq_true_2 by (simpl; lia).
  intros Hrun. apply bind_done in Hrun as ([p st] & Hprep & Hrun).
  cbn [fst snd] in Hrun. unfold call in Hrun. cbn [fst snd] in Hrun.
  destruct (decide _) as [Hstart|Hstart].
  - injection Hrun as <- <-. split; [done |]. exists p. by left.
  - assert (Hzero : page_range_arr st !! 0%nat = Some 0).
    { unfold prepare_job in Hprep.
      apply bind_done in Hprep as (st' & Hpass & Hprep).
      apply bind_done in Hprep as (p' & _ & Hprep).
      apply bind_done in Hprep as (total & _ & Hprep). injection Hprep as _ <-.
      cbn [length seq range_pass] in Hpass.
      destruct (decide _) as [_|Hno]; [| done].
      apply bind_done in Hpass as (st1 & Hstep & Hst). injection Hst as ->.
      unfold range_step in Hstep.
      change (array_get [Some pathname] (Z.of_nat 0)) with (Some pathname) in Hstep.
      cbv beta iota in Hstep.
      assert (Hcount : _get_pdf_page_count (mimeTypeStr rq) pathname = (true, 0)).
      { unfold _get_pdf_page_count. rewrite Hpdf. cbn [negb]. f_equal.
        destruct (Z.ltb_spec (openDocument pathname) 0); lia. }
      rewrite Hcount in Hstep. cbn [fst snd] in Hstep.
      apply bind_done in Hstep as ([[pages idx] str] & Hrange & Hst).
      injection Hst as <-. cbn [fst snd page_range_arr fresh_locals].
      by rewrite (get_pdf_page_range_empty_document _ _ _ _ _ Hrange). }
    rewrite (submit_job_empty_pdf rq p caps pathname st _ _ Hcodes Hpdf Hzero) in Hrun.
    injection Hrun as <- <-. split; [done |]. exists p. right.
    by rewrite <- app_assoc.
Qed.

(** ** Tokens that are numbers but not integers *)

Lemma skip_digits_app (a rest : list ascii) (c : ascii) :
  forallb Libc.isdigit a = true -> Libc.isdigit c = false ->
  Libc.skip Libc.isdigit (a ++ c :: rest) = c :: rest.
Proof.
  intros Ha Hc. induction a as [|d a IH]; simpl in *; [by rewrite Hc |].
  apply andb_true_iff in Ha as [-> Ha]. by apply IH.
Qed.

Lemma digits_value_app (a rest : list ascii) (c : ascii) :
  forallb Libc.isdigit a = true -> Libc.isdigit c = false ->
  forall acc, Libc.digits_value acc (a ++ c :: rest) = Libc.digits_value acc a.
Proof.
  intros Ha Hc. induction a as [|d a IH]; intros acc; simpl in *; [by rewrite Hc |].
  apply andb_true_iff in Ha as [-> Ha]. by apply IH.
Qed.

(** A number with a decimal point is numeric for [strtod], and [atoi]
    reads the digits before the point. *)
Lemma fraction_is_numeric (a b : list ascii) :
  forallb Libc.isdigit a = true -> forallb Libc.isdigit b = true -> a <> [] ->
  _isNumeric (Some (a ++ "."%char :: b)) = true /\
  Libc.atoi (a ++ "."%char :: b) = Libc.digits_value 0 a.
Proof.
  intros Ha Hb Hne. destruct a as [|c t]; [done |].
  assert (Hall := Ha). simpl in Ha. apply andb_true_iff in Ha as [Hc Ht].
  destruct (isdigit_facts c Hc) as (_ & Hsp & Hsg & Hm & Hp & _ & _).
  split.
  - unfold _isNumeric. cbn [app]. rewrite Hsp. unfold Libc.strtod_end.
    cbn [Libc.skip]. rewrite Hsp, Hsg.
    assert (Hhex : match c :: t ++ "."%char :: b with
                   | z :: x :: t0 =>
                       if (Libc.code z =? 48)%N && (Libc.code (Libc.tolower x) =? 120)%N
                       then option_map (Libc.exponent_end "p"%char)
                                       (Libc.mantissa_end Libc.isxdigit t0)
                       else None
                   | _ => None
                   end = None).
    { destruct t as [|x t]; cbn [app]; [by rewrite andb_false_r |].
      simpl in Ht. apply andb_true_iff in Ht as [Hx _].
      destruct (isdigit_facts x Hx) as (_ & _ & _ & _ & _ & -> & _).
      by rewrite andb_false_r. }
    rewrite Hhex. unfold Libc.mantissa_end.
    change (c :: t ++ "."%char :: b) with ((c :: t) ++ "."%char :: b).
    rewrite (skip_digits_app (c :: t) b "."%char Hall) by done.
    change (Libc.code "." =? 46)%N with true. cbv iota.
    rewrite (skip_digits b Hb), length_app. cbn [length].
    replace (S (length t) + S (length b) - S (length b) + (length b - 0) =? 0)%nat
      with false by (symmetry; apply Nat.eqb_neq; lia).
    done.
  - unfold Libc.atoi. cbn [app Libc.skip]. rewrite Hsp, Hm, Hp.
    change (c :: t ++ "."%char :: b) with ((c :: t) ++ "."%char :: b).
    by apply digits_value_app.
Qed.

(** X25.  A segment with a decimal point is accepted, and the digits
    after the point are dropped: "2.9" on its own means page 2.  The
    test for a number is that of [strtod], the value is that of
    [atoi]. *)
Theorem fraction_is_dropped (a b : list ascii) :
  forallb Libc.isdigit a = true -> forallb Libc.isdigit b = true ->
  (1 <= length a)%nat -> (length a + 1 + length b <= 4)%nat ->
  parse_segment (a ++ "."%char :: b)
  = Done (Some (Libc.digits_value 0 a, Libc.digits_value 0 a)).
Proof.
  intros Ha Hb La Lab. set (t := a ++ "."%char :: b).
  assert (Ht : forallb token_char t = true).
  { unfold t. rewrite forallb_app. cbn [forallb].
    rewrite !forallb_digits_tokens by done. done. }
  assert (Hlen : (length t <= 4)%nat).
  { unfold t. rewrite length_app. simpl. lia. }
  unfold parse_segment.
  rewrite (scan_loop_begin t scan_init) by (simpl; done || lia).
  cbn [bind]. unfold fill_end, token_numbers.
  cbn [dash_encountered negb num_begin_ary num_end_ary num_counter scan_init].
  rewrite written_0_blank by lia.
  rewrite c_string_token by done. cbn [bind].
  destruct (fraction_is_numeric a b Ha Hb) as [Hnum Hval];
    [by destruct a; simpl in La; [lia |] |].
  fold t in Hnum, Hval. rewrite Hnum, Hval.
  destruct zero_token_facts as (-> & Hnum0 & Hzero). cbn [bind negb].
  by rewrite Hnum0, Hzero.
Qed.

(** ** Facts about the render flags *)

Ltac bitwise :=
  apply Z.bits_inj'; intros n Hn;
  repeat first [ rewrite Z.land_spec | rewrite Z.lor_spec
               | rewrite Z.lnot_spec by lia | rewrite Z.bits_0 ].

Ltac bit_cases :=
  repeat (match goal with
          | |- context [Z.testbit ?x ?n] => destruct (Z.testbit x n)
          end);
  done.

Lemma orientation_flags_keep (j : LocalJobParams) (flags : Z) :
  Z.land (orientation_flags j flags) flags = flags.
Proof.
  unfold orientation_flags.
  destruct (portrait_mode j); [| destruct (landscape_mode j);
                                 [| destruct (auto_rotate j)]];
    bitwise; bit_cases.
Qed.

Lemma scale_flags_keep (j : LocalJobParams) (flags : Z) :
  Z.land (scale_flags j flags) flags = flags.
Proof.
  unfold scale_flags.
  destruct (fill_page j); [| destruct (fit_to_page j);
                             [destruct (document_scaling j) |]];
    bitwise; bit_cases.
Qed.

(** X26.  With an alignment of 0 the conversion only adds render flags:
    every flag that Java passed in is still set. *)
Theorem render_flags_are_only_added (j : LocalJobParams) :
  alignment j = 0 ->
  Z.land (_convertJobParams_to_C_render_flags j) (java_render_flags j)
  = java_render_flags j.
Proof.
  intros Hal. unfold _convertJobParams_to_C_render_flags, alignment_flags.
  destruct (decide _) as [Hne|_]; [done |].
  assert (Ho := orientation_flags_keep j (java_render_flags j)).
  assert (Hs := scale_flags_keep j (orientation_flags j (java_render_flags j))).
  set (o := orientation_flags j (java_render_flags j)) in *.
  set (sc := scale_flags j o) in *.
  transitivity (Z.land sc (Z.land o (java_render_flags j))); [by rewrite Ho |].
  by rewrite Z.land_assoc, Hs.
Qed.

(** X27.  The alignment block touches the three centring flags only: any
    other flag is as it was before the block, whatever the alignment. *)
Theorem alignment_touches_centring_only (j : LocalJobParams) (flags : Z) :
  let centring := Z.lor (Z.lor RENDER_FLAG_CENTER_VERTICAL
                               RENDER_FLAG_CENTER_HORIZONTAL)
                        RENDER_FLAG_CENTER_ON_ORIENTATION in
  Z.land (alignment_flags j flags) (Z.lnot centring)
  = Z.land flags (Z.lnot centring).
Proof.
  intros centring. subst centring. unfold alignment_flags.
  destruct (decide (alignment j <> 0)) as [Hal|Hal]; [| done].
  destruct (Z.land (alignment j) ALIGNMENT__CENTER_HORIZONTAL =? 0),
    (Z.land (alignment j) ALIGNMENT__CENTER_VERTICAL =? 0),
    (Z.land (alignment j) ALIGNMENT__CENTER_HORIZONTAL_ON_ORIENTATION =? 0),
    (decide (Z.land (alignment j) ALIGNMENT__CENTER = ALIGNMENT__CENTER))
      as [Hc|Hc];
    bitwise; bit_cases.
Qed.

(** X28.  An alignment that contains both bits of CENTER centres the
    page both ways and not on the orientation, whatever else the
    alignment and the flags from Java contain, provided the flag for
    centring on the orientation shares no bit with the two others. *)
Theorem center_overrides_orientation (j : LocalJobParams) :
  alignment j <> 0 ->
  Z.land (alignment j) ALIGNMENT__CENTER = ALIGNMENT__CENTER ->
  Z.land RENDER_FLAG_CENTER_ON_ORIENTATION
         (Z.lor RENDER_FLAG_CENTER_VERTICAL RENDER_FLAG_CENTER_HORIZONTAL) = 0 ->
  let flags := _convertJobParams_to_C_render_flags j in
  Z.land flags (Z.lor RENDER_FLAG_CENTER_VERTICAL RENDER_FLAG_CENTER_HORIZONTAL)
  = Z.lor RENDER_FLAG_CENTER_VERTICAL RENDER_FLAG_CENTER_HORIZONTAL /\
  Z.land flags RENDER_FLAG_CENTER_ON_ORIENTATION = 0.
Proof.
  intros Hal Hcenter Hdisjoint flags. subst flags.
  unfold _convertJobParams_to_C_render_flags, alignment_flags.
  destruct (decide (alignment j <> 0)) as [_|Hno]; [| done].
  destruct (decide (Z.land (alignment j) ALIGNMENT__CENTER = ALIGNMENT__CENTER))
    as [_|Hno]; [| done].
  assert (Hbit : forall n, 0 <= n ->
             Z.testbit RENDER_FLAG_CENTER_ON_ORIENTATION n
             && (Z.testbit RENDER_FLAG_CENTER_VERTICAL n
                 || Z.testbit RENDER_FLAG_CENTER_HORIZONTAL n) = false).
  { intros n Hn. rewrite <- Z.lor_spec, <- Z.land_spec, Hdisjoint. apply Z.bits_0. }
  set (f := if Z.land (alignment j) ALIGNMENT__CENTER_HORIZONTAL_ON_ORIENTATION =? 0
            then _ else _).
  clearbody f. split.
  - bitwise. bit_cases.
  - bitwise. specialize (Hbit n Hn). revert Hbit. bit_cases.
Qed.

(** ** Facts about the capabilities query *)

(** X29.  The capabilities are handed to Java exactly when 0 is
    returned, which takes a query that returned 0; capabilities handed
    over as supported are those of the query and have an IPP major
    version of at least 1; and when the print service is not running,
    nothing is handed over (ERROR is not 0). *)
Theorem capabilities_handed_to_java (reply : Z * ipp_support) (running : bool) :
  let out :=
    Java_com_android_bips_ipp_Backend_nativeGetCapabilities reply running in
  (is_Some out.2 <-> out.1 = 0) /\
  (forall caps, out.2 = Some caps ->
     reply.1 = 0 /\
     ippVersionMajor caps = ippVersionMajor reply.2 /\
     (isSupported caps <> 0 -> caps = reply.2 /\ 1 <= ippVersionMajor caps)) /\
  (ERROR <> 0 -> running = false -> out.2 = None /\ out.1 <> 0).
Proof.
  intros out. subst out.
  unfold Java_com_android_bips_ipp_Backend_nativeGetCapabilities.
  destruct reply as [result [sup major]]. cbn [fst snd isSupported ippVersionMajor].
  set (r := if negb running && (result =? 0) then ERROR else result).
  split; [| split].
  - destruct (Z.eqb_spec r 0) as [Hr|Hr]; cbn [fst snd].
    + split; [done | by eexists].
    + split; [by intros [c Hc] | done].
  - intros caps. destruct (Z.eqb_spec r 0) as [Hr|Hr]; cbn [snd]; [| done].
    intros [= <-].
    assert (Hres : result = 0).
    { subst r. destruct (negb running && (result =? 0)) eqn:Hcond; [| done].
      apply andb_true_iff in Hcond as [_ Hz]. by apply Z.eqb_eq. }
    split; [done |]. split.
    + by destruct (negb (sup =? 0) && (major <? 1)).
    + destruct (Z.eqb_spec sup 0) as [->|Hsup]; cbn [negb andb isSupported];
        [done |].
      destruct (Z.ltb_spec major 1); cbn [isSupported ippVersionMajor]; [done |].
      intros _. split; [done | lia].
  - intros Herr ->. subst r. cbn [negb andb].
    destruct (Z.eqb_spec result 0) as [->|Hne].
    + by destruct (Z.eqb_spec ERROR 0).
    + by destruct (Z.eqb_spec result 0).
Qed.

End Wprint.

(** * Instances

    The theorems above at concrete inputs.  The constants of lib_wprint.h
    are given sample values: OK = 0, ERROR = -1, CANCELLED = -2,
    CORRUPT = -3, BAD_CERTIFICATE = -4, the job states 1 to 4,
    DUPLEX_MODE_NONE = 0, both PDF strings "application/pdf" and buffers
    of 32 bytes. *)

Lemma C1_witness :
  Z.of_nat (length (replicate 2000 (0 : Z))) = MAX_NUM_PAGES /\
  exists pages',
    _get_pdf_page_range (Some (chars "2,99")) (replicate 2000 0) 5 0
    = Done (pages', 6, chars "1-5") /\
    resolved pages' 6 = [2; 1; 2; 3; 4; 5] /\
    resolved pages' 6 <> [1; 2; 3; 4; 5].
Proof.
  split; [reflexivity |].
  apply (C1_fallback_keeps_earlier_pages (replicate 2000 0)). reflexivity.
Defined.

(** Two segments of 1200 pages each on a document of 1200 pages: each
    is valid, and the second run is stored past the 2000 cells of the
    row.  The one segment "4-2" alone is stored as the run 4, 3, 2. *)
Lemma C2_witness :
  _get_pdf_page_range (Some (chars "1-1200,1-1200")) (replicate 2000 0) 1200 0
  = Undefined PagesArrayOverrun /\
  exists pages',
    _get_pdf_page_range (Some (chars "4-2")) (replicate 2000 0) 5 0
    = Done (pages', 3, chars "4-2") /\
    resolved pages' 3 = [4; 3; 2].
Proof.
  destruct C2_valid_segment_appends_run as (_ & _ & _ & Hresolver & _).
  split.
  - destruct (Hresolver 1200 (chars "1-1200,1-1200") (replicate 2000 0)
                [(1, 1200); (1, 1200)]) as [_ Hover];
      [discriminate | by apply Nat.ltb_lt | reflexivity | | by apply Hover].
    unfold valid_segments.
    change (Libc.strtok_all _ _ _) with [chars "1-1200"; chars "1-1200"].
    repeat (constructor; [split; [vm_compute; reflexivity | simpl; lia] |]).
    constructor.
  - destruct (Hresolver 5 (chars "4-2") (replicate 2000 0) [(4, 2)])
      as [Hfits _];
      [discriminate | by apply Nat.ltb_lt | reflexivity | | by apply Hfits].
    unfold valid_segments. change (Libc.strtok_all _ _ _) with [chars "4-2"].
    repeat (constructor; [split; [vm_compute; reflexivity | simpl; lia] |]).
    constructor.
Defined.

Lemma C3_witness :
  0 <= 3 <= Z.of_nat (length [7; 8; 9]) /\
  _print_pdf_pages 0 (-1) (always 0) 5 (sample_caps false) 1 (chars "a.pdf")
                   3 [7; 8; 9] []
  = Done (0, [wprintPage 5 9 (Some (chars "a.pdf")) false true;
              wprintPage 5 8 (Some (chars "a.pdf")) false true;
              wprintPage 5 7 (Some (chars "a.pdf")) false true]).
Proof.
  split; [simpl; lia |].
  destruct (C3_transmission_order 0 (-1) (chars "application/pdf") (always 0))
    as [Hpages _].
  rewrite (Hpages 5 (sample_caps false) 1 (chars "a.pdf") 3 [7; 8; 9] []);
    [reflexivity | simpl; lia].
Defined.

Lemma C4_witness :
  let caps := mk_caps true [chars "fit"; chars "fill"] (chars "fit-to-page") in
  ((5 <= 32)%nat /\ (5 <= 32)%nat /\
   (length (print_scaling_default caps) < 32)%nat) /\
  exists params',
    set_print_scaling (chars "application/pdf") 32 32 32
                      (chars "application/pdf") sample_params caps false false
    = Done params' /\
    print_scaling params' = chars "fit-to-page".
Proof.
  intros caps. split; [simpl; lia |].
  destruct (C4_scaling_selection (chars "application/pdf") 32 32 32
              (chars "application/pdf") sample_params caps false false)
    as (params' & Hrun & _ & _ & _ & _ & Hpdf); try (simpl; lia).
  exists params'. split; [exact Hrun |].
  rewrite Hpdf; reflexivity.
Defined.

Lemma C5_witness :
  exists p st,
    prepare_job 0 (-1) 0 (chars "application/pdf") (chars "application/pdf")
                32 32 32 (fun _ => 3) (fun _ => 0)
                (one_pdf "2") sample_params (sample_caps true)
                [Some (chars "a.pdf")]
    = Done (p, st) /\
    default 0 (page_range_arr st !! 0%nat) = 1 /\
    duplex sample_params = 1 /\
    duplex p = 0.
Proof.
  eexists _, _. split; [vm_compute; reflexivity |].
  split; [reflexivity |]. split; [reflexivity |].
  eapply (C5_smart_duplex 0 (-1) 0 (chars "application/pdf")
            (chars "application/pdf") 32 32 32 (fun _ => 3) (fun _ => 0)
            (one_pdf "2") sample_params _ (sample_caps true)
            (Some (chars "a.pdf")));
    [vm_compute; reflexivity | reflexivity | reflexivity].
Defined.

Lemma C6_witness :
  NoDup [0; -1; -2; -3; -4] /\
  print_job_failed 0 (-1) (-2) (-3) (-4) 4 (mk_cb 4 (-1) 16 None) = true /\
  print_job_failed 0 (-1) (-2) (-3) (-4) 4 (mk_cb 4 (-4) 16 None) = false /\
  print_job_failed 0 (-1) (-2) (-3) (-4) 4 (mk_cb 3 (-1) 16 None) = false.
Proof.
  assert (Hcodes : NoDup [0; -1; -2; -3; -4]).
  { repeat (apply NoDup_cons; split;
            [rewrite ?not_elem_of_cons; repeat split;
             (discriminate || apply not_elem_of_nil) |]).
    apply NoDup_nil_2. }
  split; [exact Hcodes |].
  split; [| split].
  - destruct (C6_reason_table_selection 0 (-1) (-2) (-3) (-4) 1 2 3 4 12 60
                (fun _ => 0) (fun _ => 0) (mk_cb 4 (-1) 16 None) Hcodes)
      as [[_ Hfailed] _].
    apply Hfailed. simpl. auto.
  - destruct (C6_reason_table_selection 0 (-1) (-2) (-3) (-4) 1 2 3 4 12 60
                (fun _ => 0) (fun _ => 0) (mk_cb 4 (-4) 16 None) Hcodes)
      as (_ & _ & Hblocked & _).
    apply Hblocked. simpl. auto.
  - destruct (C6_reason_table_selection 0 (-1) (-2) (-3) (-4) 1 2 3 4 12 60
                (fun _ => 0) (fun _ => 0) (mk_cb 3 (-1) 16 None) Hcodes)
      as (_ & Hstate & _).
    apply Hstate. simpl. discriminate.
Defined.

(** A job of two pictures: two page calls, then the marker. *)
Lemma C7_witness :
  exists job_handle w',
    submit_job 0 (-1) (chars "application/pdf") (always 0)
               (mk_request (Some (chars "image/jpeg")) None false false None [])
               sample_params (sample_caps true)
               [Some (chars "a.jpg"); Some (chars "b.jpg")]
               (fresh_locals 0 (fun _ => 0) 2) 7 []
    = Done (job_handle, w') /\
    w' = [wprintPage 7 1 (Some (chars "a.jpg")) false false;
          wprintPage 7 2 (Some (chars "b.jpg")) false false;
          wprintPage 7 3 None true false] /\
    markers w' = 1%nat.
Proof.
  eexists _, _. split; [vm_compute; reflexivity |]. split; [reflexivity |].
  destruct (C7_one_marker_per_job 0 (-1) (chars "application/pdf") (always 0)
              (mk_request (Some (chars "image/jpeg")) None false false None [])
              sample_params (sample_caps true)
              [Some (chars "a.jpg"); Some (chars "b.jpg")]
              (fresh_locals 0 (fun _ => 0) 2) 7 7 []
              [wprintPage 7 1 (Some (chars "a.jpg")) false false;
               wprintPage 7 2 (Some (chars "b.jpg")) false false;
               wprintPage 7 3 None true false])
    as (r & pageIndex & sent & closing & _ & _ & _ & _ & Hmarkers);
    [vm_compute; reflexivity | exact Hmarkers].
Defined.

(** A job of two PDF files of two pages each, on a face-down printer: the
    four pages are sent with no marker after the first document, and one
    marker closes the job. *)
Lemma C7_counterexample :
  exists p,
    Java_com_android_bips_ipp_Backend_nativeStartJob
      0 (-1) 0 (chars "application/pdf") (chars "application/pdf") 32 32 32
      (always 0) (fun _ => 2) (fun _ => 0)
      two_pdfs sample_params (sample_caps true) []
    = Done (0, [wprintStartJob p (sample_caps true);
                wprintPage 0 1 (Some (chars "a.pdf")) false true;
                wprintPage 0 2 (Some (chars "a.pdf")) false true;
                wprintPage 0 1 (Some (chars "b.pdf")) false true;
                wprintPage 0 2 (Some (chars "b.pdf")) false true;
                wprintPage 0 3 None true false]) /\
    length (default [] (fileArray two_pdfs)) = 2%nat /\
    markers [wprintStartJob p (sample_caps true);
             wprintPage 0 1 (Some (chars "a.pdf")) false true;
             wprintPage 0 2 (Some (chars "a.pdf")) false true;
             wprintPage 0 1 (Some (chars "b.pdf")) false true;
             wprintPage 0 2 (Some (chars "b.pdf")) false true;
             wprintPage 0 3 None true false] = 1%nat.
Proof. eexists. split; [vm_compute; reflexivity | split; reflexivity]. Qed.

Lemma C8_witness :
  (forallb token_char (chars "1") = true /\
   forallb token_char (chars "23") = true /\
   forallb token_char (chars "4") = true) /\
  begin_token (chars "1-23-4") = Done (chars "1") /\
  end_token (chars "1-23-4") = Done (chars "43").
Proof.
  split; [repeat split |].
  apply (C8_later_dash_restarts_end_token (chars "1") (chars "23") (chars "4"));
    (reflexivity || (simpl; lia)).
Defined.

(** For "1-2-3" the end token is "3": the second dash sets the index back
    to 0 and the 3 is stored over the 2. *)
Lemma C8_counterexample :
  end_token (chars "1-2-3") = Done (chars "3") /\
  end_token (chars "1-2-3") <> Done (chars "23").
Proof. split; [reflexivity | discriminate]. Qed.

Lemma C9_witness :
  (forallb token_char (chars "123456") = true /\
   (5 < length (chars "123456"))%nat) /\
  _order_pdf_pages 9 (replicate 2000 0) 0 (chars "123456")
  = Undefined TokenBufferOverrun.
Proof.
  split; [split; [reflexivity | simpl; lia] |].
  apply (C9_token_buffer_overrun 9 (replicate 2000 0) 0 (chars "123456") []);
    [reflexivity | simpl; lia].
Defined.

Lemma C10_witness :
  exists pages',
    _get_pdf_page_range (Some (chars "1-3,1-3")) (replicate 2000 0) 3 0
    = Done (pages', 6, chars "1-3,1-3") /\
    Z.of_nat (length (resolved pages' 6)) = 6 /\
    0 <= 6 <= Z.of_nat 2 * 3.
Proof.
  eexists. split; [vm_compute; reflexivity |].
  eapply (C10_resolved_at_most_N_per_segment (Some (chars "1-3,1-3"))
            (replicate 2000 0) _ 3 6 (chars "1-3,1-3")); [lia |].
  vm_compute; reflexivity.
Defined.

(** Two segments that both succeed on a 3-page document resolve to six
    pages. *)
Lemma C10_counterexample :
  exists pages',
    _get_pdf_page_range (Some (chars "1-3,1-3")) (replicate 2000 0) 3 0
    = Done (pages', 6, chars "1-3,1-3") /\
    resolved pages' 6 = [1; 2; 3; 1; 2; 3] /\
    ~ (Z.of_nat (length (resolved pages' 6)) <= 3).
Proof.
  eexists. split; [vm_compute; reflexivity |].
  split; [reflexivity | simpl; lia].
Qed.

(** ** Instances of the further facts *)

Lemma absent_range_is_whole_document_witness :
  exists pages',
    _get_pdf_page_range None (replicate 2000 0) 3 0
    = Done (pages', 3, full_range 3) /\
    resolved pages' 3 = run_up 1 (Z.to_nat 3).
Proof.
  apply (absent_range_is_whole_document None (replicate 2000 0) 3);
    [by left | unfold MAX_NUM_PAGES; lia | reflexivity].
Defined.

Lemma first_segment_failure_is_whole_document_witness :
  exists pages',
    _get_pdf_page_range (Some (chars "99,2")) (replicate 2000 0) 5 0
    = Done (pages', 5, full_range 5) /\
    resolved pages' 5 = run_up 1 (Z.to_nat 5).
Proof.
  apply (first_segment_failure_is_whole_document
           (chars "99,2") (chars "99") [chars "2"] (replicate 2000 0) 5);
    [by apply Nat.ltb_lt | reflexivity | | unfold MAX_NUM_PAGES; lia
     | reflexivity].
  right. exists 99, 99. split; [reflexivity | lia].
Defined.

Lemma resolved_pages_are_in_document_witness :
  exists pages' str,
    _get_pdf_page_range (Some (chars "2,4")) (replicate 2000 0) 5 0
    = Done (pages', 2, str) /\
    Forall (fun p => 1 <= p <= 5) (resolved pages' 2).
Proof.
  eexists _, _. split; [vm_compute; reflexivity |].
  eapply (resolved_pages_are_in_document (Some (chars "2,4")) (replicate 2000 0)
            _ 5 2 _).
  vm_compute; reflexivity.
Defined.

Lemma failed_segment_stores_nothing_witness :
  exists pages' idx',
    _order_pdf_pages 5 [7; 7] 0 (chars "9") = Done (false, pages', idx') /\
    pages' = [7; 7] /\ idx' = 0.
Proof.
  eexists _, _. split; [vm_compute; reflexivity |].
  apply (failed_segment_stores_nothing 5 [7; 7] _ 0 _ (chars "9")).
  vm_compute; reflexivity.
Defined.

Lemma commas_only_resolve_to_nothing_witness :
  exists cleared,
    memset_pages (replicate 2000 7) = Done cleared /\
    _get_pdf_page_range (Some (chars ",,")) (replicate 2000 7) 5 0
    = Done (cleared, 0, chars ",,") /\
    resolved cleared 0 = [].
Proof.
  destruct (commas_only_resolve_to_nothing (chars ",,") (replicate 2000 7) 5)
    as [Hshort _]; [discriminate | repeat constructor | reflexivity |].
  apply Hshort. by apply Nat.ltb_lt.
Defined.

Lemma five_character_token_is_unterminated_witness :
  _order_pdf_pages 5 [0] 0 (chars "12345") = Undefined TokenNotTerminated.
Proof.
  destruct (five_character_token_is_unterminated 5 [0] 0 (chars "12345"))
    as [_ Hrun]; [reflexivity | reflexivity | exact Hrun].
Defined.

Lemma short_segment_keeps_token_arrays_witness :
  exists numbers, parse_segment (chars "1 - 3") = Done numbers.
Proof.
  destruct (short_segment_keeps_token_arrays 5 [0] 0 (chars "1 - 3"))
    as [Hparse _]; [simpl; lia | exact Hparse].
Defined.

Lemma single_number_segment_witness :
  _order_pdf_pages 5 [0; 0; 0] 1 (chars "4") = Done (true, [0; 4; 0], 2).
Proof.
  apply (single_number_segment 5 [0; 0; 0] 1%nat (chars "4"));
    [reflexivity | simpl; lia | vm_compute; split; discriminate | simpl; lia].
Defined.

Lemma two_number_segment_witness :
  parse_segment (chars "2-5") = Done (Some (2, 5)).
Proof.
  apply (two_number_segment (chars "2") (chars "5"));
    [reflexivity | reflexivity | simpl; lia | simpl; lia].
Defined.


Lemma empty_pdf_cancels_job_witness :
  submit_job 0 (-1) (chars "application/pdf") (always 0)
             (one_pdf ",") sample_params (sample_caps false)
             [Some (chars "a.pdf")] (mk_ranges 0 [0] [3] [[0; 0; 0]]) 7 []
  = Done (-1, [] ++ [wprintPage 7 2 None true false;
                     wprintCancelJob 7; wprintEndJob 7]).
Proof.
  apply (empty_pdf_cancels_job 0 (-1) (chars "application/pdf") (always 0)
           (one_pdf ",") sample_params (sample_caps false) (chars "a.pdf")
           (mk_ranges 0 [0] [3] [[0; 0; 0]]) 7 []);
    [discriminate | reflexivity | reflexivity].
Defined.

Lemma pdf_sent_in_full_witness :
  _print_pdf_pages 0 (-1) (always 0) 7 (sample_caps false) 1 (chars "a.pdf")
                   2 [3; 1; 0] []
  = Done (0, [] ++ pdf_pages 7 (chars "a.pdf") (rev (resolved [3; 1; 0] 2))).
Proof.
  apply (pdf_sent_in_full 0 (-1) (always 0) 7 (sample_caps false) 1
           (chars "a.pdf") 2 [3; 1; 0] []);
    [intros w' c; reflexivity | simpl; lia].
Defined.

Lemma image_job_pages_are_numbered_witness :
  submit_job 0 (-1) (chars "application/pdf") (always 0)
             (mk_request (Some (chars "image/jpeg")) None false false None [])
             sample_params (sample_caps false)
             (map Some [chars "a.jpg"; chars "b.jpg"])
             (fresh_locals 0 (fun _ => 0) 2) 7 []
  = Done (7, [] ++ numbered_pages 7 1 (rev [chars "a.jpg"; chars "b.jpg"])
               ++ [wprintPage 7 (1 + Z.of_nat 2) None true false]).
Proof.
  apply (image_job_pages_are_numbered 0 (-1) (chars "application/pdf") (always 0)
           (mk_request (Some (chars "image/jpeg")) None false false None [])
           sample_params (sample_caps false)
           [chars "a.jpg"; chars "b.jpg"] (fresh_locals 0 (fun _ => 0) 2) 7 []);
    [intros w' c; reflexivity | reflexivity].
Defined.

Lemma page_range_is_for_pdf_only_witness :
  prepare_job 0 (-1) 0 (chars "application/pdf") (chars "application/pdf")
              32 32 32 (fun _ => 3) (fun _ => 0)
              (mk_request (Some (chars "image/jpeg")) (Some (chars "2-3"))
                          false false None [])
              sample_params (sample_caps true) [Some (chars "a.jpg")]
  = prepare_job 0 (-1) 0 (chars "application/pdf") (chars "application/pdf")
                32 32 32 (fun _ => 3) (fun _ => 0)
                (mk_request (Some (chars "image/jpeg")) (Some (chars "123456"))
                            false false None [])
                sample_params (sample_caps true) [Some (chars "a.jpg")].
Proof.
  destruct (page_range_is_for_pdf_only 0 (-1) 0 (chars "application/pdf")
              (chars "application/pdf") 32 32 32 (fun _ => 3) (fun _ => 0)
              (Some (chars "image/jpeg")) (Some (chars "2-3"))
              (Some (chars "123456")) false false None []
              sample_params (sample_caps true) [Some (chars "a.jpg")])
    as [Hsame _]; [reflexivity | exact Hsame].
Defined.

Lemma duplex_is_kept_or_disabled_witness :
  exists p st,
    prepare_job 0 (-1) 0 (chars "application/pdf") (chars "application/pdf")
                32 32 32 (fun _ => 3) (fun _ => 0)
                (mk_request (Some (chars "image/jpeg")) None false false None [])
                sample_params (sample_caps true)
                [Some (chars "a.jpg"); Some (chars "b.jpg")]
    = Done (p, st) /\
    duplex p = duplex sample_params.
Proof.
  eexists _, _. split; [vm_compute; reflexivity |].
  eapply (duplex_is_kept_or_disabled 0 (-1) 0 (chars "application/pdf")
            (chars "application/pdf") 32 32 32 (fun _ => 3) (fun _ => 0)
            (mk_request (Some (chars "image/jpeg")) None false false None [])
            sample_params _ (sample_caps true)
            [Some (chars "a.jpg"); Some (chars "b.jpg")]);
    [vm_compute; reflexivity | simpl; lia].
Defined.

Lemma scaling_of_preserved_pdf_witness :
  exists params',
    set_print_scaling (chars "application/pdf") 32 32 32
                      (chars "application/pdf") sample_params
                      (mk_caps true [chars "auto"; chars "none"] (chars "fit"))
                      false true
    = Done params' /\
    print_scaling params' = chars "none".
Proof.
  destruct (scaling_of_preserved_pdf (chars "application/pdf") 32 32 32
              (chars "application/pdf") sample_params
              (mk_caps true [chars "auto"; chars "none"] (chars "fit"))
              false true)
    as (params' & Hrun & Hscaling); [lia | lia | reflexivity | reflexivity |].
  exists params'. split; [exact Hrun |]. rewrite Hscaling. reflexivity.
Defined.

(** A field of four bytes for the scaling of the job: the printer's
    default is cut to fit. *)
Lemma scaling_never_overruns_witness :
  exists params',
    set_print_scaling (chars "application/pdf") 32 32 4
                      (chars "application/pdf") sample_params
                      (mk_caps true [] (chars "fit-to-page")) false false
    = Done params' /\
    (length (print_scaling params') < 4)%nat.
Proof.
  apply (scaling_never_overruns (chars "application/pdf") 32 32 4
           (chars "application/pdf") sample_params
           (mk_caps true [] (chars "fit-to-page")) false false); lia.
Defined.

Lemma count_is_number_of_set_bits_witness :
  count_reasons 10 (seq 0 5) 0 = Done 2%nat.
Proof. apply (count_is_number_of_set_bits 10 5). lia. Defined.

Lemma fail_reason_mask_follows_enum :
  follows_enum fail_reason_mask fail_reason_bit fail_reasons_chain.
Proof.
  split.
  - repeat constructor.
  - unfold fail_reasons_chain.
    repeat (apply SSorted_cons; [| repeat (apply Forall_cons_2; [simpl; lia |]);
                                   apply Forall_nil_2]).
    apply SSorted_nil.
Qed.

Lemma fail_reasons_10_have_branches :
  bits_have_branches fail_reason_bit fail_reasons_chain 10 17.
Proof.
  unfold bits_have_branches.
  change (set_bits 10 17) with [1%nat; 3%nat].
  repeat (apply Forall_cons_2; [by eexists |]). apply Forall_nil_2.
Qed.

Lemma decoder_follows_the_bits_witness :
  (fold_left (decode_step fail_reason_mask fail_reasons_chain) (seq 0 17)
             (10, [])).2
  = [JOB_FAIL_REASON__ABORTED_BY_SYSTEM; JOB_FAIL_REASON__COMPRESSION_ERROR].
Proof.
  destruct (decoder_follows_the_bits fail_reason_mask fail_reason_bit
              fail_reasons_chain 10 17 fail_reason_mask_follows_enum
              fail_reasons_10_have_branches) as [Hstrings _].
  rewrite Hstrings. reflexivity.
Defined.

Lemma callback_reasons_follow_the_bits_witness :
  exists ev,
    _wprint_callback_fn 0 (-1) (-2) (-3) (-4) 1 2 3 4 17 31
                        (fun _ => 0) fail_reason_mask 7
                        (Some (mk_cb 4 (-1) 10 None)) true true
    = Done (Some ev) /\
    blockedReasons ev
    = Some [JOB_FAIL_REASON__ABORTED_BY_SYSTEM; JOB_FAIL_REASON__COMPRESSION_ERROR].
Proof.
  destruct (callback_reasons_follow_the_bits 0 (-1) (-2) (-3) (-4) 1 2 3 4 17 31
              (fun _ => 0) fail_reason_mask (mk_cb 4 (-1) 10 None)
              fail_reason_bit (fun _ => 0%nat) 7)
    as (ev & Hrun & _ & Hreasons).
  - vm_compute. discriminate.
  - intros _. split;
      [exact fail_reason_mask_follows_enum | exact fail_reasons_10_have_branches].
  - intros Hfailed. vm_compute in Hfailed. discriminate.
  - exists ev. split; [exact Hrun |]. rewrite Hreasons. reflexivity.
Defined.

Lemma count_shifts_out_of_range_witness :
  _wprint_callback_fn 0 (-1) (-2) (-3) (-4) 1 2 3 4 17 50
                      (fun _ => 0) fail_reason_mask 7
                      (Some (mk_cb 3 0 1 None)) true true
  = Undefined ShiftOutOfRange.
Proof.
  apply (count_shifts_out_of_range 0 (-1) (-2) (-3) (-4) 1 2 3 4 17 50
           (fun _ => 0) fail_reason_mask (mk_cb 3 0 1 None) 7).
  vm_compute. discriminate.
Defined.

(** A PDF that the renderer cannot open, with the page range "1-3". *)
Lemma unreadable_pdf_job_fails_witness :
  exists h w',
    Java_com_android_bips_ipp_Backend_nativeStartJob
      0 (-1) 0 (chars "application/pdf") (chars "application/pdf") 32 32 32
      (always 0) (fun _ => -1) (fun _ => 0)
      (one_pdf "1-3") sample_params (sample_caps true) []
    = Done (h, w') /\
    h = -1.
Proof.
  eexists _, _. split; [vm_compute; reflexivity |].
  eapply (unreadable_pdf_job_fails
            0 (-1) 0 (chars "application/pdf") (chars "application/pdf") 32 32 32
            (always 0) (fun _ => -1) (fun _ => 0)
            (one_pdf "1-3") sample_params (sample_caps true) (chars "a.pdf") []);
    [discriminate | reflexivity | reflexivity | simpl; lia
     | vm_compute; reflexivity].
Defined.

Lemma fraction_is_dropped_witness :
  parse_segment (chars "2.9") = Done (Some (2, 2)).
Proof.
  apply (fraction_is_dropped (chars "2") (chars "9"));
    [reflexivity | reflexivity | simpl; lia | simpl; lia].
Defined.

(** Sample flags: the nine render flags on bits 0 to 8, the alignment
    constants 1, 2, 4 and CENTER = 3. *)
Lemma render_flags_are_only_added_witness :
  Z.land (_convertJobParams_to_C_render_flags 1 2 4 8 16 32 64 128 256 1 2 4 3
            (mk_java_params 1024 true false false false true true 0))
         1024
  = 1024.
Proof.
  apply (render_flags_are_only_added 1 2 4 8 16 32 64 128 256 1 2 4 3
           (mk_java_params 1024 true false false false true true 0)).
  reflexivity.
Defined.

Lemma center_overrides_orientation_witness :
  let flags :=
    _convertJobParams_to_C_render_flags 1 2 4 8 16 32 64 128 256 1 2 4 3
      (mk_java_params 256 false false false false false false 7) in
  Z.land flags (Z.lor 64 128) = Z.lor 64 128 /\ Z.land flags 256 = 0.
Proof.
  apply (center_overrides_orientation 1 2 4 8 16 32 64 128 256 1 2 4 3
           (mk_java_params 256 false false false false false false 7));
    [discriminate | reflexivity | reflexivity].
Defined.
